(** * plantwater: request admission layer

    A shallow embedding of the admission code of the plantwater backend:
    - [RateLimit]      : src/lib/rateLimit.ts (in-process limiter and account lockout),
    - [RedisRateLimit] : src/lib/redisRateLimit.ts (Redis-backed limiter with in-memory fallback),
    - [DosProtection]  : src/lib/dosProtection.ts (the DoS gate),
    - [Csrf]           : src/lib/csrf.ts (the Origin/Referer validator),
    - [Auth]           : src/lib/auth.ts (the credentials check),
    - [PasswordPolicy] : src/lib/passwordPolicy.ts.

    Conventions.  JavaScript numbers that hold timestamps, counters and
    sizes are integers far below 2^53, so they are modelled by [Z]; a
    number that may be [NaN] is an [option Z].  Strings are sequences of
    8-bit characters, which is what header values are.  An optional field
    ([x?: number]) is an [option]; its JavaScript truthiness is written out
    ([undefined], [0] and the empty string are falsy).  Every [Date.now()]
    reading is an explicit argument.  A [Map] is a [gmap]; mutation of an
    object stored in a [Map] is an [insert] at its key.  Console output is
    left out. *)

From Stdlib Require Import ZArith Lia List String Ascii Bool.
From stdpp Require Import base gmap strings list pretty.
Open Scope Z_scope.

(** ** The fragment of the JavaScript runtime the code relies on *)

Module JS.

(** Truthiness of an optional number and of an optional string. *)
Definition truthyZ (o : option Z) : bool :=
  match o with
  | Some z => negb (z =? 0)
  | None => false
  end.

Definition nonEmpty (s : string) : bool :=
  match s with
  | EmptyString => false
  | String _ _ => true
  end.

Definition truthyS (o : option string) : bool :=
  match o with
  | Some s => nonEmpty s
  | None => false
  end.

(** [a || b] on optional strings. *)
Definition orS (a b : option string) : option string :=
  if truthyS a then a else b.

(** [a || d] where [d] is a string literal. *)
Definition orElse (a : option string) (d : string) : string :=
  match a with
  | Some s => if nonEmpty s then s else d
  | None => d
  end.

(** [s.includes(sub)]. *)
Fixpoint includes (s sub : string) : bool :=
  String.prefix sub s ||
  match s with
  | EmptyString => false
  | String _ s' => includes s' sub
  end.

(** [s.split(sep)[0]]: the characters before the first separator. *)
Fixpoint splitHead (sep : ascii) (s : string) : string :=
  match s with
  | EmptyString => EmptyString
  | String c s' =>
      if Ascii.eqb c sep then EmptyString else String c (splitHead sep s')
  end.

(** White space of a header value (a Latin-1 string): TAB, LF, VT, FF, CR,
    SP and NBSP. *)
Definition isWhiteSpace (c : ascii) : bool :=
  let n := Z.of_N (N_of_ascii c) in
  ((9 <=? n) && (n <=? 13)) || (n =? 32) || (n =? 160).

Fixpoint trimStart (s : string) : string :=
  match s with
  | EmptyString => EmptyString
  | String c s' => if isWhiteSpace c then trimStart s' else s
  end.

Fixpoint trimEnd (s : string) : string :=
  match s with
  | EmptyString => EmptyString
  | String c s' =>
      let r := trimEnd s' in
      if isWhiteSpace c && negb (nonEmpty r) then EmptyString else String c r
  end.

Definition trim (s : string) : string := trimEnd (trimStart s).

(** [s.toLowerCase()] on a Latin-1 string. *)
Definition lowerChar (c : ascii) : ascii :=
  let n := Z.of_N (N_of_ascii c) in
  if ((65 <=? n) && (n <=? 90)) ||
     ((192 <=? n) && (n <=? 222) && negb (n =? 215))
  then ascii_of_N (Z.to_N (n + 32)) else c.

Fixpoint toLowerCase (s : string) : string :=
  match s with
  | EmptyString => EmptyString
  | String c s' => String (lowerChar c) (toLowerCase s')
  end.

(** [s.toUpperCase()] on a Latin-1 string.  The three Latin-1 letters
    whose upper case is not a single Latin-1 character (U+00B5, U+00DF and
    U+00FF) stay as they are; no method token holds them. *)
Definition upperChar (c : ascii) : ascii :=
  let n := Z.of_N (N_of_ascii c) in
  if ((97 <=? n) && (n <=? 122)) ||
     ((224 <=? n) && (n <=? 254) && negb (n =? 247))
  then ascii_of_N (Z.to_N (n - 32)) else c.

Fixpoint toUpperCase (s : string) : string :=
  match s with
  | EmptyString => EmptyString
  | String c s' => String (upperChar c) (toUpperCase s')
  end.

(** [s.split(sep)] for a one-character separator: the pieces between the
    separators, empty ones included. *)
Fixpoint split (sep : ascii) (s : string) : list string :=
  match s with
  | EmptyString => [EmptyString]
  | String c s' =>
      if Ascii.eqb c sep then EmptyString :: split sep s'
      else
        match split sep s' with
        | piece :: pieces => String c piece :: pieces
        | [] => [String c EmptyString]
        end
  end.

(** [parseInt(s, 10)]: skip leading white space, read an optional sign,
    then the longest run of decimal digits; [None] is [NaN]. *)
Definition digit (c : ascii) : option Z :=
  let n := Z.of_N (N_of_ascii c) in
  if (48 <=? n) && (n <=? 57) then Some (n - 48) else None.

Fixpoint digitsPrefix (s : string) (acc : option Z) : option Z :=
  match s with
  | EmptyString => acc
  | String c s' =>
      match digit c with
      | Some d => digitsPrefix s' (Some (10 * default 0 acc + d))
      | None => acc
      end
  end.

Definition parseInt (s : string) : option Z :=
  match trimStart s with
  | String "-"%char r => Z.opp <$> digitsPrefix r None
  | String "+"%char r => digitsPrefix r None
  | r => digitsPrefix r None
  end.

(** [a <= b] where [a] may be [NaN]: every comparison with [NaN] is false. *)
Definition leNum (a : option Z) (b : Z) : bool :=
  match a with
  | Some x => x <=? b
  | None => false
  end.

(** [Math.ceil(a / b)] for integers [a] and [b > 0]. *)
Definition ceilDiv (a b : Z) : Z := - ((- a) / b).

(** [n.toString()] of an integer. *)
Definition toString (n : Z) : string := pretty n.

(** [new Date(t).toISOString()].  A time value beyond 8.64e15 ms from
    the epoch is an invalid date, for which the method throws a
    [RangeError]: [None]. *)
Definition maxTime : Z := 8640000000000000.

Definition pad (width : nat) (n : Z) : string :=
  let s := pretty n in
  String.concat "" (replicate (width - String.length s)%nat "0"%string) +:+ s.

Definition civilFromDays (days : Z) : Z * Z * Z :=
  let z := days + 719468 in
  let era := z / 146097 in
  let doe := z - era * 146097 in
  let yoe := (doe - doe / 1460 + doe / 36524 - doe / 146096) / 365 in
  let doy := doe - (365 * yoe + yoe / 4 - yoe / 100) in
  let mp := (5 * doy + 2) / 153 in
  let d := doy - (153 * mp + 2) / 5 + 1 in
  let m := if mp <? 10 then mp + 3 else mp - 9 in
  let y := yoe + era * 400 + (if m <=? 2 then 1 else 0) in
  (y, m, d).

Definition yearString (y : Z) : string :=
  if (0 <=? y) && (y <=? 9999) then pad 4 y
  else if y <? 0 then "-" +:+ pad 6 (- y)
  else "+" +:+ pad 6 y.

Definition toISOString (t : Z) : option string :=
  if (- maxTime <=? t) && (t <=? maxTime) then
    let days := t / 86400000 in
    let ms := t mod 86400000 in
    let '(y, m, d) := civilFromDays days in
    Some (yearString y +:+ "-" +:+ pad 2 m +:+ "-" +:+ pad 2 d +:+ "T" +:+
          pad 2 (ms / 3600000) +:+ ":" +:+ pad 2 (ms / 60000 mod 60) +:+ ":" +:+
          pad 2 (ms / 1000 mod 60) +:+ "." +:+ pad 3 (ms mod 1000) +:+ "Z")
  else None.

(** [parseInt(s)] without a radix: as [parseInt(s, 10)], except that digits
    after a [0x] or [0X] prefix are read in base 16. *)
Definition hexDigit (c : ascii) : option Z :=
  let n := Z.of_N (N_of_ascii c) in
  if (48 <=? n) && (n <=? 57) then Some (n - 48)
  else if (65 <=? n) && (n <=? 70) then Some (n - 55)
  else if (97 <=? n) && (n <=? 102) then Some (n - 87)
  else None.

Fixpoint hexDigitsPrefix (s : string) (acc : option Z) : option Z :=
  match s with
  | EmptyString => acc
  | String c s' =>
      match hexDigit c with
      | Some d => hexDigitsPrefix s' (Some (16 * default 0 acc + d))
      | None => acc
      end
  end.

Definition unsignedInt (s : string) : option Z :=
  match s with
  | String "0"%char (String "x"%char r) => hexDigitsPrefix r None
  | String "0"%char (String "X"%char r) => hexDigitsPrefix r None
  | _ => digitsPrefix s None
  end.

Definition parseIntAuto (s : string) : option Z :=
  match trimStart s with
  | String "-"%char r => Z.opp <$> unsignedInt r
  | String "+"%char r => unsignedInt r
  | r => unsignedInt r
  end.

End JS.

(** ** The fragment of next/server the code relies on *)

Module Next.

(** A request: its method, the path of its URL and its headers.  Header
    names are lower-case, as [Headers] stores them; every [get] in the
    source uses a lower-case literal. *)
Record NextRequest := {
  method : string;
  pathname : string;
  headers : gmap string string
}.

Definition headers_get (request : NextRequest) (name : string) : option string :=
  headers request !! name.

(** A response as the code builds it: the status and the headers of its
    [init] argument (what the framework adds on its own, such as the
    content type of a JSON body, is left out) and the body, plain text
    ([new NextResponse(text, init)]) or a JSON object with string fields
    ([NextResponse.json(obj, init)]). *)
Inductive Body :=
| Text (text : string)
| Json (fields : list (string * string)).

Record NextResponse := {
  status : Z;
  responseHeaders : list (string * string);
  body : Body
}.

(** Lookup in a [Record<string, string>] of headers. *)
Fixpoint header (hs : list (string * string)) (name : string) : option string :=
  match hs with
  | [] => None
  | (n, v) :: hs' => if String.eqb n name then Some v else header hs' name
  end.

End Next.

(** ** src/lib/rateLimit.ts: in-process limiter and account lockout *)

Module RateLimit.
Import JS Next.

Record RateLimitRule := {
  windowMs : Z;
  maxRequests : Z;
  blockDurationMs : option Z
}.

Record RateLimitEntry := {
  count : Z;
  windowStart : Z;
  blockedUntil : option Z
}.

Record AccountLockoutEntry := {
  failedAttempts : Z;
  lastFailure : Z;
  lockedUntil : option Z
}.

(** The keys of [RATE_LIMIT_RULES]. *)
Inductive RuleName := LOGIN | REGISTRATION | AI_ANALYZE | AI_IDENTIFY | GENERAL.

Definition ruleNameString (r : RuleName) : string :=
  match r with
  | LOGIN => "LOGIN"
  | REGISTRATION => "REGISTRATION"
  | AI_ANALYZE => "AI_ANALYZE"
  | AI_IDENTIFY => "AI_IDENTIFY"
  | GENERAL => "GENERAL"
  end.

Definition RATE_LIMIT_RULES (r : RuleName) : RateLimitRule :=
  match r with
  | LOGIN =>
      {| windowMs := 15 * 60 * 1000; maxRequests := 5;
         blockDurationMs := Some (15 * 60 * 1000) |}
  | REGISTRATION =>
      {| windowMs := 60 * 60 * 1000; maxRequests := 3;
         blockDurationMs := Some (60 * 60 * 1000) |}
  | AI_ANALYZE =>
      {| windowMs := 60 * 1000; maxRequests := 10;
         blockDurationMs := Some (5 * 60 * 1000) |}
  | AI_IDENTIFY =>
      {| windowMs := 60 * 1000; maxRequests := 5;
         blockDurationMs := Some (5 * 60 * 1000) |}
  | GENERAL =>
      {| windowMs := 60 * 1000; maxRequests := 60;
         blockDurationMs := Some (60 * 1000) |}
  end.

Definition maxFailedAttempts : Z := 5.
Definition lockoutDurationMs : Z := 30 * 60 * 1000.
Definition failureWindowMs : Z := 15 * 60 * 1000.

(** The type ['ip' | 'user']. *)
Inductive LimitType := ip | user.

Definition limitTypeString (t : LimitType) : string :=
  match t with
  | ip => "ip"
  | user => "user"
  end.

Definition getClientIP (request : NextRequest) : string :=
  let forwarded := headers_get request "x-forwarded-for" in
  let real := headers_get request "x-real-ip" in
  let connectingIP := headers_get request "x-connecting-ip" in
  orElse
    (orS (orS ((fun f => trim (splitHead ","%char f)) <$> forwarded) real)
         connectingIP)
    "unknown".

Definition getRateLimitKey (type : LimitType) (identifier rule : string) : string :=
  limitTypeString type +:+ ":" +:+ rule +:+ ":" +:+ identifier.

Record Limited := {
  limited : bool;
  resetTime : option Z;
  remaining : option Z
}.

(** [isRateLimited(key, rule)] at clock reading [now], on [rateLimitStore]. *)
Definition isRateLimited (now : Z) (key : string) (rule : RateLimitRule)
    (store : gmap string RateLimitEntry) : Limited * gmap string RateLimitEntry :=
  match store !! key with
  | None =>
      ({| limited := false; resetTime := None;
          remaining := Some (maxRequests rule - 1) |},
       <[key := {| count := 1; windowStart := now; blockedUntil := None |}]> store)
  | Some entry =>
      if truthyZ (blockedUntil entry) && (now <? default 0 (blockedUntil entry)) then
        ({| limited := true; resetTime := blockedUntil entry; remaining := None |},
         store)
      else if now - windowStart entry >? windowMs rule then
        ({| limited := false; resetTime := None;
            remaining := Some (maxRequests rule - 1) |},
         <[key := {| count := 1; windowStart := now; blockedUntil := None |}]> store)
      else
        let count' := count entry + 1 in
        if count' >? maxRequests rule then
          let blockedUntil' :=
            if truthyZ (blockDurationMs rule)
            then Some (now + default 0 (blockDurationMs rule))
            else blockedUntil entry in
          ({| limited := true;
              resetTime :=
                if truthyZ blockedUntil' then blockedUntil'
                else Some (windowStart entry + windowMs rule);
              remaining := None |},
           <[key := {| count := count'; windowStart := windowStart entry;
                       blockedUntil := blockedUntil' |}]> store)
        else
          ({| limited := false; resetTime := None;
              remaining := Some (maxRequests rule - count') |},
           <[key := {| count := count'; windowStart := windowStart entry;
                       blockedUntil := blockedUntil entry |}]> store)
  end.

Record FailedLogin := {
  locked : bool;
  lockedUntilResult : option Z;
  attemptsRemaining : option Z
}.

(** [recordFailedLogin(email)] at clock reading [now], on
    [accountLockoutStore]. *)
Definition recordFailedLogin (now : Z) (email : string)
    (store : gmap string AccountLockoutEntry)
    : FailedLogin * gmap string AccountLockoutEntry :=
  let entry :=
    default {| failedAttempts := 0; lastFailure := 0; lockedUntil := None |}
            (store !! email) in
  let attempts :=
    if now - lastFailure entry >? failureWindowMs then 0 else failedAttempts entry in
  let attempts' := attempts + 1 in
  if attempts' >=? maxFailedAttempts then
    let until := now + lockoutDurationMs in
    ({| locked := true; lockedUntilResult := Some until; attemptsRemaining := None |},
     <[email := {| failedAttempts := attempts'; lastFailure := now;
                   lockedUntil := Some until |}]> store)
  else
    ({| locked := false; lockedUntilResult := None;
        attemptsRemaining := Some (maxFailedAttempts - attempts') |},
     <[email := {| failedAttempts := attempts'; lastFailure := now;
                   lockedUntil := lockedUntil entry |}]> store).

Record LockStatus := {
  isLocked : bool;
  lockedUntilStatus : option Z
}.

(** [isAccountLocked(email)] at clock reading [now]. *)
Definition isAccountLocked (now : Z) (email : string)
    (store : gmap string AccountLockoutEntry)
    : LockStatus * gmap string AccountLockoutEntry :=
  match store !! email with
  | None => ({| isLocked := false; lockedUntilStatus := None |}, store)
  | Some entry =>
      if negb (truthyZ (lockedUntil entry)) then
        ({| isLocked := false; lockedUntilStatus := None |}, store)
      else if now >=? default 0 (lockedUntil entry) then
        ({| isLocked := false; lockedUntilStatus := None |},
         <[email := {| failedAttempts := 0; lastFailure := lastFailure entry;
                       lockedUntil := None |}]> store)
      else
        ({| isLocked := true; lockedUntilStatus := lockedUntil entry |}, store)
  end.

Definition clearFailedLogins (email : string)
    (store : gmap string AccountLockoutEntry) : gmap string AccountLockoutEntry :=
  match store !! email with
  | None => store
  | Some entry =>
      <[email := {| failedAttempts := 0; lastFailure := lastFailure entry;
                    lockedUntil := None |}]> store
  end.

(** [createRateLimitResponse(resetTime, message)] at clock reading [now];
    [None] when [toISOString] throws. *)
Definition createRateLimitResponse (now : Z) (resetTime : option Z)
    (message : string) : option NextResponse :=
  let retryAfter :=
    if truthyZ resetTime
    then toString (ceilDiv (default 0 resetTime - now) 1000)
    else "60" in
  let headers0 := [("Retry-After"%string, retryAfter)] in
  headers1 ←
    (if truthyZ resetTime
     then iso ← toISOString (default 0 resetTime);
          Some (headers0 ++ [("X-RateLimit-Reset"%string, iso)])
     else Some headers0);
  Some {| status := 429; responseHeaders := headers1;
          body := Json [("error"%string, message)] |}.

Record Middleware := {
  mwLimited : bool;
  response : option NextResponse
}.

(** [rateLimitMiddleware(ruleName, identifier, type)]: [now] is the clock
    reading of [isRateLimited], [now'] that of [createRateLimitResponse].
    The first component is [None] when building the response throws. *)
Definition rateLimitMiddleware (now now' : Z) (ruleName : RuleName)
    (identifier : string) (type : LimitType)
    (store : gmap string RateLimitEntry)
    : option Middleware * gmap string RateLimitEntry :=
  let rule := RATE_LIMIT_RULES ruleName in
  let key := getRateLimitKey type identifier (ruleNameString ruleName) in
  let '(result, store') := isRateLimited now key rule store in
  if limited result then
    let message :=
      match type with
      | user => "Too many requests from your account. Please try again later."
      | ip => "Too many requests from your IP address. Please try again later."
      end%string in
    ((fun r => {| mwLimited := true; response := Some r |}) <$>
       createRateLimitResponse now' (resetTime result) message,
     store')
  else (Some {| mwLimited := false; response := None |}, store').

(** The two tests [isExpired] of [cleanupExpiredEntries]. *)
Definition rateLimitEntryExpired (now : Z) (entry : RateLimitEntry) : bool :=
  if truthyZ (blockedUntil entry) then now >? default 0 (blockedUntil entry)
  else now - windowStart entry >? 24 * 60 * 60 * 1000.

Definition lockoutEntryExpired (now : Z) (entry : AccountLockoutEntry) : bool :=
  if truthyZ (lockedUntil entry) then now >? default 0 (lockedUntil entry)
  else now - lastFailure entry >? 24 * 60 * 60 * 1000.

(** [cleanupExpiredEntries()] at clock reading [now], on [rateLimitStore]
    and [accountLockoutStore]. *)
Definition cleanupExpiredEntries (now : Z)
    (stores : gmap string RateLimitEntry * gmap string AccountLockoutEntry)
    : gmap string RateLimitEntry * gmap string AccountLockoutEntry :=
  (filter (fun kv => rateLimitEntryExpired now (snd kv) = false) (fst stores),
   filter (fun kv => lockoutEntryExpired now (snd kv) = false) (snd stores)).

End RateLimit.

(** ** src/lib/auth.ts: the credentials check *)

Module Auth.
Import JS.

(** The [credentials] argument of [authorize]; the whole object and each
    field may be missing. *)
Record Credentials := {
  email : option string;
  password : option string
}.

(** A row of the user table, as far as [authorize] reads it. *)
Record User := {
  userId : string;
  userEmail : string;
  userName : option string;
  userPassword : option string
}.

(** The object [authorize] returns on success. *)
Record Authorized := {
  id : string;
  authorizedEmail : string;
  name : option string
}.

(** [authorize(credentials)].  [findUnique] is
    [prisma.user.findUnique({where: {email}})] and [compare] is
    [bcryptjs.compare]; [nowLocked] is the clock reading of
    [isAccountLocked] and [nowFailed] that of [recordFailedLogin].
    [None] is [null]. *)
Definition authorize (findUnique : string -> option User)
    (compare : string -> string -> bool) (nowLocked nowFailed : Z)
    (credentials : option Credentials)
    (store : gmap string RateLimit.AccountLockoutEntry)
    : option Authorized * gmap string RateLimit.AccountLockoutEntry :=
  let email0 := credentials ≫= email in
  let password0 := credentials ≫= password in
  if negb (truthyS email0) || negb (truthyS password0) then (None, store)
  else
    let email1 := default "" email0 in
    let password1 := default "" password0 in
    let '(lockStatus, store1) := RateLimit.isAccountLocked nowLocked email1 store in
    if RateLimit.isLocked lockStatus then (None, store1)
    else
      let user := findUnique email1 in
      if negb (truthyS (user ≫= userPassword)) then
        (None, snd (RateLimit.recordFailedLogin nowFailed email1 store1))
      else
        let isPasswordValid :=
          compare password1 (default "" (user ≫= userPassword)) in
        if negb isPasswordValid then
          (None, snd (RateLimit.recordFailedLogin nowFailed email1 store1))
        else
          ((fun u => {| id := userId u; authorizedEmail := userEmail u;
                        name := userName u |}) <$> user,
           RateLimit.clearFailedLogins email1 store1).

End Auth.

(** ** src/lib/passwordPolicy.ts: the password policy *)

Module PasswordPolicy.
Import JS.

Inductive Strength := weak | medium | strong.

Record PasswordValidationResult := {
  isValid : bool;
  errors : list string;
  strength : Strength
}.

Definition WEAK_PASSWORDS : list string :=
  ["password"; "password123"; "123456"; "123456789"; "qwerty";
   "abc123"; "password1"; "admin"; "letmein"; "welcome";
   "monkey"; "dragon"; "master"; "shadow"; "passw0rd"]%string.

(** [re.test(s)] for a regular expression that is one character class. *)
Fixpoint testClass (class : ascii -> bool) (s : string) : bool :=
  match s with
  | EmptyString => false
  | String c s' => class c || testClass class s'
  end.

Definition between (lo hi : Z) (c : ascii) : bool :=
  let n := Z.of_N (N_of_ascii c) in (lo <=? n) && (n <=? hi).

(** [[A-Z]], [[a-z]] and [\d]. *)
Definition upper : ascii -> bool := between 65 90.
Definition lower : ascii -> bool := between 97 122.
Definition digitClass : ascii -> bool := between 48 57.

(** The class of special characters of the policy. *)
Definition specialChars : string :=
  String "!" (String "@" (String "#" (String "$" (String "%" (String "^"
  (String "&" (String "*" (String "(" (String ")" (String "_" (String "+"
  (String "-" (String "=" (String "[" (String "]" (String "{" (String "}"
  (String ";" (String "'" (String ":" (String (ascii_of_nat 34)
  (String (ascii_of_nat 92) (String "|" (String "," (String "." (String "<"
  (String ">" (String "/" (String "?" EmptyString))))))))))))))))))))))))))))).

Definition special (c : ascii) : bool := testClass (Ascii.eqb c) specialChars.

Definition strlen (s : string) : Z := Z.of_nat (String.length s).

Definition validatePassword (password : string) : PasswordValidationResult :=
  let errors :=
    (if strlen password <? 8
     then ["Password must be at least 8 characters long"%string] else []) ++
    (if negb (testClass upper password)
     then ["Password must contain at least one uppercase letter"%string] else []) ++
    (if negb (testClass lower password)
     then ["Password must contain at least one lowercase letter"%string] else []) ++
    (if negb (testClass digitClass password)
     then ["Password must contain at least one number"%string] else []) ++
    (if negb (testClass special password)
     then ["Password must contain at least one special character (!@#$%^&*)"%string]
     else []) ++
    (if existsb (String.eqb (toLowerCase password)) WEAK_PASSWORDS
     then ["This password is too common and not allowed"%string] else []) ++
    (if strlen password >? 100
     then ["Password must be less than 100 characters"%string] else []) in
  let strength :=
    match errors with
    | [] =>
        let hasVariousChars :=
          testClass upper password && testClass lower password &&
          testClass digitClass password && testClass special password in
        if (strlen password >=? 12) && hasVariousChars then strong
        else if (strlen password >=? 8) && hasVariousChars then medium
        else weak
    | _ :: _ => weak
    end in
  {| isValid := match errors with [] => true | _ :: _ => false end;
     errors := errors;
     strength := strength |}.

End PasswordPolicy.

(** ** src/lib/redisRateLimit.ts: Redis-backed limiter with in-memory fallback *)

Module RedisRateLimit.
Import JS.

Record RateLimitRule := {
  windowMs : Z;
  maxRequests : Z
}.

Record RateLimitResult := {
  success : bool;
  totalCount : Z;
  remainingRequests : Z;
  resetTime : Z
}.

(** An entry of [fallbackStore]. *)
Record FallbackRecord := {
  count : Z;
  recordResetTime : Z
}.

(** The Redis server, as far as [checkRateLimit] uses it: under each key a
    sorted set, a list of members with their scores, and the time at
    which the key expires, if one is set. *)
Abbreviation ZSet := (list (string * Z)).

Record RedisKey := {
  members : ZSet;
  expiresAt : option Z
}.

(** The sorted set under a key at server time [serverNow]: an absent or
    expired key holds the empty set. *)
Definition live (serverNow : Z) (k : option RedisKey) : ZSet :=
  match k with
  | Some k =>
      match expiresAt k with
      | Some t => if t <=? serverNow then [] else members k
      | None => members k
      end
  | None => []
  end.

Definition zremrangebyscore (lo hi : Z) (z : ZSet) : ZSet :=
  List.filter (fun e => negb ((lo <=? snd e) && (snd e <=? hi))) z.

Definition zadd (score : Z) (member : string) (z : ZSet) : ZSet :=
  (member, score) :: List.filter (fun e => negb (String.eqb (fst e) member)) z.

Definition zcard (z : ZSet) : Z := Z.of_nat (length z).

(** How [pipe.exec()] ends. *)
Inductive PipelineReply :=
| Rejected                      (* the promise rejects: store error or timeout *)
| Null                          (* it resolves to [null] *)
| Results (zcardReply : option Z). (* [results[2]?.[1]] *)

(** The state of the store connection during one call: the server runs
    the pipeline at its time [serverNow], or the call fails, or it yields
    no replies. *)
Inductive Infra := Up (serverNow : Z) | Failing | Nulling.

(** The pipeline of [checkRateLimit]: ZREMRANGEBYSCORE, ZADD, ZCARD and
    EXPIRE with [ttl] seconds. *)
Definition pipeline (infra : Infra) (key : string) (now windowStart : Z)
    (member : string) (ttl : Z) (srv : gmap string RedisKey)
    : PipelineReply * gmap string RedisKey :=
  match infra with
  | Up serverNow =>
      let z := zadd now member
                 (zremrangebyscore 0 windowStart (live serverNow (srv !! key))) in
      (Results (Some (zcard z)),
       <[key := {| members := z; expiresAt := Some (serverNow + ttl * 1000) |}]> srv)
  | Failing => (Rejected, srv)
  | Nulling => (Null, srv)
  end.

(** The singleton [redisRateLimiter]: [redis] is the server behind the
    connection, [None] when [REDIS_URL] is unset. *)
Record Limiter := {
  redis : option (gmap string RedisKey);
  fallbackStore : gmap string FallbackRecord
}.

(** The constructor, run with the given value of [process.env.REDIS_URL]
    against a server that holds the keys [server]. *)
Definition RedisRateLimiter (REDIS_URL : option string)
    (server : gmap string RedisKey) : Limiter :=
  {| redis := if truthyS REDIS_URL then Some server else None;
     fallbackStore := ∅ |}.

Definition rateLimitKey (prefix identifier : string) : string :=
  prefix +:+ ":" +:+ identifier.

(** [checkRateLimitMemory(identifier, rule, prefix)] at clock reading [now]. *)
Definition checkRateLimitMemory (now : Z) (identifier : string)
    (rule : RateLimitRule) (prefix : string)
    (store : gmap string FallbackRecord)
    : RateLimitResult * gmap string FallbackRecord :=
  let key := rateLimitKey prefix identifier in
  let fresh :=
    ({| success := true; totalCount := 1;
        remainingRequests := maxRequests rule - 1;
        resetTime := now + windowMs rule |},
     <[key := {| count := 1; recordResetTime := now + windowMs rule |}]> store) in
  match store !! key with
  | None => fresh
  | Some record =>
      if now >? recordResetTime record then fresh
      else
        let count' := count record + 1 in
        ({| success := count' <=? maxRequests rule;
            totalCount := count';
            remainingRequests := Z.max 0 (maxRequests rule - count');
            resetTime := recordResetTime record |},
         <[key := {| count := count';
                     recordResetTime := recordResetTime record |}]> store)
  end.

(** [checkRateLimit(identifier, rule, prefix)]: [now] is the clock reading
    of the method itself, [nowMem] that of the fallback, [rnd] the
    rendering of [Math.random()]. *)
Definition checkRateLimit (infra : Infra) (now nowMem : Z) (rnd : string)
    (identifier : string) (rule : RateLimitRule) (prefix : string)
    (l : Limiter) : RateLimitResult * Limiter :=
  let key := rateLimitKey prefix identifier in
  let windowStart := now - windowMs rule in
  let fallback (l' : Limiter) :=
    let '(result, store') :=
      checkRateLimitMemory nowMem identifier rule prefix (fallbackStore l') in
    (result, {| redis := redis l'; fallbackStore := store' |}) in
  match redis l with
  | Some srv =>
      match pipeline infra key now windowStart (toString now +:+ "-" +:+ rnd)
              (ceilDiv (windowMs rule) 1000) srv with
      | (Results reply, srv') =>
          let totalCount := default 0 reply in
          ({| success := totalCount <=? maxRequests rule;
              totalCount := totalCount;
              remainingRequests := Z.max 0 (maxRequests rule - totalCount);
              resetTime := now + windowMs rule |},
           {| redis := Some srv'; fallbackStore := fallbackStore l |})
      | (_, srv') =>
          fallback {| redis := Some srv'; fallbackStore := fallbackStore l |}
      end
  | None => fallback l
  end.

Inductive RuleName := general | auth | upload | ai.

Definition RATE_LIMIT_RULES (r : RuleName) : RateLimitRule :=
  match r with
  | general => {| windowMs := 15 * 60 * 1000; maxRequests := 100 |}
  | auth => {| windowMs := 15 * 60 * 1000; maxRequests := 5 |}
  | upload => {| windowMs := 60 * 60 * 1000; maxRequests := 20 |}
  | ai => {| windowMs := 60 * 60 * 1000; maxRequests := 10 |}
  end.

(** *** Account locks *)

Record LockResult := {
  locked : bool;
  remainingTime : option Z
}.

(** An entry of [lockStore]. *)
Record LockData := {
  lockTime : Z;
  failures : Z
}.

Definition lockDuration : Z := 15 * 60 * 1000.
Definition maxAttempts : Z := 5.

(** The lock methods, seen from the client: what each awaited command of
    the Redis connection yields is an input, the commands sent are an
    output. *)
Inductive Reply (A : Type) :=
| Resolves (a : A)
| Rejects.
Arguments Resolves {A} a.
Arguments Rejects {A}.

Inductive Command :=
| HGETALL (key : string)
| DEL (key : string)
| HINCRBY (key field : string) (increment : Z)
| HGET (key field : string)
| EXPIRE (key : string) (seconds : Z)
| HSET (key field : string) (value : Z).

(** The replies to the commands of the lock methods: [hgetall] carries the
    [lockTime] field of the hash, [exec] carries [results?.[1]?.[1]], the
    reply to HGET. *)
Record LockReplies := {
  hgetall : Reply (option string);
  del : Reply unit;
  exec : Reply (option string);
  hset : Reply unit
}.

Definition lockKey (email : string) : string := "lock:" +:+ email.

(** [isAccountLocked(email)]: [redis] is [None] when there is no connection.
    [clock] gives the [Date.now()] readings by their place in the code:
    [clock 0] and [clock 1] are those of the Redis path (the comparison and
    the remaining time), [clock 2] and [clock 3] those of the in-memory
    path. *)
Definition isAccountLocked (redis : option LockReplies) (clock : nat -> Z)
    (email : string) (lockStore : gmap string LockData)
    : LockResult * list Command * gmap string LockData :=
  let key := lockKey email in
  let memory (sent : list Command) :=
    match lockStore !! email with
    | Some lockData =>
        if clock 2%nat <? lockTime lockData + lockDuration then
          ({| locked := true;
              remainingTime := Some (lockTime lockData + lockDuration - clock 3%nat) |},
           sent, lockStore)
        else ({| locked := false; remainingTime := None |}, sent,
              delete email lockStore)
    | None => ({| locked := false; remainingTime := None |}, sent, lockStore)
    end in
  match redis with
  | Some replies =>
      match hgetall replies with
      | Resolves field =>
          if truthyS field then
            let lockTime0 := parseIntAuto (default "" field) in
            match lockTime0 with
            | Some t =>
                if clock 0%nat <? t + lockDuration then
                  ({| locked := true;
                      remainingTime := Some (t + lockDuration - clock 1%nat) |},
                   [HGETALL key], lockStore)
                else
                  match del replies with
                  | Resolves _ =>
                      ({| locked := false; remainingTime := None |},
                       [HGETALL key; DEL key], lockStore)
                  | Rejects => memory [HGETALL key; DEL key]
                  end
            | None =>
                match del replies with
                | Resolves _ =>
                    ({| locked := false; remainingTime := None |},
                     [HGETALL key; DEL key], lockStore)
                | Rejects => memory [HGETALL key; DEL key]
                end
            end
          else ({| locked := false; remainingTime := None |}, [HGETALL key],
                lockStore)
      | Rejects => memory [HGETALL key]
      end
  | None => memory []
  end.

(** [recordFailedLogin(email)]: [clock 0] is the [Date.now()] written by
    HSET on the Redis path, [clock 1] the one of the in-memory path. *)
Definition recordFailedLogin (redis : option LockReplies) (clock : nat -> Z)
    (email : string) (lockStore : gmap string LockData)
    : LockResult * list Command * gmap string LockData :=
  let key := lockKey email in
  let memory (sent : list Command) :=
    let lockData := default {| lockTime := 0; failures := 0 |} (lockStore !! email) in
    let failures' := failures lockData + 1 in
    if failures' >=? maxAttempts then
      ({| locked := true; remainingTime := Some lockDuration |}, sent,
       <[email := {| lockTime := clock 1%nat; failures := failures' |}]> lockStore)
    else
      ({| locked := false; remainingTime := None |}, sent,
       <[email := {| lockTime := lockTime lockData; failures := failures' |}]>
         lockStore) in
  let pipe := [HINCRBY key "failures" 1; HGET key "failures";
               EXPIRE key (ceilDiv lockDuration 1000)] in
  match redis with
  | Some replies =>
      match exec replies with
      | Resolves reply =>
          let failures0 :=
            parseIntAuto (if truthyS reply then default "" reply else "0") in
          if match failures0 with
             | Some n => n >=? maxAttempts
             | None => false
             end
          then
            match hset replies with
            | Resolves _ =>
                ({| locked := true; remainingTime := Some lockDuration |},
                 pipe ++ [HSET key "lockTime" (clock 0%nat)], lockStore)
            | Rejects => memory (pipe ++ [HSET key "lockTime" (clock 0%nat)])
            end
          else ({| locked := false; remainingTime := None |}, pipe, lockStore)
      | Rejects => memory pipe
      end
  | None => memory []
  end.

(** [clearFailedLogins(email)]. *)
Definition clearFailedLogins (redis : option LockReplies) (email : string)
    (lockStore : gmap string LockData) : list Command * gmap string LockData :=
  match redis with
  | Some replies =>
      match del replies with
      | Resolves _ => ([DEL (lockKey email)], lockStore)
      | Rejects => ([DEL (lockKey email)], delete email lockStore)
      end
  | None => ([], delete email lockStore)
  end.

(** [cleanup()] at clock reading [now], on [fallbackStore] and [lockStore]. *)
Definition cleanup (now : Z)
    (stores : gmap string FallbackRecord * gmap string LockData)
    : gmap string FallbackRecord * gmap string LockData :=
  (filter (fun kv => (now >? recordResetTime (snd kv)) = false) (fst stores),
   filter (fun kv => (now >? lockTime (snd kv) + lockDuration) = false)
          (snd stores)).

End RedisRateLimit.

(** ** src/lib/dosProtection.ts: the DoS gate *)

Module DosProtection.
Import JS Next.

Record DoSProtectionConfig := {
  enabled : bool;
  maxRequestSize : Z;
  maxConcurrentRequests : Z;
  requestTimeout : Z;
  suspiciousPatternDetection : bool
}.

Record RequestMetrics := {
  startTime : Z;
  size : option Z;
  ip : string;
  userAgent : string;
  path : string
}.

(** What a pending [setTimeout] callback will do. *)
Inductive TimerAction :=
| DeleteActiveRequest (requestId : string)
| DecrementRequestCount (ip : string)
| UnmarkSuspicious (ip : string).

(** The singleton [dosProtection], with the limiter singleton it shares
    and the timers it has scheduled.  Console output is not modelled. *)
Record Service := {
  config : DoSProtectionConfig;
  activeRequests : gmap string RequestMetrics;
  suspiciousIPs : gset string;
  requestCounts : gmap string Z;
  timers : list (Z * TimerAction);
  limiter : RedisRateLimit.Limiter
}.

(** The constructor, run with the given value of [process.env.NODE_ENV]. *)
Definition DoSProtectionService (NODE_ENV : option string)
    (l : RedisRateLimit.Limiter) : Service :=
  {| config :=
       {| enabled := bool_decide (NODE_ENV = Some "production"%string);
          maxRequestSize := 10 * 1024 * 1024;
          maxConcurrentRequests := 50;
          requestTimeout := 30000;
          suspiciousPatternDetection := true |};
     activeRequests := ∅;
     suspiciousIPs := ∅;
     requestCounts := ∅;
     timers := [];
     limiter := l |}.

(** The steps of [protect] inside its [try] block. *)
Inductive Step :=
| SizeCheck | ConcurrencyCheck | RateLimitCheck | PatternCheck | Tracking.

(** What one call of [protect] reads from outside the service: the clock,
    by the place of each [Date.now()] in the code ([clock 0] in the request
    id, [clock 1] in [checkRateLimit] of the limiter, [clock 2] in its
    in-memory fallback, [clock 3] in [retryAfter], [clock 4] in the start
    time of the tracked request); [Math.random()], as the text it renders
    to ([random 0] in the request id, [random 1] in the member added to the
    sorted set); the state of the store connection; and the steps at which
    the runtime raises an exception.  The source has no [throw] in these
    steps; [faults] stands for the internal errors its [catch] blocks are
    written for. *)
Record Env := {
  clock : nat -> Z;
  random : nat -> string;
  infra : RedisRateLimit.Infra;
  faults : Step -> bool
}.

(** Computations of the gate: they read and update the service, and either
    return a value or raise. *)
Inductive Outcome (A : Type) :=
| Returned (a : A)
| Raised (error : string).
Arguments Returned {A} a.
Arguments Raised {A} error.

Definition Gate (A : Type) : Type := Service -> Outcome A * Service.

Definition ret {A} (a : A) : Gate A := fun s => (Returned a, s).

Definition bind {A B} (m : Gate A) (k : A -> Gate B) : Gate B :=
  fun s =>
    match m s with
    | (Returned a, s') => k a s'
    | (Raised e, s') => (Raised e, s')
    end.

Definition raise {A} (e : string) : Gate A := fun s => (Raised e, s).

(** [try { m } catch (error) { handler }]. *)
Definition tryCatch {A} (m : Gate A) (handler : string -> Gate A) : Gate A :=
  fun s =>
    match m s with
    | (Returned a, s') => (Returned a, s')
    | (Raised e, s') => handler e s'
    end.

Definition get : Gate Service := fun s => (Returned s, s).
Definition modify (f : Service -> Service) : Gate unit := fun s => (Returned tt, f s).

Notation "'let*' x := m 'in' k" := (bind m (fun x => k))
  (at level 10, x name, m at level 100, k at level 200).
Notation "m ;;; k" := (bind m (fun _ => k))
  (at level 100, k at level 200, right associativity).


(** An internal error at step [p], when the environment has one. *)
Definition step (env : Env) (p : Step) : Gate unit :=
  if faults env p then raise "internal error" else ret tt.

Definition setTimeout (action : TimerAction) (delay : Z) : Gate unit :=
  modify (fun s =>
    {| config := config s; activeRequests := activeRequests s;
       suspiciousIPs := suspiciousIPs s; requestCounts := requestCounts s;
       timers := timers s ++ [(delay, action)]; limiter := limiter s |}).

Definition getClientIP (request : NextRequest) : string :=
  let xForwardedFor := headers_get request "x-forwarded-for" in
  let xRealIP := headers_get request "x-real-ip" in
  let cfConnectingIP := headers_get request "cf-connecting-ip" in
  if truthyS cfConnectingIP then default "" cfConnectingIP
  else if truthyS xRealIP then default "" xRealIP
  else if truthyS xForwardedFor
  then trim (splitHead ","%char (default "" xForwardedFor))
  else orElse (headers_get request "host") "unknown".

Record SizeCheckResult := {
  allowed : bool;
  checkedSize : option Z
}.

Definition checkRequestSize (env : Env) (request : NextRequest)
    : Gate SizeCheckResult :=
  tryCatch
    (step env SizeCheck ;;;
     let* s := get in
     let contentLength := headers_get request "content-length" in
     if truthyS contentLength then
       let size := parseInt (default "" contentLength) in
       ret {| allowed := leNum size (maxRequestSize (config s));
              checkedSize := size |}
     else ret {| allowed := true; checkedSize := Some 0 |})
    (fun _ => ret {| allowed := true; checkedSize := Some 0 |}).

Definition checkConcurrentRequests (env : Env) (ip0 : string) : Gate bool :=
  step env ConcurrencyCheck ;;;
  let* s := get in
  let activeForIP :=
    length (List.filter (fun req => bool_decide (ip req = ip0))
              (snd <$> map_to_list (activeRequests s))) in
  ret (Z.of_nat activeForIP <? maxConcurrentRequests (config s)).

Record RateLimitCheckResult := {
  rlAllowed : bool;
  retryAfter : Z;
  remaining : Z
}.

Definition ruleFor (path0 : string) : RedisRateLimit.RuleName :=
  if includes path0 "/auth/" then RedisRateLimit.auth
  else if includes path0 "/upload" then RedisRateLimit.upload
  else if includes path0 "/analyze" || includes path0 "/identify"
  then RedisRateLimit.ai
  else RedisRateLimit.general.

Definition checkRateLimit (env : Env) (request : NextRequest) (ip0 : string)
    : Gate RateLimitCheckResult :=
  step env RateLimitCheck ;;;
  let rule := RedisRateLimit.RATE_LIMIT_RULES (ruleFor (pathname request)) in
  let* s := get in
  let '(result, l') :=
    RedisRateLimit.checkRateLimit (infra env) (clock env 1) (clock env 2)
      (random env 1) ip0 rule "dos" (limiter s) in
  modify (fun s =>
    {| config := config s; activeRequests := activeRequests s;
       suspiciousIPs := suspiciousIPs s; requestCounts := requestCounts s;
       timers := timers s; limiter := l' |}) ;;;
  ret {| rlAllowed := RedisRateLimit.success result;
         retryAfter := RedisRateLimit.resetTime result - clock env 3;
         remaining := RedisRateLimit.remainingRequests result |}.

Definition suspiciousAgents : list string :=
  ["python"; "curl"; "wget"; "libwww"; "lwp"; "scanner"; "bot"; "crawler"]%string.

Record PatternCheckResult := {
  suspicious : bool;
  reason : option string
}.

Definition detectSuspiciousPatterns (env : Env) (request : NextRequest)
    (ip0 userAgent0 : string) : Gate PatternCheckResult :=
  step env PatternCheck ;;;
  let lowerAgent := toLowerCase userAgent0 in
  if existsb (fun agent => includes lowerAgent agent) suspiciousAgents then
    ret {| suspicious := true; reason := Some "Suspicious user agent"%string |}
  else
    let* s := get in
    let currentCount := default 0 (requestCounts s !! ip0) in
    modify (fun s =>
      {| config := config s; activeRequests := activeRequests s;
         suspiciousIPs := suspiciousIPs s;
         requestCounts := <[ip0 := currentCount + 1]> (requestCounts s);
         timers := timers s; limiter := limiter s |}) ;;;
    setTimeout (DecrementRequestCount ip0) 60000 ;;;
    if currentCount >? 20 then
      ret {| suspicious := true; reason := Some "High request frequency"%string |}
    else
      let contentType := headers_get request "content-type" in
      if truthyS contentType && includes (default "" contentType) "../../" then
        ret {| suspicious := true;
               reason := Some "Malformed content-type header"%string |}
      else
        let path0 := pathname request in
        if includes path0 "../" || includes path0 "..\" then
          ret {| suspicious := true;
                 reason := Some "Path traversal attempt"%string |}
        else ret {| suspicious := false; reason := None |}.

Definition markIPSuspicious (ip0 : string) : Gate unit :=
  modify (fun s =>
    {| config := config s; activeRequests := activeRequests s;
       suspiciousIPs := {[ip0]} ∪ suspiciousIPs s;
       requestCounts := requestCounts s;
       timers := timers s; limiter := limiter s |}) ;;;
  setTimeout (UnmarkSuspicious ip0) (30 * 60 * 1000).

Definition plain (text : string) (code : Z) (hs : list (string * string))
    : NextResponse :=
  {| status := code; responseHeaders := hs; body := Text text |}.

(** The [try] block of [protect]. *)
Definition guarded (env : Env) (request : NextRequest)
    (ip0 userAgent0 path0 requestId : string) : Gate (option NextResponse) :=
  let* s := get in
  if bool_decide (ip0 ∈ suspiciousIPs s) then
    ret (Some (plain "Request blocked" 429 []))
  else
    let* sizeCheck := checkRequestSize env request in
    if negb (allowed sizeCheck) then
      ret (Some (plain "Request too large" 413 []))
    else
      let* concurrentCheck := checkConcurrentRequests env ip0 in
      if negb concurrentCheck then
        ret (Some (plain "Too many concurrent requests" 429 []))
      else
        let* rateLimitCheck := checkRateLimit env request ip0 in
        if negb (rlAllowed rateLimitCheck) then
          ret (Some (plain "Rate limit exceeded" 429
                 [("Retry-After"%string,
                   toString (ceilDiv (retryAfter rateLimitCheck) 1000));
                  ("X-RateLimit-Remaining"%string,
                   toString (remaining rateLimitCheck))]))
        else
          let track : Gate (option NextResponse) :=
            step env Tracking ;;;
            let* s := get in
            modify (fun s =>
              {| config := config s;
                 activeRequests :=
                   <[requestId := {| startTime := clock env 4;
                                     size := checkedSize sizeCheck;
                                     ip := ip0; userAgent := userAgent0;
                                     path := path0 |}]> (activeRequests s);
                 suspiciousIPs := suspiciousIPs s;
                 requestCounts := requestCounts s;
                 timers := timers s; limiter := limiter s |}) ;;;
            setTimeout (DeleteActiveRequest requestId) (requestTimeout (config s)) ;;;
            ret None in
          if suspiciousPatternDetection (config s) then
            let* suspiciousCheck :=
              detectSuspiciousPatterns env request ip0 userAgent0 in
            if suspicious suspiciousCheck then
              markIPSuspicious ip0 ;;;
              ret (Some (plain "Request blocked" 429 []))
            else track
          else track.

(** [protect(request)]: [None] lets the request proceed. *)
Definition protect (env : Env) (request : NextRequest)
    : Gate (option NextResponse) :=
  let* s := get in
  if negb (enabled (config s)) then ret None
  else
    let ip0 := getClientIP request in
    let userAgent0 := orElse (headers_get request "user-agent") "unknown" in
    let path0 := pathname request in
    let requestId :=
      ip0 +:+ "-" +:+ toString (clock env 0) +:+ "-" +:+ random env 0 in
    tryCatch (guarded env request ip0 userAgent0 path0 requestId)
             (fun _ => ret None).

(** [cleanupStaleRequests()] at clock reading [now]. *)
Definition cleanupStaleRequests (now : Z) : Gate unit :=
  modify (fun s =>
    {| config := config s;
       activeRequests :=
         filter (fun kv => (now - startTime (snd kv) >? requestTimeout (config s))
                           = false)
                (activeRequests s);
       suspiciousIPs := suspiciousIPs s; requestCounts := requestCounts s;
       timers := timers s; limiter := limiter s |}).

(** The callback of a timer, when it fires. *)
Definition fire (action : TimerAction) : Gate unit :=
  modify (fun s =>
    match action with
    | DeleteActiveRequest requestId =>
        {| config := config s;
           activeRequests := delete requestId (activeRequests s);
           suspiciousIPs := suspiciousIPs s; requestCounts := requestCounts s;
           timers := timers s; limiter := limiter s |}
    | DecrementRequestCount ip0 =>
        let count := default 0 (requestCounts s !! ip0) in
        if count >? 0 then
          {| config := config s; activeRequests := activeRequests s;
             suspiciousIPs := suspiciousIPs s;
             requestCounts := <[ip0 := count - 1]> (requestCounts s);
             timers := timers s; limiter := limiter s |}
        else s
    | UnmarkSuspicious ip0 =>
        {| config := config s; activeRequests := activeRequests s;
           suspiciousIPs := suspiciousIPs s ∖ {[ip0]};
           requestCounts := requestCounts s;
           timers := timers s; limiter := limiter s |}
    end).

(** [withDoSProtection(request, handler)]: the handler has a state of its
    own and may raise. *)
Definition withDoSProtection {H : Type} (env : Env) (request : NextRequest)
    (handler : NextRequest -> H -> Outcome NextResponse * H)
    (s : Service) (h : H) : Outcome NextResponse * Service * H :=
  match protect env request s with
  | (Returned (Some protectionResult), s') => (Returned protectionResult, s', h)
  | (Returned None, s') =>
      match handler request h with
      | (Returned response, h') => (Returned response, s', h')
      | (Raised _, h') => (Returned (plain "Internal server error" 500 []), s', h')
      end
  | (Raised e, s') => (Raised e, s', h)
  end.

End DosProtection.

(** ** src/lib/csrf.ts: the Origin/Referer validator *)

Module Csrf.
Import JS Next.

(** What the code reads of a [URL] object. *)
Record URL := {
  protocol : string;
  host : string
}.

(** [list.includes(s)] on an array of strings. *)
Definition member (s : string) (l : list string) : bool :=
  existsb (String.eqb s) l.

(** [getAllowedOrigins()], run with the given value of
    [process.env.ALLOWED_ORIGINS]. *)
Definition getAllowedOrigins (ALLOWED_ORIGINS : option string) : list string :=
  if truthyS ALLOWED_ORIGINS
  then map trim (split ","%char (default "" ALLOWED_ORIGINS))
  else ["http://localhost:3000"; "http://127.0.0.1:3000";
        "https://localhost:3000"]%string.

Section Validator.

(** [new URL(s)] is the runtime's parser: an input of the model.  [None]
    stands for the [TypeError] it throws on a string that is not a URL. *)
Variable newURL : string -> option URL.
Variable ALLOWED_ORIGINS : option string.

Definition validateCSRF (request : NextRequest) : bool :=
  let allowedOrigins := getAllowedOrigins ALLOWED_ORIGINS in
  let origin := headers_get request "origin" in
  let referer := headers_get request "referer" in
  if truthyS origin then member (default "" origin) allowedOrigins
  else if truthyS referer then
    match newURL (default "" referer) with
    | Some refererUrl =>
        let refererOrigin := protocol refererUrl +:+ "//" +:+ host refererUrl in
        member refererOrigin allowedOrigins
    | None => false
    end
  else false.

(** [csrfProtection(request)]: [None] lets the request proceed. *)
Definition csrfProtection (request : NextRequest) : option NextResponse :=
  let method0 := toUpperCase (method request) in
  if negb (member method0 ["POST"; "PUT"; "DELETE"; "PATCH"]%string) then None
  else if negb (validateCSRF request) then
    Some {| status := 403;
            responseHeaders := [];
            body := Json [("error"%string,
                           "CSRF validation failed. Request rejected for security reasons."%string);
                          ("code"%string, "CSRF_VALIDATION_FAILED"%string)] |}
  else None.

End Validator.

End Csrf.

(** ** Sequences of calls *)

Module Trace.

(** [calls f inputs s]: the calls [f i] for the inputs [i] in order,
    threading the store; the results, in order, and the final store. *)
Fixpoint calls {I R S : Type} (f : I -> S -> R * S) (inputs : list I) (s : S)
    : list R * S :=
  match inputs with
  | [] => ([], s)
  | i :: inputs' =>
      let '(r, s') := f i s in
      let '(rs, s'') := calls f inputs' s' in
      (r :: rs, s'')
  end.

(** A string without [':']. *)
Fixpoint colonFree (s : string) : bool :=
  match s with
  | EmptyString => true
  | String c s' => negb (Ascii.eqb c ":") && colonFree s'
  end.

(** A rule object of rateLimit.ts passed where redisRateLimit.ts expects
    its own [RateLimitRule]: the extra field is ignored. *)
Definition asRedisRule (r : RateLimit.RateLimitRule) : RedisRateLimit.RateLimitRule :=
  {| RedisRateLimit.windowMs := RateLimit.windowMs r;
     RedisRateLimit.maxRequests := RateLimit.maxRequests r |}.

(** One call of [rateLimitMiddleware]: its two clock readings and its
    arguments. *)
Record MiddlewareCall := {
  mcNow : Z;
  mcNow' : Z;
  mcRule : RateLimit.RuleName;
  mcIdentifier : string;
  mcType : RateLimit.LimitType
}.

Definition middleware (c : MiddlewareCall) :=
  RateLimit.rateLimitMiddleware (mcNow c) (mcNow' c) (mcRule c)
    (mcIdentifier c) (mcType c).

(** One call of [redisRateLimiter.checkRateLimit]: the state of the store
    connection, the clock readings, the random value and the arguments. *)
Record LimiterCall := {
  lcInfra : RedisRateLimit.Infra;
  lcNow : Z;
  lcNowMem : Z;
  lcRandom : string;
  lcIdentifier : string;
  lcRule : RedisRateLimit.RateLimitRule;
  lcPrefix : string
}.

Definition limiterCall (c : LimiterCall) :=
  RedisRateLimit.checkRateLimit (lcInfra c) (lcNow c) (lcNowMem c)
    (lcRandom c) (lcIdentifier c) (lcRule c) (lcPrefix c).

(** The entry of a key after [k] calls of a window that started at [t1]:
    up to the limit the calls are counted one by one and no block is set;
    past the limit the count stays above it. *)
Definition inWindow (rule : RateLimit.RateLimitRule) (t1 k : Z)
    (e : RateLimit.RateLimitEntry) : Prop :=
  RateLimit.windowStart e = t1 /\
  (k <= RateLimit.maxRequests rule ->
   RateLimit.count e = k /\ RateLimit.blockedUntil e = None) /\
  (RateLimit.maxRequests rule < k ->
   RateLimit.maxRequests rule < RateLimit.count e).

(** One call of [authorize] with both credentials given: the two clock
    readings, the e-mail address and the password. *)
Record Attempt := {
  atNowLocked : Z;
  atNowFailed : Z;
  atEmail : string;
  atPassword : string
}.

Definition attempt (findUnique : string -> option Auth.User)
    (compare : string -> string -> bool) (a : Attempt) :=
  Auth.authorize findUnique compare (atNowLocked a) (atNowFailed a)
    (Some {| Auth.email := Some (atEmail a); Auth.password := Some (atPassword a) |}).

End Trace.

(** * Properties *)

Import JS Next Trace.

(** ** The in-process limiter, one call at a time *)

Section IsRateLimited.
Import RateLimit.
Variables (now : Z) (key : string) (rule : RateLimitRule).
Variable store : gmap string RateLimitEntry.

Lemma isRateLimited_fresh :
  store !! key = None ->
  isRateLimited now key rule store =
    ({| limited := false; resetTime := None;
        remaining := Some (maxRequests rule - 1) |},
     <[key := {| count := 1; windowStart := now; blockedUntil := None |}]> store).
Proof. intros H. unfold isRateLimited. now rewrite H. Qed.

Lemma isRateLimited_counted (e : RateLimitEntry) :
  store !! key = Some e ->
  blockedUntil e = None ->
  now - windowStart e <= windowMs rule ->
  count e + 1 <= maxRequests rule ->
  isRateLimited now key rule store =
    ({| limited := false; resetTime := None;
        remaining := Some (maxRequests rule - (count e + 1)) |},
     <[key := {| count := count e + 1; windowStart := windowStart e;
                 blockedUntil := None |}]> store).
Proof.
  intros H Hb Hw Hc. unfold isRateLimited. rewrite H, Hb. simpl.
  destruct (Z.gtb_spec (now - windowStart e) (windowMs rule)); [lia|].
  destruct (Z.gtb_spec (count e + 1) (maxRequests rule)); [lia|].
  reflexivity.
Qed.

Lemma isRateLimited_exceeded (e : RateLimitEntry) :
  store !! key = Some e ->
  blockedUntil e = None ->
  now - windowStart e <= windowMs rule ->
  maxRequests rule < count e + 1 ->
  let blockedUntil' :=
    if truthyZ (blockDurationMs rule)
    then Some (now + default 0 (blockDurationMs rule)) else None in
  isRateLimited now key rule store =
    ({| limited := true;
        resetTime := if truthyZ blockedUntil' then blockedUntil'
                     else Some (windowStart e + windowMs rule);
        remaining := None |},
     <[key := {| count := count e + 1; windowStart := windowStart e;
                 blockedUntil := blockedUntil' |}]> store).
Proof.
  intros H Hb Hw Hc. unfold isRateLimited. rewrite H, Hb. simpl.
  destruct (Z.gtb_spec (now - windowStart e) (windowMs rule)); [lia|].
  destruct (Z.gtb_spec (count e + 1) (maxRequests rule)); [|lia].
  reflexivity.
Qed.

(** A call touches the entry of its own key only. *)
Lemma isRateLimited_frame (other : string) :
  other <> key ->
  snd (isRateLimited now key rule store) !! other = store !! other.
Proof.
  intros Hne. unfold isRateLimited.
  destruct (store !! key) as [e|]; simpl;
    repeat (match goal with |- context [if ?b then _ else _] => destruct b end;
            simpl);
    try reflexivity; now apply lookup_insert_ne.
Qed.

(** The decision of a call depends on the entry of its key only. *)
Lemma isRateLimited_local (store' : gmap string RateLimitEntry) :
  store' !! key = store !! key ->
  fst (isRateLimited now key rule store') = fst (isRateLimited now key rule store).
Proof.
  intros H. unfold isRateLimited. rewrite H.
  destruct (store !! key) as [e|]; simpl;
    repeat (match goal with |- context [if ?b then _ else _] => destruct b end;
            simpl);
    reflexivity.
Qed.

End IsRateLimited.

(** ** The in-memory fallback of the Redis limiter, one call at a time *)

Section CheckRateLimitMemory.
Import RedisRateLimit.
Variables (now : Z) (identifier : string) (rule : RateLimitRule) (prefix : string).
Variable store : gmap string FallbackRecord.

Lemma checkRateLimitMemory_fresh :
  store !! rateLimitKey prefix identifier = None ->
  checkRateLimitMemory now identifier rule prefix store =
    ({| success := true; totalCount := 1;
        remainingRequests := maxRequests rule - 1;
        resetTime := now + windowMs rule |},
     <[rateLimitKey prefix identifier :=
         {| count := 1; recordResetTime := now + windowMs rule |}]> store).
Proof. intros H. unfold checkRateLimitMemory. now rewrite H. Qed.

Lemma checkRateLimitMemory_counted (r : FallbackRecord) :
  store !! rateLimitKey prefix identifier = Some r ->
  now <= recordResetTime r ->
  checkRateLimitMemory now identifier rule prefix store =
    ({| success := count r + 1 <=? maxRequests rule;
        totalCount := count r + 1;
        remainingRequests := Z.max 0 (maxRequests rule - (count r + 1));
        resetTime := recordResetTime r |},
     <[rateLimitKey prefix identifier :=
         {| count := count r + 1; recordResetTime := recordResetTime r |}]> store).
Proof.
  intros H Hw. unfold checkRateLimitMemory. rewrite H.
  destruct (Z.gtb_spec now (recordResetTime r)); [lia|]. reflexivity.
Qed.

Lemma checkRateLimitMemory_frame (other : string) :
  other <> rateLimitKey prefix identifier ->
  snd (checkRateLimitMemory now identifier rule prefix store) !! other =
    store !! other.
Proof.
  intros Hne. unfold checkRateLimitMemory.
  destruct (store !! rateLimitKey prefix identifier) as [r|]; simpl;
    [destruct (now >? recordResetTime r); simpl|];
    now apply lookup_insert_ne.
Qed.

Lemma checkRateLimitMemory_local (store' : gmap string FallbackRecord) :
  store' !! rateLimitKey prefix identifier =
    store !! rateLimitKey prefix identifier ->
  fst (checkRateLimitMemory now identifier rule prefix store') =
    fst (checkRateLimitMemory now identifier rule prefix store).
Proof.
  intros H. unfold checkRateLimitMemory. rewrite H.
  destruct (store !! rateLimitKey prefix identifier) as [r|]; simpl;
    [destruct (now >? recordResetTime r); simpl|]; reflexivity.
Qed.

End CheckRateLimitMemory.

(** ** Window correctness *)

(** C2. For a fresh key and a rule with [windowMs = 60000] and
    [maxRequests = 3], four calls within the same window answer as follows,
    in [isRateLimited] of rateLimit.ts and in [checkRateLimitMemory] of
    redisRateLimit.ts alike: the first three are allowed with 2, 1 and 0
    requests remaining, the fourth is refused; the refused request has been
    counted (the stored count is 4). *)
Theorem C2_window_correctness :
  forall (key identifier prefix : string)
         (rule : RateLimit.RateLimitRule) (rule' : RedisRateLimit.RateLimitRule)
         (store : gmap string RateLimit.RateLimitEntry)
         (store' : gmap string RedisRateLimit.FallbackRecord)
         (t1 t2 t3 t4 : Z),
    RateLimit.windowMs rule = 60000 -> RateLimit.maxRequests rule = 3 ->
    RedisRateLimit.windowMs rule' = 60000 -> RedisRateLimit.maxRequests rule' = 3 ->
    store !! key = None ->
    store' !! RedisRateLimit.rateLimitKey prefix identifier = None ->
    t2 - t1 <= 60000 -> t3 - t1 <= 60000 -> t4 - t1 <= 60000 ->
    (let '(rs, final) :=
       calls (fun now => RateLimit.isRateLimited now key rule) [t1; t2; t3; t4] store in
     map RateLimit.limited rs = [false; false; false; true] /\
     map RateLimit.remaining (take 3 rs) = [Some 2; Some 1; Some 0] /\
     RateLimit.count <$> final !! key = Some 4) /\
    (let '(rs, final) :=
       calls (fun now => RedisRateLimit.checkRateLimitMemory now identifier rule' prefix)
             [t1; t2; t3; t4] store' in
     map RedisRateLimit.success rs = [true; true; true; false] /\
     map RedisRateLimit.remainingRequests (take 3 rs) = [2; 1; 0] /\
     map RedisRateLimit.totalCount rs = [1; 2; 3; 4] /\
     RedisRateLimit.count <$> final !! RedisRateLimit.rateLimitKey prefix identifier
       = Some 4).
Proof.
  intros key identifier prefix rule rule' store store' t1 t2 t3 t4
         Hw Hm Hw' Hm' Hfresh Hfresh' H2 H3 H4.
  split.
  - cbn [calls].
    rewrite isRateLimited_fresh by assumption.
    erewrite isRateLimited_counted;
      [| apply lookup_insert_eq | reflexivity | simpl; lia | simpl; lia].
    erewrite isRateLimited_counted;
      [| apply lookup_insert_eq | reflexivity | simpl; lia | simpl; lia].
    erewrite isRateLimited_exceeded;
      [| apply lookup_insert_eq | reflexivity | simpl; lia | simpl; lia].
    cbn. rewrite Hm, lookup_insert_eq. repeat split; reflexivity.
  - cbn [calls].
    rewrite checkRateLimitMemory_fresh by assumption.
    erewrite checkRateLimitMemory_counted; [| apply lookup_insert_eq | simpl; lia].
    erewrite checkRateLimitMemory_counted; [| apply lookup_insert_eq | simpl; lia].
    erewrite checkRateLimitMemory_counted; [| apply lookup_insert_eq | simpl; lia].
    cbn. rewrite Hm', lookup_insert_eq. repeat split; reflexivity.
Qed.

Lemma C2_window_correctness_witness :
  let rule := {| RateLimit.windowMs := 60000; RateLimit.maxRequests := 3;
                 RateLimit.blockDurationMs := Some 300000 |} in
  let rule' := {| RedisRateLimit.windowMs := 60000; RedisRateLimit.maxRequests := 3 |} in
  map RateLimit.limited
    (fst (calls (fun now => RateLimit.isRateLimited now "test-key-3" rule)
            [1000; 2000; 3000; 61000] ∅))
    = [false; false; false; true] /\
  map RedisRateLimit.success
    (fst (calls (fun now => RedisRateLimit.checkRateLimitMemory now "9.9.9.9" rule' "rl")
            [1000; 2000; 3000; 61000] ∅))
    = [true; true; true; false].
Proof.
  intros rule rule'.
  pose proof (C2_window_correctness "test-key-3" "9.9.9.9" "rl" rule rule' ∅ ∅
                1000 2000 3000 61000
                eq_refl eq_refl eq_refl eq_refl
                (lookup_empty _) (lookup_empty _)
                ltac:(lia) ltac:(lia) ltac:(lia)) as [HA HB].
  destruct (calls (fun now => RateLimit.isRateLimited now "test-key-3" rule) _ _).
  destruct (calls (fun now => RedisRateLimit.checkRateLimitMemory now "9.9.9.9" rule' "rl") _ _).
  split; [apply HA | apply HB].
Defined.

(** ** Account lockout *)

Section RecordFailedLogin.
Import RateLimit.
Variables (now : Z) (email : string).
Variable store : gmap string AccountLockoutEntry.

(** A failure recorded over [n] earlier ones that are still counted. *)
Lemma recordFailedLogin_counted (n : Z) :
  (failedAttempts <$> store !! email = Some n /\
   (now - default 0 (lastFailure <$> store !! email) <= failureWindowMs \/ n = 0))
  \/ (store !! email = None /\ n = 0) ->
  n + 1 < maxFailedAttempts ->
  exists e,
    recordFailedLogin now email store =
      ({| locked := false; lockedUntilResult := None;
          attemptsRemaining := Some (maxFailedAttempts - (n + 1)) |},
       <[email := e]> store) /\
    failedAttempts e = n + 1 /\ lastFailure e = now.
Proof.
  intros H Hn. unfold recordFailedLogin.
  destruct (store !! email) as [e|] eqn:He; simpl in *.
  - destruct H as [[Hf Hw]|[? _]]; [|discriminate].
    injection Hf as Hf. subst n.
    destruct (Z.gtb_spec (now - lastFailure e) failureWindowMs).
    + assert (Hz : failedAttempts e = 0) by lia. rewrite Hz. simpl.
      eexists. split; [reflexivity | split; reflexivity].
    + destruct (Z.geb_spec (failedAttempts e + 1) maxFailedAttempts); [lia|].
      eexists. split; [reflexivity | split; reflexivity].
  - destruct H as [[Hf _]|[_ Hz]]; [discriminate|]. subst n.
    destruct (now - 0 >? failureWindowMs); simpl;
      eexists; (split; [reflexivity | split; reflexivity]).
Qed.

(** The failure that reaches the threshold locks the account. *)
Lemma recordFailedLogin_locks (e : AccountLockoutEntry) :
  store !! email = Some e ->
  now - lastFailure e <= failureWindowMs ->
  maxFailedAttempts <= failedAttempts e + 1 ->
  recordFailedLogin now email store =
    ({| locked := true; lockedUntilResult := Some (now + lockoutDurationMs);
        attemptsRemaining := None |},
     <[email := {| failedAttempts := failedAttempts e + 1; lastFailure := now;
                   lockedUntil := Some (now + lockoutDurationMs) |}]> store).
Proof.
  intros He Hw Hn. unfold recordFailedLogin. rewrite He. simpl.
  destruct (Z.gtb_spec (now - lastFailure e) failureWindowMs); [lia|].
  destruct (Z.geb_spec (failedAttempts e + 1) maxFailedAttempts); [|lia].
  reflexivity.
Qed.

(** After [clearFailedLogins] an identity has no recorded failures. *)
Lemma clearFailedLogins_no_failures :
  default 0 (failedAttempts <$> clearFailedLogins email store !! email) = 0.
Proof.
  unfold clearFailedLogins.
  destruct (store !! email) as [e|] eqn:He.
  - now rewrite lookup_insert_eq.
  - now rewrite He.
Qed.

End RecordFailedLogin.

(** C4, as amended.  For an identity with no recorded failures, five calls
    of [recordFailedLogin], each made within [failureWindowMs] of the one
    before it, answer: not locked with 4, 3, 2 and 1 attempts remaining,
    then locked, with [lockedUntil] set to the time of the fifth call plus
    [lockoutDurationMs]. *)
Theorem C4_lockout_threshold :
  forall (email : string) (store : gmap string RateLimit.AccountLockoutEntry)
         (t1 t2 t3 t4 t5 : Z),
    default 0 (RateLimit.failedAttempts <$> store !! email) = 0 ->
    t2 - t1 <= RateLimit.failureWindowMs ->
    t3 - t2 <= RateLimit.failureWindowMs ->
    t4 - t3 <= RateLimit.failureWindowMs ->
    t5 - t4 <= RateLimit.failureWindowMs ->
    let rs := fst (calls (fun now => RateLimit.recordFailedLogin now email)
                     [t1; t2; t3; t4; t5] store) in
    map RateLimit.locked rs = [false; false; false; false; true] /\
    map RateLimit.attemptsRemaining rs = [Some 4; Some 3; Some 2; Some 1; None] /\
    map RateLimit.lockedUntilResult rs =
      [None; None; None; None; Some (t5 + RateLimit.lockoutDurationMs)].
Proof.
  intros email store t1 t2 t3 t4 t5 H0 H2 H3 H4 H5.
  cbn [calls].
  destruct (recordFailedLogin_counted t1 email store 0) as (e1 & -> & Hf1 & Hl1).
  { destruct (store !! email) as [e|]; simpl in *; [left|right]; auto.
    split; [now f_equal | now right]. }
  { unfold RateLimit.maxFailedAttempts. lia. }
  destruct (recordFailedLogin_counted t2 email (<[email := e1]> store) 1)
    as (e2 & -> & Hf2 & Hl2).
  { left. rewrite lookup_insert_eq. simpl. rewrite Hf1, Hl1. split; auto. }
  { unfold RateLimit.maxFailedAttempts. lia. }
  destruct (recordFailedLogin_counted t3 email (<[email := e2]> (<[email := e1]> store)) 2)
    as (e3 & -> & Hf3 & Hl3).
  { left. rewrite lookup_insert_eq. simpl. rewrite Hf2, Hl2. split; auto. }
  { unfold RateLimit.maxFailedAttempts. lia. }
  destruct (recordFailedLogin_counted t4 email
              (<[email := e3]> (<[email := e2]> (<[email := e1]> store))) 3)
    as (e4 & -> & Hf4 & Hl4).
  { left. rewrite lookup_insert_eq. simpl. rewrite Hf3, Hl3. split; auto. }
  { unfold RateLimit.maxFailedAttempts. lia. }
  rewrite (recordFailedLogin_locks t5 email _ e4);
    [| apply lookup_insert_eq | lia | unfold RateLimit.maxFailedAttempts; lia].
  cbn. repeat split; reflexivity.
Qed.

Lemma C4_lockout_threshold_witness :
  map RateLimit.attemptsRemaining
    (fst (calls (fun now => RateLimit.recordFailedLogin now "test@example.com")
            [1762128000000; 1762128001000; 1762128002000; 1762128003000;
             1762128004000] ∅))
    = [Some 4; Some 3; Some 2; Some 1; None].
Proof.
  apply (C4_lockout_threshold "test@example.com" ∅
           1762128000000 1762128001000 1762128002000 1762128003000 1762128004000);
    [rewrite lookup_empty; reflexivity | unfold RateLimit.failureWindowMs; lia ..].
Defined.

(** C4 as stated fails: nothing in it keeps the calls within the failure
    window, and a second failure 16 minutes after the first is counted from
    zero again, so that 4 attempts remain, not 3. *)
Lemma C4_counterexample :
  map RateLimit.attemptsRemaining
    (fst (calls (fun now => RateLimit.recordFailedLogin now "test@example.com")
            [1762128000000; 1762128000000 + 16 * 60 * 1000] ∅))
    = [Some 4; Some 4].
Proof. vm_compute. reflexivity. Qed.

(** C5. When the lock of an identity has expired ([now >= lockedUntil]),
    [isAccountLocked] answers not locked and clears the stale lock
    ([failedAttempts] back to 0, [lockedUntil] unset); the next
    [recordFailedLogin], whenever it comes, counts from 1 and leaves
    [maxFailedAttempts - 1] attempts. *)
Theorem C5_lockout_expiry :
  forall (email : string) (store : gmap string RateLimit.AccountLockoutEntry)
         (e : RateLimit.AccountLockoutEntry) (until now now' : Z),
    store !! email = Some e ->
    RateLimit.lockedUntil e = Some until ->
    until <> 0 ->
    until <= now ->
    let '(status, store1) := RateLimit.isAccountLocked now email store in
    let '(result, store2) := RateLimit.recordFailedLogin now' email store1 in
    RateLimit.isLocked status = false /\
    store1 !! email =
      Some {| RateLimit.failedAttempts := 0;
              RateLimit.lastFailure := RateLimit.lastFailure e;
              RateLimit.lockedUntil := None |} /\
    RateLimit.locked result = false /\
    RateLimit.attemptsRemaining result = Some (RateLimit.maxFailedAttempts - 1) /\
    RateLimit.failedAttempts <$> store2 !! email = Some 1.
Proof.
  intros email store e until now now' He Hu Hnz Hle.
  unfold RateLimit.isAccountLocked. rewrite He, Hu. simpl.
  destruct (Z.eqb_spec until 0); [contradiction|]. simpl.
  destruct (Z.geb_spec now until); [|lia].
  destruct (recordFailedLogin_counted now' email
              (<[email := {| RateLimit.failedAttempts := 0;
                             RateLimit.lastFailure := RateLimit.lastFailure e;
                             RateLimit.lockedUntil := None |}]> store) 0)
    as (e' & -> & Hf & _).
  { left. rewrite lookup_insert_eq. simpl. split; auto. }
  { unfold RateLimit.maxFailedAttempts. lia. }
  rewrite !lookup_insert_eq. simpl. rewrite Hf. repeat split; reflexivity.
Qed.

Lemma C5_lockout_expiry_witness :
  let store : gmap string RateLimit.AccountLockoutEntry :=
    {[ "test@example.com"%string :=
         {| RateLimit.failedAttempts := 5; RateLimit.lastFailure := 1762128000000;
            RateLimit.lockedUntil := Some 1762129800000 |} ]} in
  let '(status, store1) :=
    RateLimit.isAccountLocked 1762129860000 "test@example.com" store in
  let '(result, store2) :=
    RateLimit.recordFailedLogin 1762129861000 "test@example.com" store1 in
  RateLimit.isLocked status = false /\
  RateLimit.attemptsRemaining result = Some 4.
Proof.
  intros store.
  pose proof (C5_lockout_expiry "test@example.com" store _ 1762129800000
                1762129860000 1762129861000
                (lookup_singleton_eq _ _) eq_refl ltac:(lia) ltac:(lia)) as H.
  destruct (RateLimit.isAccountLocked _ _ _) as [status store1].
  destruct (RateLimit.recordFailedLogin _ _ _) as [result store2].
  destruct H as (H1 & _ & _ & H4 & _). split; [exact H1 | exact H4].
Defined.

(** ** Keys and independent state *)

(** A key is split unambiguously at the first [':'] after a colon-free
    first component. *)
Lemma colonFree_key_inj (a a' b b' : string) :
  colonFree a = true -> colonFree a' = true ->
  a +:+ ":" +:+ b = a' +:+ ":" +:+ b' -> a = a' /\ b = b'.
Proof.
  revert a'. induction a as [|c a IH]; intros [|c' a'] Ha Ha' H; cbn in *.
  - injection H as H. now split.
  - injection H as Hc _. subst c'. discriminate.
  - injection H as Hc _. subst c. discriminate.
  - injection H as Hc H. subst c'.
    apply andb_prop in Ha as [_ Ha]. apply andb_prop in Ha' as [_ Ha'].
    destruct (IH a' Ha Ha' H) as [Hx Hy]. subst. now split.
Qed.

Lemma ruleNameString_colonFree (r : RateLimit.RuleName) :
  colonFree (RateLimit.ruleNameString r) = true.
Proof. now destruct r. Qed.

Lemma ruleNameString_inj (r r' : RateLimit.RuleName) :
  RateLimit.ruleNameString r = RateLimit.ruleNameString r' -> r = r'.
Proof. destruct r, r'; simpl; intros H; try reflexivity; discriminate. Qed.

(** The keys of [rateLimitMiddleware] determine type, rule and identifier. *)
Lemma getRateLimitKey_inj (ty ty' : RateLimit.LimitType)
    (r r' : RateLimit.RuleName) (id id' : string) :
  RateLimit.getRateLimitKey ty id (RateLimit.ruleNameString r) =
    RateLimit.getRateLimitKey ty' id' (RateLimit.ruleNameString r') ->
  ty = ty' /\ r = r' /\ id = id'.
Proof.
  unfold RateLimit.getRateLimitKey. intros H.
  apply colonFree_key_inj in H as [Ht H]; [| now destruct ty | now destruct ty'].
  apply colonFree_key_inj in H as [Hr Hi]; auto using ruleNameString_colonFree.
  apply ruleNameString_inj in Hr.
  repeat split; auto. destruct ty, ty'; simpl in Ht; try reflexivity; discriminate.
Qed.

Lemma rateLimitMiddleware_frame (c : MiddlewareCall) (other : string)
    (store : gmap string RateLimit.RateLimitEntry) :
  other <> RateLimit.getRateLimitKey (mcType c) (mcIdentifier c)
             (RateLimit.ruleNameString (mcRule c)) ->
  snd (middleware c store) !! other = store !! other.
Proof.
  intros Hne. unfold middleware, RateLimit.rateLimitMiddleware.
  pose proof (isRateLimited_frame (mcNow c) _ (RateLimit.RATE_LIMIT_RULES (mcRule c))
                store other Hne) as H.
  destruct (RateLimit.isRateLimited _ _ _ _) as [result store'].
  destruct (RateLimit.limited result); exact H.
Qed.

Lemma rateLimitMiddleware_local (c : MiddlewareCall)
    (store store' : gmap string RateLimit.RateLimitEntry) :
  let key := RateLimit.getRateLimitKey (mcType c) (mcIdentifier c)
               (RateLimit.ruleNameString (mcRule c)) in
  store' !! key = store !! key ->
  fst (middleware c store') = fst (middleware c store) /\
  snd (middleware c store') !! key = snd (middleware c store) !! key.
Proof.
  intros key H. unfold middleware, RateLimit.rateLimitMiddleware. fold key.
  pose proof (isRateLimited_local (mcNow c) key
                (RateLimit.RATE_LIMIT_RULES (mcRule c)) store store' H) as Hres.
  assert (Hst : snd (RateLimit.isRateLimited (mcNow c) key
                       (RateLimit.RATE_LIMIT_RULES (mcRule c)) store') !! key =
                snd (RateLimit.isRateLimited (mcNow c) key
                       (RateLimit.RATE_LIMIT_RULES (mcRule c)) store) !! key).
  { unfold RateLimit.isRateLimited. rewrite H.
    destruct (store !! key) as [e|] eqn:He; simpl;
      repeat (match goal with |- context [if ?b then _ else _] => destruct b end;
              simpl);
      rewrite ?lookup_insert_eq; congruence. }
  destruct (RateLimit.isRateLimited _ _ _ store') as [r1 s1].
  destruct (RateLimit.isRateLimited _ _ _ store) as [r2 s2].
  simpl in Hres, Hst. subst r2.
  destruct (RateLimit.limited r1); simpl; auto.
Qed.

Lemma calls_middleware_frame (cs : list MiddlewareCall) (other : string)
    (store : gmap string RateLimit.RateLimitEntry) :
  Forall (fun c => RateLimit.getRateLimitKey (mcType c) (mcIdentifier c)
                     (RateLimit.ruleNameString (mcRule c)) <> other) cs ->
  snd (calls middleware cs store) !! other = store !! other.
Proof.
  revert store. induction cs as [|c cs IH]; intros store Hall; [reflexivity|].
  apply Forall_cons in Hall as [Hc Hall]. cbn [calls].
  pose proof (rateLimitMiddleware_frame c other store (not_eq_sym Hc)) as Hf.
  destruct (middleware c store) as [r s']. specialize (IH s' Hall).
  destruct (calls middleware cs s') as [rs s'']. simpl in *. congruence.
Qed.

Section LimiterFrame.
Import RedisRateLimit.
Variable c : LimiterCall.

Lemma checkRateLimit_frame (other : string) (l : Limiter) :
  other <> rateLimitKey (lcPrefix c) (lcIdentifier c) ->
  fallbackStore (snd (limiterCall c l)) !! other = fallbackStore l !! other /\
  (fun srv => srv !! other) <$> redis (snd (limiterCall c l)) =
    (fun srv => srv !! other) <$> redis l.
Proof.
  intros Hne. unfold limiterCall, checkRateLimit.
  pose proof (checkRateLimitMemory_frame (lcNowMem c) (lcIdentifier c) (lcRule c)
                (lcPrefix c) (fallbackStore l) other Hne) as Hm.
  destruct (redis l) as [srv|]; simpl.
  - unfold pipeline. destruct (lcInfra c); simpl.
    + split; [reflexivity|]. f_equal. now apply lookup_insert_ne.
    + destruct (checkRateLimitMemory _ _ _ _ _); simpl in *. now split.
    + destruct (checkRateLimitMemory _ _ _ _ _); simpl in *. now split.
  - destruct (checkRateLimitMemory _ _ _ _ _); simpl in *. now split.
Qed.

Lemma checkRateLimit_local (l l' : Limiter) :
  let key := rateLimitKey (lcPrefix c) (lcIdentifier c) in
  fallbackStore l' !! key = fallbackStore l !! key ->
  (fun srv => srv !! key) <$> redis l' = (fun srv => srv !! key) <$> redis l ->
  fst (limiterCall c l') = fst (limiterCall c l).
Proof.
  intros key Hf Hr. unfold limiterCall, checkRateLimit.
  pose proof (checkRateLimitMemory_local (lcNowMem c) (lcIdentifier c) (lcRule c)
                (lcPrefix c) (fallbackStore l) (fallbackStore l') Hf) as Hm.
  destruct (redis l') as [srv'|], (redis l) as [srv|]; simpl in Hr;
    try discriminate; simpl.
  - injection Hr as Hr. unfold key in Hr. unfold pipeline.
    destruct (lcInfra c); simpl.
    + now rewrite Hr.
    + destruct (checkRateLimitMemory _ _ _ _ (fallbackStore l')),
               (checkRateLimitMemory _ _ _ _ (fallbackStore l)); simpl in *; auto.
    + destruct (checkRateLimitMemory _ _ _ _ (fallbackStore l')),
               (checkRateLimitMemory _ _ _ _ (fallbackStore l)); simpl in *; auto.
  - destruct (checkRateLimitMemory _ _ _ _ (fallbackStore l')),
             (checkRateLimitMemory _ _ _ _ (fallbackStore l)); simpl in *; auto.
Qed.

End LimiterFrame.

Lemma calls_limiter_frame (cs : list LimiterCall) (other : string)
    (l : RedisRateLimit.Limiter) :
  Forall (fun c => RedisRateLimit.rateLimitKey (lcPrefix c) (lcIdentifier c) <> other) cs ->
  let l' := snd (calls limiterCall cs l) in
  RedisRateLimit.fallbackStore l' !! other = RedisRateLimit.fallbackStore l !! other /\
  (fun srv => srv !! other) <$> RedisRateLimit.redis l' =
    (fun srv => srv !! other) <$> RedisRateLimit.redis l.
Proof.
  revert l. induction cs as [|c cs IH]; intros l Hall; [now split|].
  apply Forall_cons in Hall as [Hc Hall]. cbn [calls].
  pose proof (checkRateLimit_frame c other l (not_eq_sym Hc)) as [Hf Hr].
  destruct (limiterCall c l) as [r l1]. specialize (IH l1 Hall).
  destruct (calls limiterCall cs l1) as [rs l2]. simpl in *.
  destruct IH as [IHf IHr]. split; congruence.
Qed.

(** X25. What the keys keep apart.  [rateLimitMiddleware] keys its state
    by type, rule and identifier: for the five rules of its table, distinct
    triples have distinct keys, and any calls for other triples leave the
    decision and the stored entry of a triple unchanged.  The Redis-backed
    [checkRateLimit] keys its state by prefix and identifier: calls under
    other colon-free prefixes, or for other identifiers, leave the decision
    for a prefix and identifier unchanged. *)
Theorem independent_keys :
  (forall (ty ty' : RateLimit.LimitType) (r r' : RateLimit.RuleName) (id id' : string),
     (ty, r, id) <> (ty', r', id') ->
     RateLimit.getRateLimitKey ty id (RateLimit.ruleNameString r) <>
       RateLimit.getRateLimitKey ty' id' (RateLimit.ruleNameString r')) /\
  (forall (store : gmap string RateLimit.RateLimitEntry)
          (others : list MiddlewareCall) (c : MiddlewareCall),
     Forall (fun o => (mcType o, mcRule o, mcIdentifier o) <>
                        (mcType c, mcRule c, mcIdentifier c)) others ->
     let key := RateLimit.getRateLimitKey (mcType c) (mcIdentifier c)
                  (RateLimit.ruleNameString (mcRule c)) in
     let store' := snd (calls middleware others store) in
     store' !! key = store !! key /\
     fst (middleware c store') = fst (middleware c store) /\
     snd (middleware c store') !! key = snd (middleware c store) !! key) /\
  (forall (l : RedisRateLimit.Limiter) (others : list LimiterCall) (c : LimiterCall),
     colonFree (lcPrefix c) = true ->
     Forall (fun o => colonFree (lcPrefix o) = true /\
                      (lcPrefix o, lcIdentifier o) <> (lcPrefix c, lcIdentifier c))
            others ->
     fst (limiterCall c (snd (calls limiterCall others l))) = fst (limiterCall c l)).
Proof.
  split; [|split].
  - intros ty ty' r r' id id' Hne Hkey.
    apply getRateLimitKey_inj in Hkey as (-> & -> & ->). now apply Hne.
  - intros store others c Hall key store'.
    assert (Hframe : store' !! key = store !! key).
    { apply calls_middleware_frame. eapply Forall_impl; [exact Hall|].
      intros o Ho Hkey. apply getRateLimitKey_inj in Hkey as (Ht & Hr & Hi).
      apply Ho. now rewrite Ht, Hr, Hi. }
    split; [exact Hframe|]. now apply rateLimitMiddleware_local.
  - intros l others c Hc Hall.
    assert (Hkeys : Forall (fun o =>
              RedisRateLimit.rateLimitKey (lcPrefix o) (lcIdentifier o) <>
              RedisRateLimit.rateLimitKey (lcPrefix c) (lcIdentifier c)) others).
    { eapply Forall_impl; [exact Hall|]. intros o [Ho Hne] Hkey.
      apply colonFree_key_inj in Hkey as [Hp Hi]; auto.
      apply Hne. now rewrite Hp, Hi. }
    destruct (calls_limiter_frame others _ l Hkeys) as [Hf Hr].
    now apply checkRateLimit_local.
Qed.

Lemma independent_keys_witness :
  let exhaustLogin :=
    replicate 6 {| mcNow := 1762128000000; mcNow' := 1762128000000;
                   mcRule := RateLimit.LOGIN; mcIdentifier := "1.2.3.4";
                   mcType := RateLimit.ip |} in
  let analyze :=
    {| mcNow := 1762128000001; mcNow' := 1762128000001;
       mcRule := RateLimit.AI_ANALYZE; mcIdentifier := "1.2.3.4";
       mcType := RateLimit.ip |} in
  let exhaustDos :=
    replicate 6 {| lcInfra := RedisRateLimit.Failing; lcNow := 1762128000000;
                   lcNowMem := 1762128000000; lcRandom := "0.5";
                   lcIdentifier := "1.2.3.4";
                   lcRule := RedisRateLimit.RATE_LIMIT_RULES RedisRateLimit.auth;
                   lcPrefix := "dos" |} in
  let other :=
    {| lcInfra := RedisRateLimit.Failing; lcNow := 1762128000001;
       lcNowMem := 1762128000001; lcRandom := "0.25";
       lcIdentifier := "1.2.3.4";
       lcRule := RedisRateLimit.RATE_LIMIT_RULES RedisRateLimit.auth;
       lcPrefix := "rl" |} in
  RateLimit.getRateLimitKey RateLimit.ip "1.2.3.4" "LOGIN" <>
    RateLimit.getRateLimitKey RateLimit.ip "1.2.3.4" "AI_ANALYZE" /\
  fst (middleware analyze (snd (calls middleware exhaustLogin ∅))) =
    fst (middleware analyze ∅) /\
  fst (limiterCall other
         (snd (calls limiterCall exhaustDos (RedisRateLimit.RedisRateLimiter None ∅)))) =
    fst (limiterCall other (RedisRateLimit.RedisRateLimiter None ∅)).
Proof.
  intros exhaustLogin analyze exhaustDos other.
  destruct independent_keys as (Hkeys & Hmw & Hlim).
  split; [|split].
  - apply (Hkeys RateLimit.ip RateLimit.ip RateLimit.LOGIN RateLimit.AI_ANALYZE
             "1.2.3.4"%string "1.2.3.4"%string). discriminate.
  - apply (Hmw ∅ exhaustLogin analyze).
    repeat constructor; discriminate.
  - apply (Hlim (RedisRateLimit.RedisRateLimiter None ∅) exhaustDos other);
      [reflexivity|].
    repeat constructor; discriminate.
Defined.

(** C1.  The code at the failing input.  The key of [checkRateLimit] is
    [prefix:identifier], without the rule, so the rules of one prefix and
    identifier share one counter.  After the [AI_ANALYZE] quota of
    ["1.2.3.4"] under ["ip"] is used up, the first [LOGIN] check of the same
    identifier and prefix is refused as request 12, where a fresh limiter
    allows it as request 1; so it is on the in-memory store (no
    [REDIS_URL]) and on the Redis sorted sets.  Through the gate, which
    passes the one prefix ["dos"] for all its rules: after five admitted
    [GET /api/plants] of an address, its first [POST /api/auth/register]
    is rejected with 429 as request 6 of the limit of 5 for auth paths; on
    a fresh service the same request is admitted. *)
Lemma C1_shared_counter :
  let analyze := asRedisRule (RateLimit.RATE_LIMIT_RULES RateLimit.AI_ANALYZE) in
  let login := asRedisRule (RateLimit.RATE_LIMIT_RULES RateLimit.LOGIN) in
  let exhaust :=
    map (fun rnd => {| lcInfra := RedisRateLimit.Up 1762128000000;
                       lcNow := 1762128000000;
                       lcNowMem := 1762128000000; lcRandom := rnd;
                       lcIdentifier := "1.2.3.4"; lcRule := analyze;
                       lcPrefix := "ip" |})
        ["0.01"; "0.02"; "0.03"; "0.04"; "0.05"; "0.06"; "0.07"; "0.08";
         "0.09"; "0.10"; "0.11"]%string in
  let check :=
    limiterCall {| lcInfra := RedisRateLimit.Up 1762128000001;
                   lcNow := 1762128000001;
                   lcNowMem := 1762128000001; lcRandom := "0.12";
                   lcIdentifier := "1.2.3.4"; lcRule := login;
                   lcPrefix := "ip" |} in
  let outcome l :=
    let r := fst (check l) in
    (RedisRateLimit.success r, RedisRateLimit.totalCount r) in
  let inMemory := RedisRateLimit.RedisRateLimiter None ∅ in
  let onRedis :=
    RedisRateLimit.RedisRateLimiter (Some "redis://localhost:6379"%string) ∅ in
  let env k := {| DosProtection.clock := fun _ => 1762128000000 + k;
                  DosProtection.random := fun _ => "0." +:+ toString k;
                  DosProtection.infra := RedisRateLimit.Up (1762128000000 + k);
                  DosProtection.faults := fun _ => false |} in
  let from hs m p := {| method := m; pathname := p; headers := hs |} in
  let browser : gmap string string :=
    {[ "x-real-ip"%string := "1.2.3.4"%string;
       "user-agent"%string := "Mozilla/5.0"%string ]} in
  let browse := from browser "GET"%string "/api/plants"%string in
  let register := from browser "POST"%string "/api/auth/register"%string in
  let gate l := DosProtection.DoSProtectionService (Some "production"%string) l in
  let browsed l :=
    calls (fun k => DosProtection.protect (env k) browse) [1; 2; 3; 4; 5] (gate l) in
  let rejection :=
    {| status := 429;
       responseHeaders := [("Retry-After"%string, "900"%string);
                           ("X-RateLimit-Remaining"%string, "0"%string)];
       body := Text "Rate limit exceeded" |} in
  (outcome inMemory = (true, 1) /\
   outcome (snd (calls limiterCall exhaust inMemory)) = (false, 12) /\
   outcome onRedis = (true, 1) /\
   outcome (snd (calls limiterCall exhaust onRedis)) = (false, 12)) /\
  (fst (DosProtection.protect (env 6) register (gate inMemory)) =
     DosProtection.Returned None /\
   fst (browsed inMemory) = replicate 5 (DosProtection.Returned None) /\
   fst (DosProtection.protect (env 6) register (snd (browsed inMemory))) =
     DosProtection.Returned (Some rejection) /\
   fst (DosProtection.protect (env 6) register (gate onRedis)) =
     DosProtection.Returned None /\
   fst (browsed onRedis) = replicate 5 (DosProtection.Returned None) /\
   fst (DosProtection.protect (env 6) register (snd (browsed onRedis))) =
     DosProtection.Returned (Some rejection)).
Proof. vm_compute. repeat split; reflexivity. Qed.

(** ** The rejection of a rate-limited call *)

Lemma toISOString_valid (t : Z) :
  - maxTime <= t <= maxTime -> exists iso, toISOString t = Some iso.
Proof.
  intros [Hlo Hhi]. unfold toISOString.
  destruct (Z.leb_spec (- maxTime) t); [|lia].
  destruct (Z.leb_spec t maxTime); [|lia]. simpl.
  destruct (civilFromDays (t / 86400000)) as [[y m] d]. eauto.
Qed.

(** Every rule of the table has a block duration, of at most one hour. *)
Lemma rule_blockDuration (ruleName : RateLimit.RuleName) :
  exists d,
    RateLimit.blockDurationMs (RateLimit.RATE_LIMIT_RULES ruleName) = Some d /\
    0 < d <= 60 * 60 * 1000.
Proof. destruct ruleName; eexists; (split; [reflexivity | lia]). Qed.

(** When a rule of the table refuses a call, the reset time it reports lies
    after the clock reading of the call: it is the end of the block the
    call has just set, or the end of a block stored earlier. *)
Lemma limited_resetTime (now : Z) (key : string) (ruleName : RateLimit.RuleName)
    (store : gmap string RateLimit.RateLimitEntry) :
  let result := fst (RateLimit.isRateLimited now key
                       (RateLimit.RATE_LIMIT_RULES ruleName) store) in
  0 < now ->
  RateLimit.limited result = true ->
  exists reset,
    RateLimit.resetTime result = Some reset /\ now < reset /\
    (reset <= now + 60 * 60 * 1000 \/
     exists e, store !! key = Some e /\ RateLimit.blockedUntil e = Some reset).
Proof.
  cbv zeta. unfold RateLimit.isRateLimited. intros Hnow.
  destruct (rule_blockDuration ruleName) as (d & Hd & Hrange).
  destruct (store !! key) as [e|] eqn:He; simpl; [|discriminate].
  destruct (truthyZ (RateLimit.blockedUntil e) &&
            (now <? default 0 (RateLimit.blockedUntil e))) eqn:Hblocked; simpl.
  - intros _. apply andb_prop in Hblocked as [Ht Hlt].
    destruct (RateLimit.blockedUntil e) as [b|] eqn:Hb; [|discriminate].
    simpl in Hlt. apply Z.ltb_lt in Hlt. exists b.
    split; [reflexivity | split; [exact Hlt | right; exists e; now split]].
  - destruct (now - RateLimit.windowStart e >? _); simpl; [discriminate|].
    destruct (RateLimit.count e + 1 >? _); simpl; [|discriminate].
    intros _. rewrite Hd. simpl.
    destruct (Z.eqb_spec d 0); [lia|]. simpl.
    destruct (Z.eqb_spec (now + d) 0); [lia|]. simpl.
    exists (now + d). split; [reflexivity | split; [lia | left; lia]].
Qed.

(** C7, as amended.  For every rate-limited call (positive clock readings
    in the range of valid dates, stored blocks ending at valid dates),
    [rateLimitMiddleware] returns [{limited: true, response}] where the
    response has status 429, a [Retry-After] header that gives the time to
    the reset in whole seconds, rounded up, an [X-RateLimit-Reset] header
    that gives the reset time as an ISO date, no other header (so no
    [X-RateLimit-Remaining]), and the JSON body [{error: message}]. *)
Theorem C7_rate_limit_response :
  forall (now now' : Z) (ruleName : RateLimit.RuleName) (identifier : string)
         (type : RateLimit.LimitType) (store : gmap string RateLimit.RateLimitEntry),
    let key := RateLimit.getRateLimitKey type identifier
                 (RateLimit.ruleNameString ruleName) in
    let result := fst (RateLimit.isRateLimited now key
                         (RateLimit.RATE_LIMIT_RULES ruleName) store) in
    0 < now -> now + 60 * 60 * 1000 <= maxTime ->
    (forall e until, store !! key = Some e ->
                     RateLimit.blockedUntil e = Some until -> until <= maxTime) ->
    RateLimit.limited result = true ->
    exists reset iso message resp,
      RateLimit.resetTime result = Some reset /\
      toISOString reset = Some iso /\
      fst (RateLimit.rateLimitMiddleware now now' ruleName identifier type store) =
        Some {| RateLimit.mwLimited := true; RateLimit.response := Some resp |} /\
      status resp = 429 /\
      responseHeaders resp =
        [("Retry-After"%string, toString (ceilDiv (reset - now') 1000));
         ("X-RateLimit-Reset"%string, iso)] /\
      header (responseHeaders resp) "X-RateLimit-Remaining" = None /\
      body resp = Json [("error"%string, message)].
Proof.
  intros now now' ruleName identifier type store key result Hnow Hmax Hstore Hlim.
  destruct (limited_resetTime now key ruleName store Hnow Hlim)
    as (reset & Hreset & Hlt & Hbound).
  assert (Hvalid : - maxTime <= reset <= maxTime).
  { split; [unfold maxTime in *; lia|].
    destruct Hbound as [Hb | (e & He & Hb)]; [lia | eauto]. }
  destruct (toISOString_valid reset Hvalid) as [iso Hiso].
  exists reset, iso.
  unfold RateLimit.rateLimitMiddleware. fold key.
  fold result in Hreset.
  unfold result in *.
  destruct (RateLimit.isRateLimited now key _ store) as [r store'].
  simpl in *. rewrite Hlim, Hreset.
  unfold RateLimit.createRateLimitResponse. simpl.
  destruct (Z.eqb_spec reset 0); [lia|]. simpl. rewrite Hiso. simpl.
  eexists _, _. repeat split; reflexivity.
Qed.

Lemma C7_rate_limit_response_witness :
  let store :=
    snd (calls middleware
           (replicate 3 {| mcNow := 1762128000000; mcNow' := 1762128000000;
                           mcRule := RateLimit.REGISTRATION;
                           mcIdentifier := "192.168.1.2";
                           mcType := RateLimit.ip |}) ∅) in
  exists resp,
    fst (RateLimit.rateLimitMiddleware 1762128000500 1762128000600
           RateLimit.REGISTRATION "192.168.1.2" RateLimit.ip store) =
      Some {| RateLimit.mwLimited := true; RateLimit.response := Some resp |} /\
    status resp = 429 /\
    header (responseHeaders resp) "X-RateLimit-Remaining" = None.
Proof.
  intros store.
  destruct (C7_rate_limit_response 1762128000500 1762128000600
              RateLimit.REGISTRATION "192.168.1.2" RateLimit.ip store)
    as (reset & iso & message & resp & _ & _ & Hresp & Hstatus & _ & Hrem & _).
  - lia.
  - unfold maxTime. lia.
  - intros e until He. vm_compute in He. injection He as <-. discriminate.
  - vm_compute. reflexivity.
  - exists resp. repeat split; assumption.
Defined.

(** C7 as stated fails: the rejection carries no [X-RateLimit-Remaining]
    header.  The fourth registration of an address within the hour gets
    status 429 with [Retry-After] and [X-RateLimit-Reset] only. *)
Lemma C7_counterexample :
  let store :=
    snd (calls middleware
           (replicate 3 {| mcNow := 1762128000000; mcNow' := 1762128000000;
                           mcRule := RateLimit.REGISTRATION;
                           mcIdentifier := "192.168.1.2";
                           mcType := RateLimit.ip |}) ∅) in
  exists resp,
    fst (RateLimit.rateLimitMiddleware 1762128000500 1762128000600
           RateLimit.REGISTRATION "192.168.1.2" RateLimit.ip store) =
      Some {| RateLimit.mwLimited := true; RateLimit.response := Some resp |} /\
    responseHeaders resp =
      [("Retry-After"%string, "3600"%string);
       ("X-RateLimit-Reset"%string, "2025-11-03T01:00:00.500Z"%string)] /\
    header (responseHeaders resp) "X-RateLimit-Remaining" = None.
Proof. eexists. vm_compute. repeat split; reflexivity. Qed.

(** ** Client address *)

(** C8, as amended.  The DoS gate takes the client address from
    [cf-connecting-ip], else from [x-real-ip], else from the first entry of
    [x-forwarded-for], else from [host], else ["unknown"].  The rate
    limiter's [getClientIP] has another order: the first entry of
    [x-forwarded-for], else [x-real-ip], else [x-connecting-ip], else
    ["unknown"].  A header that is absent or empty is passed over. *)
Theorem C8_client_ip_order :
  forall (request : NextRequest),
    let get := headers_get request in
    (* dosProtection.ts *)
    (forall v, get "cf-connecting-ip" = Some v -> nonEmpty v = true ->
       DosProtection.getClientIP request = v) /\
    (forall v, truthyS (get "cf-connecting-ip") = false ->
       get "x-real-ip" = Some v -> nonEmpty v = true ->
       DosProtection.getClientIP request = v) /\
    (forall v, truthyS (get "cf-connecting-ip") = false ->
       truthyS (get "x-real-ip") = false ->
       get "x-forwarded-for" = Some v -> nonEmpty v = true ->
       DosProtection.getClientIP request = trim (splitHead "," v)) /\
    (truthyS (get "cf-connecting-ip") = false ->
     truthyS (get "x-real-ip") = false ->
     truthyS (get "x-forwarded-for") = false ->
       DosProtection.getClientIP request = orElse (get "host") "unknown") /\
    (* rateLimit.ts *)
    (forall v, get "x-forwarded-for" = Some v ->
       nonEmpty (trim (splitHead "," v)) = true ->
       RateLimit.getClientIP request = trim (splitHead "," v)) /\
    (forall v,
       truthyS ((fun f => trim (splitHead "," f)) <$> get "x-forwarded-for") = false ->
       get "x-real-ip" = Some v -> nonEmpty v = true ->
       RateLimit.getClientIP request = v) /\
    (forall v,
       truthyS ((fun f => trim (splitHead "," f)) <$> get "x-forwarded-for") = false ->
       truthyS (get "x-real-ip") = false ->
       get "x-connecting-ip" = Some v -> nonEmpty v = true ->
       RateLimit.getClientIP request = v) /\
    (truthyS ((fun f => trim (splitHead "," f)) <$> get "x-forwarded-for") = false ->
     truthyS (get "x-real-ip") = false ->
     truthyS (get "x-connecting-ip") = false ->
       RateLimit.getClientIP request = "unknown"%string).
Proof.
  intros request get.
  unfold DosProtection.getClientIP, RateLimit.getClientIP.
  fold get.
  repeat split.
  - intros v -> Hv. destruct v; [discriminate | reflexivity].
  - intros v -> -> Hv. destruct v; [discriminate | reflexivity].
  - intros v -> -> -> Hv. destruct v; [discriminate | reflexivity].
  - now intros -> -> ->.
  - intros v -> Hv. cbn [fmap option_fmap option_map].
    destruct (trim (splitHead "," v)); [discriminate | reflexivity].
  - intros v Hf -> Hv. unfold orS. rewrite Hf.
    destruct v; [discriminate | reflexivity].
  - intros v Hf Hr -> Hv. unfold orS. rewrite Hf, Hr.
    destruct v; [discriminate | reflexivity].
  - intros Hf Hr Hc. unfold orS. rewrite Hf, Hr. unfold orElse.
    destruct (get "x-connecting-ip") as [v|]; [|reflexivity].
    simpl in Hc. now rewrite Hc.
Qed.

Lemma C8_client_ip_order_witness :
  let request :=
    {| method := "GET"; pathname := "/";
       headers := {[ "x-forwarded-for"%string := "192.168.1.1, 10.0.0.1"%string;
                     "x-real-ip"%string := "172.16.0.1"%string ]} |} in
  DosProtection.getClientIP request = "172.16.0.1"%string /\
  RateLimit.getClientIP request = "192.168.1.1"%string.
Proof.
  intros request.
  destruct (C8_client_ip_order request)
    as (_ & Hreal & _ & _ & Hforwarded & _).
  split.
  - apply Hreal; reflexivity.
  - apply (Hforwarded "192.168.1.1, 10.0.0.1"%string); reflexivity.
Defined.

(** C8 as stated fails for [getClientIP] of rateLimit.ts: with both
    [x-forwarded-for] and [x-real-ip] present it answers the first
    forwarded entry, not the [x-real-ip] value, and it never reads a
    CDN header. *)
Lemma C8_counterexample :
  RateLimit.getClientIP
    {| method := "GET"; pathname := "/";
       headers := {[ "x-forwarded-for"%string := "192.168.1.1, 10.0.0.1"%string;
                     "x-real-ip"%string := "172.16.0.1"%string ]} |}
    = "192.168.1.1"%string /\
  RateLimit.getClientIP
    {| method := "GET"; pathname := "/";
       headers := {[ "cf-connecting-ip"%string := "203.0.113.1"%string;
                     "x-forwarded-for"%string := "192.168.1.1, 10.0.0.1"%string ]} |}
    = "192.168.1.1"%string.
Proof. vm_compute. split; reflexivity. Qed.

(** ** CSRF validation *)



(** ** The DoS gate *)

(** C9. Outside the production profile ([NODE_ENV] other than
    ["production"], or unset) the service is constructed disabled, and from
    then on [protect] admits every request at once: it returns [null] and
    leaves the whole state of the gate, the limiter it shares and the
    timers included, as it was. *)
Theorem C9_disabled_outside_production :
  forall (NODE_ENV : option string) (l : RedisRateLimit.Limiter),
    NODE_ENV <> Some "production"%string ->
    forall (env : DosProtection.Env) (request : NextRequest) (s : DosProtection.Service),
      DosProtection.config s =
        DosProtection.config (DosProtection.DoSProtectionService NODE_ENV l) ->
      DosProtection.protect env request s = (DosProtection.Returned None, s).
Proof.
  intros NODE_ENV l Hne env request s Hconfig.
  unfold DosProtection.protect, DosProtection.bind, DosProtection.get.
  rewrite Hconfig. simpl.
  now rewrite bool_decide_eq_false_2.
Qed.

Lemma C9_disabled_outside_production_witness :
  let s := DosProtection.DoSProtectionService (Some "development"%string)
             (RedisRateLimit.RedisRateLimiter None ∅) in
  DosProtection.protect
    {| DosProtection.clock := fun _ => 1762128000000;
       DosProtection.random := fun _ => "0.5"%string;
       DosProtection.infra := RedisRateLimit.Up 1762128000000;
       DosProtection.faults := fun _ => false |}
    {| method := "POST"; pathname := "/api/upload/../../etc";
       headers := {[ "user-agent"%string := "curl/8.0"%string;
                     "content-length"%string := "99999999999"%string ]} |}
    s = (DosProtection.Returned None, s).
Proof.
  intros s.
  apply (C9_disabled_outside_production (Some "development"%string)
           (RedisRateLimit.RedisRateLimiter None ∅));
    [discriminate | reflexivity].
Defined.

Section SizeCheck.
Import DosProtection.
Variables (env : Env) (request : NextRequest) (s : Service).

(** A declared length that is not a number fails the size check. *)
Lemma checkRequestSize_NaN (v : string) :
  headers_get request "content-length" = Some v ->
  nonEmpty v = true ->
  parseInt v = None ->
  faults env SizeCheck = false ->
  checkRequestSize env request s =
    (Returned {| allowed := false; checkedSize := None |}, s).
Proof.
  intros Hget Hv Hparse Hfault.
  unfold checkRequestSize, tryCatch, bind, step, get, ret.
  rewrite Hfault, Hget. simpl. now rewrite Hv, Hparse.
Qed.

(** Without a declared length, or with an empty one, the size check lets
    the request through, also when an internal error interrupts it. *)
Lemma checkRequestSize_undeclared :
  truthyS (headers_get request "content-length") = false ->
  checkRequestSize env request s =
    (Returned {| allowed := true; checkedSize := Some 0 |}, s).
Proof.
  intros Hget.
  unfold checkRequestSize, tryCatch, bind, step, get, ret, raise.
  destruct (faults env SizeCheck); [reflexivity|]. now rewrite Hget.
Qed.

End SizeCheck.

(** C10, as amended.  For every request whose Content-Length header has a
    non-empty value that [parseInt] reads as [NaN], the size check (when no
    internal error interrupts it) reports not-allowed, and [protect], when
    enabled and when the client address is not in the suspicious set,
    rejects the request with 413, leaving the gate as it was.  A request
    with no Content-Length header or with an empty one passes the size
    check unchecked. *)
Theorem C10_unparsable_content_length :
  forall (env : DosProtection.Env) (request : NextRequest) (s : DosProtection.Service),
    (forall v,
       headers_get request "content-length" = Some v ->
       nonEmpty v = true ->
       parseInt v = None ->
       DosProtection.faults env DosProtection.SizeCheck = false ->
       DosProtection.checkRequestSize env request s =
         (DosProtection.Returned
            {| DosProtection.allowed := false; DosProtection.checkedSize := None |}, s) /\
       (DosProtection.enabled (DosProtection.config s) = true ->
        DosProtection.getClientIP request ∉ DosProtection.suspiciousIPs s ->
        DosProtection.protect env request s =
          (DosProtection.Returned
             (Some {| status := 413; responseHeaders := [];
                      body := Text "Request too large" |}), s))) /\
    (truthyS (headers_get request "content-length") = false ->
     DosProtection.checkRequestSize env request s =
       (DosProtection.Returned
          {| DosProtection.allowed := true; DosProtection.checkedSize := Some 0 |}, s)).
Proof.
  intros env request s. split; [|apply checkRequestSize_undeclared].
  intros v Hget Hv Hparse Hfault.
  pose proof (checkRequestSize_NaN env request s v Hget Hv Hparse Hfault) as Hsize.
  split; [exact Hsize|].
  intros Henabled Hip.
  unfold DosProtection.protect, DosProtection.bind at 1, DosProtection.get at 1.
  rewrite Henabled. simpl.
  unfold DosProtection.tryCatch, DosProtection.guarded,
    DosProtection.bind at 1, DosProtection.get at 1.
  rewrite bool_decide_eq_false_2 by exact Hip.
  unfold DosProtection.bind at 1. rewrite Hsize. reflexivity.
Qed.

Lemma C10_unparsable_content_length_witness :
  let env := {| DosProtection.clock := fun _ => 1762128000000;
                DosProtection.random := fun _ => "0.5"%string;
                DosProtection.infra := RedisRateLimit.Up 1762128000000;
                DosProtection.faults := fun _ => false |} in
  let request := {| method := "POST"; pathname := "/api/plants";
                    headers := {[ "content-length"%string := "abc"%string;
                                  "x-real-ip"%string := "203.0.113.7"%string ]} |} in
  let s := DosProtection.DoSProtectionService (Some "production"%string)
             (RedisRateLimit.RedisRateLimiter None ∅) in
  DosProtection.protect env request s =
    (DosProtection.Returned
       (Some {| status := 413; responseHeaders := [];
                body := Text "Request too large" |}), s).
Proof.
  intros env request s.
  destruct (C10_unparsable_content_length env request s) as [H _].
  assert (Hget : headers_get request "content-length" = Some "abc"%string)
    by (vm_compute; reflexivity).
  destruct (H "abc"%string Hget eq_refl eq_refl eq_refl) as [_ Hprotect].
  apply Hprotect; [reflexivity|].
  exact (not_elem_of_empty _).
Defined.

(** C10 as stated fails twice.  A client address in the suspicious set is
    turned away at the block-list check, with 429, before its unparsable
    Content-Length is looked at; and an empty Content-Length, which
    [parseInt] reads as [NaN] too, passes the size check, so that the
    request is admitted. *)
Lemma C10_counterexample :
  let env := {| DosProtection.clock := fun _ => 1762128000000;
                DosProtection.random := fun _ => "0.5"%string;
                DosProtection.infra := RedisRateLimit.Up 1762128000000;
                DosProtection.faults := fun _ => false |} in
  let s := DosProtection.DoSProtectionService (Some "production"%string)
             (RedisRateLimit.RedisRateLimiter None ∅) in
  let blocked :=
    {| DosProtection.config := DosProtection.config s;
       DosProtection.activeRequests := ∅;
       DosProtection.suspiciousIPs := {[ "203.0.113.7"%string ]};
       DosProtection.requestCounts := ∅;
       DosProtection.timers := [];
       DosProtection.limiter := DosProtection.limiter s |} in
  let request v := {| method := "POST"; pathname := "/api/plants";
                      headers := {[ "content-length"%string := v;
                                    "x-real-ip"%string := "203.0.113.7"%string ]} |} in
  (parseInt "abc" = None /\
   fst (DosProtection.protect env (request "abc"%string) blocked) =
     DosProtection.Returned
       (Some {| status := 429; responseHeaders := [];
                body := Text "Request blocked" |})) /\
  (parseInt "" = None /\
   fst (DosProtection.checkRequestSize env (request ""%string) s) =
     DosProtection.Returned
       {| DosProtection.allowed := true; DosProtection.checkedSize := Some 0 |} /\
   fst (DosProtection.protect env (request ""%string) s) = DosProtection.Returned None).
Proof. vm_compute. repeat split; reflexivity. Qed.

(** ** Failing open *)


(** * Further properties *)

(** ** The quota of a window *)

Section Quota.
Import RateLimit.
Variables (key : string) (rule : RateLimitRule) (t1 : Z).

Lemma isRateLimited_inWindow (k now : Z) (e : RateLimitEntry)
    (store : gmap string RateLimitEntry) :
  store !! key = Some e -> inWindow rule t1 k e -> now - t1 <= windowMs rule ->
  let '(r, store') := isRateLimited now key rule store in
  limited r = bool_decide (maxRequests rule <= k) /\
  (k < maxRequests rule -> remaining r = Some (maxRequests rule - k - 1)) /\
  exists e', store' !! key = Some e' /\ inWindow rule t1 (k + 1) e'.
Proof.
  intros He (Hstart & Hlow & Hhigh) Hnow.
  destruct (Z.lt_trichotomy k (maxRequests rule)) as [Hk | [Hk | Hk]].
  - (* below the limit: the call is counted *)
    rewrite bool_decide_eq_false_2 by lia.
    destruct Hlow as [Hc Hb]; [lia|].
    rewrite (isRateLimited_counted now key rule store e He Hb) by lia.
    split; [reflexivity | split; [intros _; simpl; f_equal; lia|]].
    eexists. rewrite lookup_insert_eq. split; [reflexivity|].
    repeat split; simpl; lia.
  - (* at the limit: the call is counted and refused *)
    rewrite bool_decide_eq_true_2 by lia.
    destruct Hlow as [Hc Hb]; [lia|].
    rewrite (isRateLimited_exceeded now key rule store e He Hb) by lia.
    split; [reflexivity | split; [lia|]].
    eexists. rewrite lookup_insert_eq. split; [reflexivity|].
    repeat split; simpl; lia.
  - (* past the limit: blocked, or counted and refused *)
    rewrite bool_decide_eq_true_2 by lia.
    specialize (Hhigh Hk).
    unfold isRateLimited. rewrite He.
    destruct (truthyZ (blockedUntil e) && (now <? default 0 (blockedUntil e))).
    + split; [reflexivity | split; [lia|]]. exists e. split; [exact He|].
      repeat split; lia.
    + rewrite Hstart.
      destruct (Z.gtb_spec (now - t1) (windowMs rule)); [lia|].
      destruct (Z.gtb_spec (count e + 1) (maxRequests rule)); [|lia].
      split; [reflexivity | split; [lia|]].
      eexists. rewrite lookup_insert_eq. split; [reflexivity|].
      repeat split; simpl; lia.
Qed.

Lemma calls_inWindow (ts : list Z) :
  forall (k : Z) (e : RateLimitEntry) (store : gmap string RateLimitEntry),
    store !! key = Some e -> inWindow rule t1 k e ->
    Forall (fun t => t - t1 <= windowMs rule) ts ->
    forall (i : nat) (r : Limited),
      fst (calls (fun now => isRateLimited now key rule) ts store) !! i = Some r ->
      limited r = bool_decide (maxRequests rule <= k + Z.of_nat i) /\
      (k + Z.of_nat i < maxRequests rule ->
       remaining r = Some (maxRequests rule - (k + Z.of_nat i) - 1)).
Proof.
  induction ts as [|t ts IH]; intros k e store He Hinv Hall i r Hi;
    [discriminate|].
  apply Forall_cons in Hall as [Ht Hall]. cbn [calls] in Hi.
  pose proof (isRateLimited_inWindow k t e store He Hinv Ht) as Hstep.
  destruct (isRateLimited t key rule store) as [r0 store0].
  destruct Hstep as (Hlim & Hrem & e' & He' & Hinv').
  specialize (IH (k + 1) e' store0 He' Hinv' Hall).
  destruct (calls (fun now => isRateLimited now key rule) ts store0) as [rs final].
  destruct i as [|i]; simpl in Hi.
  - injection Hi as <-. rewrite Z.add_0_r. split; [exact Hlim|].
    intros Hk. rewrite Hrem by lia. reflexivity.
  - destruct (IH i r Hi) as [IHlim IHrem].
    replace (k + Z.of_nat (S i)) with (k + 1 + Z.of_nat i) by lia. now split.
Qed.

End Quota.

(** X1. In a window of [isRateLimited] that starts at [t1], on a fresh key
    or on an entry whose window is over and whose block, if any, has
    ended, exactly the first [maxRequests] calls are allowed, the [i]-th of
    them (from 0) with [maxRequests - i - 1] requests remaining; every
    later call of the window is refused.  The limit is taken to be at
    least 1. *)
Theorem isRateLimited_quota :
  forall (key : string) (rule : RateLimit.RateLimitRule)
         (store : gmap string RateLimit.RateLimitEntry) (t1 : Z) (ts : list Z),
    1 <= RateLimit.maxRequests rule ->
    (forall e, store !! key = Some e ->
       RateLimit.windowMs rule < t1 - RateLimit.windowStart e /\
       forall b, RateLimit.blockedUntil e = Some b -> b = 0 \/ b <= t1) ->
    Forall (fun t => t - t1 <= RateLimit.windowMs rule) ts ->
    forall (i : nat) (r : RateLimit.Limited),
      fst (calls (fun now => RateLimit.isRateLimited now key rule) (t1 :: ts) store)
        !! i = Some r ->
      RateLimit.limited r = bool_decide (RateLimit.maxRequests rule <= Z.of_nat i) /\
      (Z.of_nat i < RateLimit.maxRequests rule ->
       RateLimit.remaining r = Some (RateLimit.maxRequests rule - Z.of_nat i - 1)).
Proof.
  intros key rule store t1 ts Hmax Hstart Hall i r Hi.
  cbn [calls] in Hi.
  assert (Hfirst :
    RateLimit.isRateLimited t1 key rule store =
      ({| RateLimit.limited := false; RateLimit.resetTime := None;
          RateLimit.remaining := Some (RateLimit.maxRequests rule - 1) |},
       <[key := {| RateLimit.count := 1; RateLimit.windowStart := t1;
                   RateLimit.blockedUntil := None |}]> store)).
  { destruct (store !! key) as [e|] eqn:He;
      [|now apply isRateLimited_fresh].
    destruct (Hstart e eq_refl) as [Hw Hb].
    unfold RateLimit.isRateLimited. rewrite He.
    assert (Hnot : truthyZ (RateLimit.blockedUntil e) &&
                   (t1 <? default 0 (RateLimit.blockedUntil e)) = false).
    { destruct (RateLimit.blockedUntil e) as [b|]; [|reflexivity]. simpl.
      destruct (Hb b eq_refl) as [-> | Hle]; [reflexivity|].
      destruct (Z.ltb_spec t1 b); [lia|]. apply andb_false_r. }
    rewrite Hnot.
    destruct (Z.gtb_spec (t1 - RateLimit.windowStart e) (RateLimit.windowMs rule));
      [reflexivity | lia]. }
  rewrite Hfirst in Hi.
  pose proof (calls_inWindow key rule t1 ts 1
                {| RateLimit.count := 1; RateLimit.windowStart := t1;
                   RateLimit.blockedUntil := None |}
                (<[key := {| RateLimit.count := 1; RateLimit.windowStart := t1;
                             RateLimit.blockedUntil := None |}]> store)
                (lookup_insert_eq _ _ _)) as Hrest.
  destruct (calls (fun now => RateLimit.isRateLimited now key rule) ts _)
    as [rs final].
  destruct i as [|i]; simpl in Hi.
  - injection Hi as <-. simpl.
    rewrite bool_decide_eq_false_2 by lia. split; [reflexivity|].
    intros _. f_equal. lia.
  - destruct (Hrest ltac:(repeat split; simpl; lia) Hall i r Hi) as [Hl Hr].
    replace (Z.of_nat (S i)) with (1 + Z.of_nat i) by lia. now split.
Qed.

Lemma isRateLimited_quota_witness :
  let rule := {| RateLimit.windowMs := 60000; RateLimit.maxRequests := 2;
                 RateLimit.blockDurationMs := None |} in
  exists r,
    fst (calls (fun now => RateLimit.isRateLimited now "concurrent-test" rule)
           [1762128000000; 1762128000001; 1762128000002] ∅) !! 2%nat = Some r /\
    RateLimit.limited r = true.
Proof.
  intros rule. eexists. split; [vm_compute; reflexivity|].
  refine (proj1 (isRateLimited_quota "concurrent-test" rule ∅ 1762128000000
                   [1762128000001; 1762128000002] _ _ _ 2%nat _ _)).
  - simpl. lia.
  - intros e He. rewrite lookup_empty in He. discriminate.
  - repeat constructor; simpl; lia.
  - vm_compute. reflexivity.
Defined.

(** ** Blocks *)

(** X2. When a call exceeds the limit of a rule that has a block duration
    [d], the key is blocked until [d] after that call: every call before
    that time, within the window or after it, is refused with the end of
    the block as reset time, and none of them is counted or extends the
    block. *)
Theorem isRateLimited_block :
  forall (key : string) (rule : RateLimit.RateLimitRule)
         (store : gmap string RateLimit.RateLimitEntry)
         (e : RateLimit.RateLimitEntry) (d t : Z) (ts : list Z),
    store !! key = Some e ->
    RateLimit.blockedUntil e = None ->
    t - RateLimit.windowStart e <= RateLimit.windowMs rule ->
    RateLimit.maxRequests rule <= RateLimit.count e ->
    RateLimit.blockDurationMs rule = Some d -> d <> 0 -> t + d <> 0 ->
    Forall (fun t' => t' < t + d) ts ->
    let refused := {| RateLimit.limited := true; RateLimit.resetTime := Some (t + d);
                      RateLimit.remaining := None |} in
    calls (fun now => RateLimit.isRateLimited now key rule) (t :: ts) store =
      (refused :: map (fun _ => refused) ts,
       <[key := {| RateLimit.count := RateLimit.count e + 1;
                   RateLimit.windowStart := RateLimit.windowStart e;
                   RateLimit.blockedUntil := Some (t + d) |}]> store).
Proof.
  intros key rule store e d t ts He Hb Hw Hc Hd Hd0 Htd Hall refused.
  cbn [calls].
  rewrite (isRateLimited_exceeded t key rule store e He Hb Hw) by lia.
  rewrite Hd. simpl.
  destruct (Z.eqb_spec d 0); [contradiction|]. simpl.
  destruct (Z.eqb_spec (t + d) 0); [contradiction|]. simpl.
  set (store' := <[key := _]> store).
  assert (Hrest : calls (fun now => RateLimit.isRateLimited now key rule) ts store' =
                  (map (fun _ => refused) ts, store')).
  { induction ts as [|t' ts IH]; [reflexivity|].
    apply Forall_cons in Hall as [Ht' Hall]. cbn [calls].
    unfold RateLimit.isRateLimited at 1. unfold store' at 1.
    rewrite lookup_insert_eq. simpl.
    destruct (Z.eqb_spec (t + d) 0); [contradiction|]. simpl.
    destruct (Z.ltb_spec t' (t + d)); [|lia].
    fold store'. rewrite (IH Hall). reflexivity. }
  rewrite Hrest. reflexivity.
Qed.

Lemma isRateLimited_block_witness :
  let rule := RateLimit.RATE_LIMIT_RULES RateLimit.AI_IDENTIFY in
  let e := {| RateLimit.count := 5; RateLimit.windowStart := 1762128000000;
              RateLimit.blockedUntil := None |} in
  map RateLimit.resetTime
    (fst (calls (fun now => RateLimit.isRateLimited now "user:AI_IDENTIFY:u1" rule)
            [1762128030000; 1762128100000; 1762128329999]
            {[ "user:AI_IDENTIFY:u1"%string := e ]}))
  = [Some 1762128330000; Some 1762128330000; Some 1762128330000].
Proof.
  intros rule e.
  rewrite (isRateLimited_block "user:AI_IDENTIFY:u1" rule _ e 300000
             1762128030000 [1762128100000; 1762128329999]).
  - reflexivity.
  - apply lookup_singleton_eq.
  - reflexivity.
  - simpl. lia.
  - simpl. lia.
  - reflexivity.
  - lia.
  - lia.
  - repeat constructor; lia.
Defined.

(** ** The window of the in-memory fallback *)

Lemma calls_checkRateLimitMemory (identifier : string)
    (rule : RedisRateLimit.RateLimitRule) (prefix : string) (ts : list Z) :
  forall (rec : RedisRateLimit.FallbackRecord)
         (store : gmap string RedisRateLimit.FallbackRecord),
    store !! RedisRateLimit.rateLimitKey prefix identifier = Some rec ->
    Forall (fun t => t <= RedisRateLimit.recordResetTime rec) ts ->
    forall (i : nat) (r : RedisRateLimit.RateLimitResult),
      fst (calls (fun now =>
                    RedisRateLimit.checkRateLimitMemory now identifier rule prefix)
             ts store) !! i = Some r ->
      let n := RedisRateLimit.count rec + Z.of_nat i + 1 in
      RedisRateLimit.totalCount r = n /\
      RedisRateLimit.success r = (n <=? RedisRateLimit.maxRequests rule) /\
      RedisRateLimit.remainingRequests r =
        Z.max 0 (RedisRateLimit.maxRequests rule - n) /\
      RedisRateLimit.resetTime r = RedisRateLimit.recordResetTime rec.
Proof.
  induction ts as [|t ts IH]; intros rec store Hrec Hall i r Hi; [discriminate|].
  apply Forall_cons in Hall as [Ht Hall]. cbn [calls] in Hi.
  rewrite (checkRateLimitMemory_counted t identifier rule prefix store rec Hrec Ht)
    in Hi.
  specialize (IH {| RedisRateLimit.count := RedisRateLimit.count rec + 1;
                    RedisRateLimit.recordResetTime :=
                      RedisRateLimit.recordResetTime rec |}
                 _ (lookup_insert_eq store _ _) Hall).
  destruct (calls _ ts _) as [rs final].
  destruct i as [|i]; simpl in Hi.
  - injection Hi as <-. simpl. rewrite Z.add_0_r. repeat split; reflexivity.
  - specialize (IH i r Hi). simpl in IH.
    replace (RedisRateLimit.count rec + Z.of_nat (S i) + 1)
      with (RedisRateLimit.count rec + 1 + Z.of_nat i + 1) by lia.
    exact IH.
Qed.

(** X3. The in-memory fallback keeps a fixed window: from the first call
    [t1] on a fresh key, or on a record whose reset time has passed, every
    call up to [t1 + windowMs] is counted, refused calls included; the
    [i]-th call (from 0) reports the count [i + 1] and the reset time
    [t1 + windowMs], and it is allowed when it is the first or when the
    count does not exceed [maxRequests].  The first call of a window is
    allowed whatever the limit. *)
Theorem checkRateLimitMemory_window :
  forall (identifier : string) (rule : RedisRateLimit.RateLimitRule)
         (prefix : string) (store : gmap string RedisRateLimit.FallbackRecord)
         (t1 : Z) (ts : list Z),
    (forall rec, store !! RedisRateLimit.rateLimitKey prefix identifier = Some rec ->
                 RedisRateLimit.recordResetTime rec < t1) ->
    Forall (fun t => t <= t1 + RedisRateLimit.windowMs rule) ts ->
    forall (i : nat) (r : RedisRateLimit.RateLimitResult),
      fst (calls (fun now =>
                    RedisRateLimit.checkRateLimitMemory now identifier rule prefix)
             (t1 :: ts) store) !! i = Some r ->
      RedisRateLimit.totalCount r = Z.of_nat i + 1 /\
      RedisRateLimit.success r =
        bool_decide (i = 0%nat \/ Z.of_nat i + 1 <= RedisRateLimit.maxRequests rule) /\
      RedisRateLimit.resetTime r = t1 + RedisRateLimit.windowMs rule.
Proof.
  intros identifier rule prefix store t1 ts Hstart Hall i r Hi.
  cbn [calls] in Hi.
  assert (Hfirst :
    RedisRateLimit.checkRateLimitMemory t1 identifier rule prefix store =
      ({| RedisRateLimit.success := true; RedisRateLimit.totalCount := 1;
          RedisRateLimit.remainingRequests := RedisRateLimit.maxRequests rule - 1;
          RedisRateLimit.resetTime := t1 + RedisRateLimit.windowMs rule |},
       <[RedisRateLimit.rateLimitKey prefix identifier :=
           {| RedisRateLimit.count := 1;
              RedisRateLimit.recordResetTime :=
                t1 + RedisRateLimit.windowMs rule |}]> store)).
  { destruct (store !! RedisRateLimit.rateLimitKey prefix identifier) as [rec|] eqn:Hrec;
      [|now apply checkRateLimitMemory_fresh].
    unfold RedisRateLimit.checkRateLimitMemory. rewrite Hrec.
    specialize (Hstart rec eq_refl).
    destruct (Z.gtb_spec t1 (RedisRateLimit.recordResetTime rec)); [reflexivity | lia]. }
  rewrite Hfirst in Hi.
  pose proof (calls_checkRateLimitMemory identifier rule prefix ts
                {| RedisRateLimit.count := 1;
                   RedisRateLimit.recordResetTime :=
                     t1 + RedisRateLimit.windowMs rule |}
                _ (lookup_insert_eq store _ _) Hall) as Hrest.
  destruct (calls _ ts _) as [rs final].
  destruct i as [|i]; simpl in Hi.
  - injection Hi as <-. split; [reflexivity | split; [|reflexivity]].
    symmetry. apply bool_decide_eq_true_2. now left.
  - destruct (Hrest i r Hi) as (Hcount & Hsuccess & _ & Hreset). simpl in *.
    split; [lia|]. split; [|exact Hreset].
    rewrite Hsuccess.
    destruct (Z.leb_spec (1 + Z.of_nat i + 1) (RedisRateLimit.maxRequests rule)).
    + rewrite bool_decide_eq_true_2; [reflexivity | right; lia].
    + rewrite bool_decide_eq_false_2; [reflexivity|].
      intros [Hz | Hle]; [discriminate | lia].
Qed.

Lemma checkRateLimitMemory_window_witness :
  let rule := {| RedisRateLimit.windowMs := 60000; RedisRateLimit.maxRequests := 0 |} in
  let stale : gmap string RedisRateLimit.FallbackRecord :=
    {[ "rl:9.9.9.9"%string :=
         {| RedisRateLimit.count := 7; RedisRateLimit.recordResetTime := 1762128000000 |} ]} in
  exists r,
    fst (calls (fun now => RedisRateLimit.checkRateLimitMemory now "9.9.9.9" rule "rl")
           [1762128000001; 1762128060001] stale) !! 0%nat = Some r /\
    RedisRateLimit.success r = true /\ RedisRateLimit.totalCount r = 1.
Proof.
  intros rule stale. eexists. split; [vm_compute; reflexivity|].
  destruct (checkRateLimitMemory_window "9.9.9.9" rule "rl" stale 1762128000001
              [1762128060001]) with (i := 0%nat)
    (r := {| RedisRateLimit.success := true; RedisRateLimit.totalCount := 1;
             RedisRateLimit.remainingRequests := -1;
             RedisRateLimit.resetTime := 1762128060001 |})
    as (Hcount & Hsuccess & _).
  - intros rec Hrec. vm_compute in Hrec. injection Hrec as <-. simpl. lia.
  - repeat constructor; simpl; lia.
  - vm_compute. reflexivity.
  - split; [exact Hsuccess | exact Hcount].
Defined.

(** ** Cleanup of the in-process stores *)

Lemma rateLimitEntryExpired_mono (t1 t2 : Z) (e : RateLimit.RateLimitEntry) :
  t1 <= t2 -> RateLimit.rateLimitEntryExpired t2 e = false ->
  RateLimit.rateLimitEntryExpired t1 e = false.
Proof.
  unfold RateLimit.rateLimitEntryExpired. intros Hle.
  destruct (truthyZ (RateLimit.blockedUntil e)); intros H;
    rewrite Z.gtb_ltb, Z.ltb_ge in H; rewrite Z.gtb_ltb, Z.ltb_ge; lia.
Qed.

Lemma lockoutEntryExpired_mono (t1 t2 : Z) (e : RateLimit.AccountLockoutEntry) :
  t1 <= t2 -> RateLimit.lockoutEntryExpired t2 e = false ->
  RateLimit.lockoutEntryExpired t1 e = false.
Proof.
  unfold RateLimit.lockoutEntryExpired. intros Hle.
  destruct (truthyZ (RateLimit.lockedUntil e)); intros H;
    rewrite Z.gtb_ltb, Z.ltb_ge in H; rewrite Z.gtb_ltb, Z.ltb_ge; lia.
Qed.

(** X4. Cleaning up twice is cleaning up once: a run of
    [cleanupExpiredEntries] after an earlier run (or a run at the same
    clock reading) leaves both stores as the later run alone would. *)
Theorem cleanupExpiredEntries_idempotent :
  forall (t1 t2 : Z)
         (stores : gmap string RateLimit.RateLimitEntry *
                   gmap string RateLimit.AccountLockoutEntry),
    t1 <= t2 ->
    RateLimit.cleanupExpiredEntries t2 (RateLimit.cleanupExpiredEntries t1 stores) =
      RateLimit.cleanupExpiredEntries t2 stores.
Proof.
  intros t1 t2 [limits locks] Hle. unfold RateLimit.cleanupExpiredEntries. simpl.
  f_equal.
  - apply (map_filter_filter_l _ _). intros k e _.
    apply rateLimitEntryExpired_mono, Hle.
  - apply (map_filter_filter_l _ _). intros k e _.
    apply lockoutEntryExpired_mono, Hle.
Qed.

Lemma cleanupExpiredEntries_idempotent_witness :
  let stores : gmap string RateLimit.RateLimitEntry *
               gmap string RateLimit.AccountLockoutEntry :=
    ({[ "ip:LOGIN:1.2.3.4"%string :=
          {| RateLimit.count := 6; RateLimit.windowStart := 1762128000000;
             RateLimit.blockedUntil := Some 1762128900000 |} ]},
     {[ "a@example.com"%string :=
          {| RateLimit.failedAttempts := 2; RateLimit.lastFailure := 1762128000000;
             RateLimit.lockedUntil := None |} ]}) in
  RateLimit.cleanupExpiredEntries 1762129000000
    (RateLimit.cleanupExpiredEntries 1762129000000 stores) =
  RateLimit.cleanupExpiredEntries 1762129000000 stores.
Proof.
  intros stores. apply cleanupExpiredEntries_idempotent. lia.
Defined.

(** X5. Cleanup never lets anyone back in early.  After a run of
    [cleanupExpiredEntries], [isAccountLocked] answers at any later clock
    reading what it would have answered without the run, and a key whose
    block is still in force is still refused, with the same reset time. *)
Theorem cleanupExpiredEntries_keeps_locks_and_blocks :
  forall (t now : Z)
         (stores : gmap string RateLimit.RateLimitEntry *
                   gmap string RateLimit.AccountLockoutEntry),
    t <= now ->
    (forall email,
       fst (RateLimit.isAccountLocked now email
              (snd (RateLimit.cleanupExpiredEntries t stores))) =
       fst (RateLimit.isAccountLocked now email (snd stores))) /\
    (forall key rule e b,
       fst stores !! key = Some e ->
       RateLimit.blockedUntil e = Some b -> b <> 0 -> now < b ->
       fst (RateLimit.isRateLimited now key rule
              (fst (RateLimit.cleanupExpiredEntries t stores))) =
         {| RateLimit.limited := true; RateLimit.resetTime := Some b;
            RateLimit.remaining := None |}).
Proof.
  intros t now [limits locks] Hle. unfold RateLimit.cleanupExpiredEntries. simpl.
  split.
  - intros email. unfold RateLimit.isAccountLocked.
    rewrite map_lookup_filter.
    destruct (locks !! email) as [e|]; [|reflexivity]. simpl.
    case_guard as Hexp; simpl.
    { destruct (negb (truthyZ (RateLimit.lockedUntil e))); [reflexivity|].
      now destruct (now >=? default 0 (RateLimit.lockedUntil e)). }
    apply not_false_is_true in Hexp.
    unfold RateLimit.lockoutEntryExpired in Hexp.
    destruct (truthyZ (RateLimit.lockedUntil e)); [|reflexivity]. simpl.
    apply Z.gtb_lt in Hexp.
    destruct (Z.geb_spec now (default 0 (RateLimit.lockedUntil e)));
      [reflexivity | lia].
  - intros key rule e b He Hb Hnz Hlt.
    assert (Hkept : filter (fun kv : string * RateLimit.RateLimitEntry =>
                              RateLimit.rateLimitEntryExpired t (snd kv) = false)
                           limits !! key = Some e).
    { apply map_lookup_filter_Some. split; [exact He|]. simpl.
      unfold RateLimit.rateLimitEntryExpired. rewrite Hb. simpl.
      destruct (Z.eqb_spec b 0); [contradiction|]. simpl.
      rewrite Z.gtb_ltb, Z.ltb_ge. lia. }
    unfold RateLimit.isRateLimited. rewrite Hkept, Hb. simpl.
    destruct (Z.eqb_spec b 0); [contradiction|]. simpl.
    destruct (Z.ltb_spec now b); [reflexivity | lia].
Qed.

Lemma cleanupExpiredEntries_keeps_locks_and_blocks_witness :
  let stores : gmap string RateLimit.RateLimitEntry *
               gmap string RateLimit.AccountLockoutEntry :=
    ({[ "ip:LOGIN:1.2.3.4"%string :=
          {| RateLimit.count := 6; RateLimit.windowStart := 1762128000000;
             RateLimit.blockedUntil := Some 1762128900000 |} ]},
     {[ "a@example.com"%string :=
          {| RateLimit.failedAttempts := 5; RateLimit.lastFailure := 1762128000000;
             RateLimit.lockedUntil := Some 1762129800000 |} ]}) in
  RateLimit.isLocked
    (fst (RateLimit.isAccountLocked 1762128800000 "a@example.com"
            (snd (RateLimit.cleanupExpiredEntries 1762128700000 stores)))) = true /\
  RateLimit.limited
    (fst (RateLimit.isRateLimited 1762128800000 "ip:LOGIN:1.2.3.4"
            (RateLimit.RATE_LIMIT_RULES RateLimit.LOGIN)
            (fst (RateLimit.cleanupExpiredEntries 1762128700000 stores)))) = true.
Proof.
  intros stores.
  destruct (cleanupExpiredEntries_keeps_locks_and_blocks
              1762128700000 1762128800000 stores ltac:(lia)) as [Hlocks Hblocks].
  split.
  - rewrite Hlocks. vm_compute. reflexivity.
  - erewrite Hblocks; [reflexivity | apply lookup_singleton_eq | reflexivity | lia | lia].
Defined.

(** ** Locks *)

Lemma calls_recordFailedLogin_locked (email : string) (until : Z) (ts : list Z) :
  forall (store : gmap string RateLimit.AccountLockoutEntry)
         (e : RateLimit.AccountLockoutEntry) (v : Z),
    store !! email = Some e ->
    RateLimit.lockedUntil e = Some v -> until <= v ->
    Forall (fun t => until <= t + RateLimit.lockoutDurationMs) ts ->
    exists e' v',
      snd (calls (fun t => RateLimit.recordFailedLogin t email) ts store) !! email
        = Some e' /\
      RateLimit.lockedUntil e' = Some v' /\ until <= v'.
Proof.
  induction ts as [|t ts IH]; intros store e v He Hv Hle Hall.
  - exists e, v. now repeat split.
  - apply Forall_cons in Hall as [Ht Hall]. cbn [calls].
    assert (Hstep : exists e1 v1,
              snd (RateLimit.recordFailedLogin t email store) !! email = Some e1 /\
              RateLimit.lockedUntil e1 = Some v1 /\ until <= v1).
    { unfold RateLimit.recordFailedLogin. rewrite He. simpl.
      destruct (_ >=? RateLimit.maxFailedAttempts); simpl;
        rewrite lookup_insert_eq; eexists _, _;
        (split; [reflexivity | split; [simpl; first [reflexivity | eassumption] | lia]]). }
    destruct Hstep as (e1 & v1 & He1 & Hv1 & Hle1).
    destruct (RateLimit.recordFailedLogin t email store) as [r store1].
    simpl in He1.
    destruct (IH store1 e1 v1 He1 Hv1 Hle1 Hall) as (e' & v' & He' & Hv' & Hle').
    destruct (calls (fun t => RateLimit.recordFailedLogin t email) ts store1)
      as [rs final].
    exists e', v'. now repeat split.
Qed.

(** X6. Failures recorded while an account is locked never unlock it: they
    leave the end of the lock where it is or move it later, so that
    [isAccountLocked] still answers locked, and changes nothing, at every
    time before the original end.  (Each failure is recorded no earlier
    than [lockoutDurationMs] before that end, as every failure after the
    lock was set is.) *)
Theorem lock_outlasts_failures :
  forall (email : string) (ts : list Z)
         (store : gmap string RateLimit.AccountLockoutEntry)
         (e : RateLimit.AccountLockoutEntry) (until now : Z),
    store !! email = Some e ->
    RateLimit.lockedUntil e = Some until ->
    0 <= now < until ->
    Forall (fun t => until <= t + RateLimit.lockoutDurationMs) ts ->
    let store' := snd (calls (fun t => RateLimit.recordFailedLogin t email) ts store) in
    exists until',
      until <= until' /\
      RateLimit.isAccountLocked now email store' =
        ({| RateLimit.isLocked := true; RateLimit.lockedUntilStatus := Some until' |},
         store').
Proof.
  intros email ts store e until now He Hu Hnow Hall store'.
  destruct (calls_recordFailedLogin_locked email until ts store e until He Hu
              ltac:(lia) Hall) as (e' & v' & He' & Hv' & Hle').
  exists v'. split; [exact Hle'|].
  subst store'. unfold RateLimit.isAccountLocked. rewrite He', Hv'. simpl.
  destruct (Z.eqb_spec v' 0); [lia|]. simpl.
  destruct (Z.geb_spec now v'); [lia | reflexivity].
Qed.

Lemma lock_outlasts_failures_witness :
  let locked : gmap string RateLimit.AccountLockoutEntry :=
    {[ "a@example.com"%string :=
         {| RateLimit.failedAttempts := 5; RateLimit.lastFailure := 1762128000000;
            RateLimit.lockedUntil := Some 1762129800000 |} ]} in
  exists until',
    RateLimit.isAccountLocked 1762129700000 "a@example.com"
      (snd (calls (fun t => RateLimit.recordFailedLogin t "a@example.com")
              [1762128100000; 1762129200000] locked)) =
      ({| RateLimit.isLocked := true; RateLimit.lockedUntilStatus := Some until' |},
       snd (calls (fun t => RateLimit.recordFailedLogin t "a@example.com")
              [1762128100000; 1762129200000] locked)).
Proof.
  intros locked.
  destruct (lock_outlasts_failures "a@example.com" [1762128100000; 1762129200000]
              locked _ 1762129800000 1762129700000
              (lookup_singleton_eq _ _) eq_refl ltac:(lia))
    as (until' & _ & H).
  - repeat constructor; unfold RateLimit.lockoutDurationMs; lia.
  - exists until'. exact H.
Defined.

(** After [clearFailedLogins] an identity starts afresh. *)
Lemma clearFailedLogins_fresh (email : string)
    (store : gmap string RateLimit.AccountLockoutEntry) (now now' : Z) :
  let store' := RateLimit.clearFailedLogins email store in
  RateLimit.isAccountLocked now email store' =
    ({| RateLimit.isLocked := false; RateLimit.lockedUntilStatus := None |},
     store') /\
  fst (RateLimit.recordFailedLogin now' email store') =
    {| RateLimit.locked := false; RateLimit.lockedUntilResult := None;
       RateLimit.attemptsRemaining := Some 4 |}.
Proof.
  intros store'. subst store'. unfold RateLimit.clearFailedLogins.
  destruct (store !! email) as [e|] eqn:He; split.
  - unfold RateLimit.isAccountLocked. now rewrite lookup_insert_eq.
  - unfold RateLimit.recordFailedLogin. rewrite lookup_insert_eq. simpl.
    now destruct (now' - RateLimit.lastFailure e >? RateLimit.failureWindowMs).
  - unfold RateLimit.isAccountLocked. now rewrite He.
  - unfold RateLimit.recordFailedLogin. rewrite He. simpl.
    now destruct (now' - 0 >? RateLimit.failureWindowMs).
Qed.

(** X7. [clearFailedLogins] wipes the slate of an identity and of no
    other: afterwards [isAccountLocked] answers not locked and changes
    nothing, the next failure is counted as the first (4 attempts
    remaining), and an identity without an entry gets none. *)
Theorem clearFailedLogins_resets :
  forall (email : string) (store : gmap string RateLimit.AccountLockoutEntry)
         (now now' : Z),
    let store' := RateLimit.clearFailedLogins email store in
    RateLimit.isAccountLocked now email store' =
      ({| RateLimit.isLocked := false; RateLimit.lockedUntilStatus := None |},
       store') /\
    fst (RateLimit.recordFailedLogin now' email store') =
      {| RateLimit.locked := false; RateLimit.lockedUntilResult := None;
         RateLimit.attemptsRemaining := Some 4 |} /\
    (store !! email = None -> store' = store) /\
    (forall other, other <> email -> store' !! other = store !! other).
Proof.
  intros email store now now' store'.
  destruct (clearFailedLogins_fresh email store now now') as [Hlocked Hnext].
  split; [exact Hlocked | split; [exact Hnext|]].
  subst store'. unfold RateLimit.clearFailedLogins.
  destruct (store !! email) as [e|] eqn:He; split; try reflexivity.
  - discriminate.
  - intros other Hne. now apply lookup_insert_ne.
Qed.

(** ** The credentials check *)

Section Authorize.
Import RateLimit Auth.
Variables (findUnique : string -> option User) (compare : string -> string -> bool).

(** An attempt on an account that is not locked, with no such user or with
    a wrong password, records a failure and is turned down. *)
Lemma authorize_failure (nowLocked nowFailed : Z) (email0 password0 : string)
    (store : gmap string AccountLockoutEntry) :
  nonEmpty email0 = true -> nonEmpty password0 = true ->
  isAccountLocked nowLocked email0 store =
    ({| isLocked := false; lockedUntilStatus := None |}, store) ->
  (truthyS (findUnique email0 ≫= userPassword) = false \/
   compare password0 (default "" (findUnique email0 ≫= userPassword)) = false) ->
  authorize findUnique compare nowLocked nowFailed
    (Some {| email := Some email0; password := Some password0 |}) store =
    (None, snd (recordFailedLogin nowFailed email0 store)).
Proof.
  intros He Hp Hlock Hbad. unfold authorize. simpl. rewrite He, Hp, Hlock. simpl.
  destruct (truthyS (findUnique email0 ≫= userPassword)) eqn:Hpw; simpl;
    [|reflexivity].
  destruct Hbad as [Hbad | Hbad]; [discriminate|]. now rewrite Hbad.
Qed.

(** An identity whose entry carries no lock is not locked. *)
Lemma isAccountLocked_unlocked (now : Z) (email0 : string)
    (store : gmap string AccountLockoutEntry) :
  (forall e, store !! email0 = Some e -> lockedUntil e = None) ->
  isAccountLocked now email0 store =
    ({| isLocked := false; lockedUntilStatus := None |}, store).
Proof.
  intros H. unfold isAccountLocked.
  destruct (store !! email0) as [e|]; [|reflexivity]. now rewrite (H e eq_refl).
Qed.

(** The next failure of a run that stays below the threshold. *)
Lemma recordFailedLogin_next (now : Z) (email0 : string)
    (store : gmap string AccountLockoutEntry) (e : AccountLockoutEntry) :
  store !! email0 = Some e ->
  now - lastFailure e <= failureWindowMs ->
  failedAttempts e + 1 < maxFailedAttempts ->
  snd (recordFailedLogin now email0 store) =
    <[email0 := {| failedAttempts := failedAttempts e + 1; lastFailure := now;
                   lockedUntil := lockedUntil e |}]> store.
Proof.
  intros He Hw Hn. unfold recordFailedLogin. rewrite He. simpl.
  destruct (Z.gtb_spec (now - lastFailure e) failureWindowMs); [lia|].
  destruct (Z.geb_spec (failedAttempts e + 1) maxFailedAttempts); [lia|].
  reflexivity.
Qed.

Lemma recordFailedLogin_first (now : Z) (email0 : string)
    (store : gmap string AccountLockoutEntry) :
  store !! email0 = None ->
  snd (recordFailedLogin now email0 store) =
    <[email0 := {| failedAttempts := 1; lastFailure := now;
                   lockedUntil := None |}]> store.
Proof.
  intros He. unfold recordFailedLogin. rewrite He. simpl.
  now destruct (now - 0 >? failureWindowMs).
Qed.

End Authorize.

(** X8. Turning down an attempt gives nothing away about the account.  For
    an account that is not locked, an attempt on an address that has no
    user (or a user without a password) and an attempt with a wrong
    password on an existing user have the same outcome: [null], and the
    same failure recorded against the address. *)
Theorem authorize_anti_enumeration :
  forall (findUnique findUnique' : string -> option Auth.User)
         (compare compare' : string -> string -> bool)
         (nowLocked nowFailed : Z) (email password : string)
         (store : gmap string RateLimit.AccountLockoutEntry)
         (user : Auth.User) (hash : string),
    nonEmpty email = true -> nonEmpty password = true ->
    RateLimit.isLocked (fst (RateLimit.isAccountLocked nowLocked email store)) = false ->
    truthyS (findUnique email ≫= Auth.userPassword) = false ->
    findUnique' email = Some user ->
    Auth.userPassword user = Some hash -> nonEmpty hash = true ->
    compare' password hash = false ->
    let credentials :=
      Some {| Auth.email := Some email; Auth.password := Some password |} in
    Auth.authorize findUnique compare nowLocked nowFailed credentials store =
      Auth.authorize findUnique' compare' nowLocked nowFailed credentials store /\
    fst (Auth.authorize findUnique compare nowLocked nowFailed credentials store) = None /\
    snd (Auth.authorize findUnique compare nowLocked nowFailed credentials store) =
      snd (RateLimit.recordFailedLogin nowFailed email
             (snd (RateLimit.isAccountLocked nowLocked email store))).
Proof.
  intros findUnique findUnique' compare compare' nowLocked nowFailed email password
         store user hash He Hp Hlock Hmissing Huser Hhash Hne Hwrong credentials.
  subst credentials. unfold Auth.authorize. simpl. rewrite He, Hp. simpl.
  destruct (RateLimit.isAccountLocked nowLocked email store) as [status store1].
  simpl in Hlock. rewrite Hlock, Hmissing, Huser. simpl.
  rewrite Hhash. simpl. rewrite Hne, Hwrong. simpl. now repeat split.
Qed.

Lemma authorize_anti_enumeration_witness :
  let noUser : string -> option Auth.User := fun _ => None in
  let user := {| Auth.userId := "u1"; Auth.userEmail := "a@example.com";
                 Auth.userName := Some "A"%string;
                 Auth.userPassword := Some "$2a$12$hash"%string |} in
  let oneUser : string -> option Auth.User :=
    fun e => if String.eqb e "a@example.com" then Some user else None in
  let compare : string -> string -> bool := fun p _ => String.eqb p "Str0ng!pass" in
  let credentials :=
    Some {| Auth.email := Some "a@example.com"%string;
            Auth.password := Some "guess"%string |} in
  Auth.authorize noUser compare 1762128000000 1762128000001 credentials ∅ =
  Auth.authorize oneUser compare 1762128000000 1762128000001 credentials ∅.
Proof.
  intros noUser user oneUser compare credentials.
  apply (authorize_anti_enumeration noUser oneUser compare compare
           1762128000000 1762128000001 "a@example.com" "guess" ∅ user "$2a$12$hash");
    reflexivity.
Defined.

(** X9. An attempt on a locked account is turned down without a look at
    the user table or the password, and without a trace: the right
    password does not get in, nothing is recorded and the lock is not
    extended. *)
Theorem authorize_locked :
  forall (findUnique : string -> option Auth.User)
         (compare : string -> string -> bool)
         (nowLocked nowFailed : Z) (email password : string)
         (store : gmap string RateLimit.AccountLockoutEntry)
         (e : RateLimit.AccountLockoutEntry) (until : Z),
    store !! email = Some e ->
    RateLimit.lockedUntil e = Some until -> until <> 0 -> nowLocked < until ->
    Auth.authorize findUnique compare nowLocked nowFailed
      (Some {| Auth.email := Some email; Auth.password := Some password |}) store =
      (None, store).
Proof.
  intros findUnique compare nowLocked nowFailed email password store e until
         He Hu Hnz Hlt.
  unfold Auth.authorize.
  destruct email as [|c email']; [reflexivity|].
  destruct password as [|c' password']; [reflexivity|].
  simpl. unfold RateLimit.isAccountLocked. rewrite He, Hu. simpl.
  destruct (Z.eqb_spec until 0); [contradiction|]. simpl.
  destruct (Z.geb_spec nowLocked until); [lia | reflexivity].
Qed.

Lemma authorize_locked_witness :
  let user := {| Auth.userId := "u1"; Auth.userEmail := "a@example.com";
                 Auth.userName := None;
                 Auth.userPassword := Some "$2a$12$hash"%string |} in
  let locked : gmap string RateLimit.AccountLockoutEntry :=
    {[ "a@example.com"%string :=
         {| RateLimit.failedAttempts := 5; RateLimit.lastFailure := 1762128000000;
            RateLimit.lockedUntil := Some 1762129800000 |} ]} in
  Auth.authorize (fun _ => Some user) (fun _ _ => true) 1762129000000 1762129000001
    (Some {| Auth.email := Some "a@example.com"%string;
             Auth.password := Some "Str0ng!pass"%string |}) locked = (None, locked).
Proof.
  intros user locked.
  apply (authorize_locked _ _ 1762129000000 1762129000001 "a@example.com"
           "Str0ng!pass" locked _ 1762129800000 (lookup_singleton_eq _ _) eq_refl);
    lia.
Defined.

Section BruteForce.
Import RateLimit Auth.
Variables (findUnique : string -> option User) (compare : string -> string -> bool).
Variables (email0 hash : string) (user : User).
Hypothesis Hemail : nonEmpty email0 = true.
Hypothesis Huser : findUnique email0 = Some user.
Hypothesis Hhash : userPassword user = Some hash.
Hypothesis Hnonempty : nonEmpty hash = true.

(** A wrong password on the account, while it carries no lock. *)
Lemma attempt_wrong (a : Attempt) (store : gmap string AccountLockoutEntry) :
  atEmail a = email0 -> nonEmpty (atPassword a) = true ->
  compare (atPassword a) hash = false ->
  (forall e, store !! email0 = Some e -> lockedUntil e = None) ->
  attempt findUnique compare a store =
    (None, snd (recordFailedLogin (atNowFailed a) email0 store)).
Proof.
  intros Ha Hp Hwrong Hunlocked. unfold attempt. rewrite Ha.
  apply authorize_failure; auto using isAccountLocked_unlocked.
  right. rewrite Huser. simpl. rewrite Hhash. exact Hwrong.
Qed.

End BruteForce.

(** X10. Five wrong passwords in a row lock the right one out.  On an
    account without recorded failures, after five attempts with wrong
    passwords, each within [failureWindowMs] of the one before, an attempt
    with the right password is turned down as long as the lock lasts
    ([lockoutDurationMs] from the fifth failure), and leaves no trace. *)
Theorem authorize_brute_force_lockout :
  forall (findUnique : string -> option Auth.User)
         (compare : string -> string -> bool)
         (email hash good : string) (user : Auth.User)
         (a1 a2 a3 a4 a5 : Attempt) (nowLocked nowFailed : Z)
         (store : gmap string RateLimit.AccountLockoutEntry),
    nonEmpty email = true ->
    findUnique email = Some user ->
    Auth.userPassword user = Some hash -> nonEmpty hash = true ->
    compare good hash = true ->
    store !! email = None ->
    Forall (fun a => atEmail a = email /\ nonEmpty (atPassword a) = true /\
                     compare (atPassword a) hash = false) [a1; a2; a3; a4; a5] ->
    atNowFailed a2 - atNowFailed a1 <= RateLimit.failureWindowMs ->
    atNowFailed a3 - atNowFailed a2 <= RateLimit.failureWindowMs ->
    atNowFailed a4 - atNowFailed a3 <= RateLimit.failureWindowMs ->
    atNowFailed a5 - atNowFailed a4 <= RateLimit.failureWindowMs ->
    0 <= nowLocked < atNowFailed a5 + RateLimit.lockoutDurationMs ->
    let '(results, store') :=
      calls (attempt findUnique compare) [a1; a2; a3; a4; a5] store in
    results = [None; None; None; None; None] /\
    Auth.authorize findUnique compare nowLocked nowFailed
      (Some {| Auth.email := Some email; Auth.password := Some good |}) store' =
      (None, store').
Proof.
  intros findUnique compare email hash good user a1 a2 a3 a4 a5 nowLocked nowFailed
         store Hemail Huser Hhash Hne Hgood Hfresh Hall H2 H3 H4 H5 Hnow.
  repeat (apply Forall_cons in Hall as [(? & ? & ?) Hall]).
  cbn [calls].
  (* first failure *)
  rewrite (attempt_wrong findUnique compare email hash user Hemail Huser Hhash a1 store)
    by (auto; intros e He; congruence).
  rewrite (recordFailedLogin_first (atNowFailed a1) email store Hfresh).
  set (s1 := <[email := _]> store).
  (* second to fourth failure *)
  rewrite (attempt_wrong findUnique compare email hash user Hemail Huser Hhash a2 s1)
    by (auto; unfold s1; intros e He; rewrite lookup_insert_eq in He;
        now injection He as <-).
  erewrite (recordFailedLogin_next (atNowFailed a2) email s1)
    by (first [apply lookup_insert_eq | simpl; unfold RateLimit.maxFailedAttempts; lia]).
  simpl RateLimit.failedAttempts. simpl RateLimit.lockedUntil.
  set (s2 := <[email := _]> s1).
  rewrite (attempt_wrong findUnique compare email hash user Hemail Huser Hhash a3 s2)
    by (auto; unfold s2; intros e He; rewrite lookup_insert_eq in He;
        now injection He as <-).
  erewrite (recordFailedLogin_next (atNowFailed a3) email s2)
    by (first [apply lookup_insert_eq | simpl; unfold RateLimit.maxFailedAttempts; lia]).
  simpl RateLimit.failedAttempts. simpl RateLimit.lockedUntil.
  set (s3 := <[email := _]> s2).
  rewrite (attempt_wrong findUnique compare email hash user Hemail Huser Hhash a4 s3)
    by (auto; unfold s3; intros e He; rewrite lookup_insert_eq in He;
        now injection He as <-).
  erewrite (recordFailedLogin_next (atNowFailed a4) email s3)
    by (first [apply lookup_insert_eq | simpl; unfold RateLimit.maxFailedAttempts; lia]).
  simpl RateLimit.failedAttempts. simpl RateLimit.lockedUntil.
  set (s4 := <[email := _]> s3).
  (* the fifth failure locks *)
  rewrite (attempt_wrong findUnique compare email hash user Hemail Huser Hhash a5 s4)
    by (auto; unfold s4; intros e He; rewrite lookup_insert_eq in He;
        now injection He as <-).
  erewrite (recordFailedLogin_locks (atNowFailed a5) email s4)
    by (first [apply lookup_insert_eq | simpl; unfold RateLimit.maxFailedAttempts; lia]).
  simpl. split; [reflexivity|].
  eapply authorize_locked; [apply lookup_insert_eq | reflexivity | lia | lia].
Qed.

Lemma authorize_brute_force_lockout_witness :
  let user := {| Auth.userId := "u1"; Auth.userEmail := "a@example.com";
                 Auth.userName := None;
                 Auth.userPassword := Some "$2a$12$hash"%string |} in
  let compare : string -> string -> bool := fun p _ => String.eqb p "Str0ng!pass" in
  let guess n := {| atNowLocked := 1762128000000 + n; atNowFailed := 1762128000001 + n;
                    atEmail := "a@example.com"; atPassword := "guess" |} in
  let store' :=
    snd (calls (attempt (fun _ => Some user) compare)
           [guess 0; guess 1000; guess 2000; guess 3000; guess 4000] ∅) in
  Auth.authorize (fun _ => Some user) compare 1762128010000 1762128010001
    (Some {| Auth.email := Some "a@example.com"%string;
             Auth.password := Some "Str0ng!pass"%string |}) store' = (None, store').
Proof.
  intros user compare guess store'.
  pose proof (authorize_brute_force_lockout (fun _ => Some user) compare
                "a@example.com" "$2a$12$hash" "Str0ng!pass" user
                (guess 0) (guess 1000) (guess 2000) (guess 3000) (guess 4000)
                1762128010000 1762128010001 ∅
                eq_refl eq_refl eq_refl eq_refl eq_refl (lookup_empty _)) as H.
  unfold store'.
  destruct (calls (attempt (fun _ => Some user) compare) _ ∅) as [results final].
  apply H.
  - repeat constructor.
  - simpl. unfold RateLimit.failureWindowMs. lia.
  - simpl. unfold RateLimit.failureWindowMs. lia.
  - simpl. unfold RateLimit.failureWindowMs. lia.
  - simpl. unfold RateLimit.failureWindowMs. lia.
  - simpl. unfold RateLimit.lockoutDurationMs. lia.
Defined.

(** X11. A successful attempt clears the record of the account.  When the
    account is not locked and the password matches, [authorize] returns the
    id, e-mail address and name of the user, and afterwards the account is
    not locked and the next failure is counted as the first. *)
Theorem authorize_success_clears :
  forall (findUnique : string -> option Auth.User)
         (compare : string -> string -> bool)
         (nowLocked nowFailed now now' : Z) (email password hash : string)
         (user : Auth.User) (store : gmap string RateLimit.AccountLockoutEntry),
    nonEmpty email = true -> nonEmpty password = true ->
    RateLimit.isLocked (fst (RateLimit.isAccountLocked nowLocked email store)) = false ->
    findUnique email = Some user ->
    Auth.userPassword user = Some hash -> nonEmpty hash = true ->
    compare password hash = true ->
    let '(result, store') :=
      Auth.authorize findUnique compare nowLocked nowFailed
        (Some {| Auth.email := Some email; Auth.password := Some password |}) store in
    result = Some {| Auth.id := Auth.userId user;
                     Auth.authorizedEmail := Auth.userEmail user;
                     Auth.name := Auth.userName user |} /\
    RateLimit.isLocked (fst (RateLimit.isAccountLocked now email store')) = false /\
    fst (RateLimit.recordFailedLogin now' email store') =
      {| RateLimit.locked := false; RateLimit.lockedUntilResult := None;
         RateLimit.attemptsRemaining := Some 4 |}.
Proof.
  intros findUnique compare nowLocked nowFailed now now' email password hash user
         store He Hp Hlock Huser Hhash Hne Hgood.
  unfold Auth.authorize. simpl. rewrite He, Hp. simpl.
  destruct (RateLimit.isAccountLocked nowLocked email store) as [status store1].
  simpl in Hlock. rewrite Hlock, Huser. simpl. rewrite Hhash. simpl.
  rewrite Hne, Hgood. simpl.
  destruct (clearFailedLogins_fresh email store1 now now') as [Hlocked Hnext].
  split; [reflexivity|]. split; [now rewrite Hlocked | exact Hnext].
Qed.

Lemma authorize_success_clears_witness :
  let user := {| Auth.userId := "u1"; Auth.userEmail := "a@example.com";
                 Auth.userName := Some "A"%string;
                 Auth.userPassword := Some "$2a$12$hash"%string |} in
  let failed : gmap string RateLimit.AccountLockoutEntry :=
    {[ "a@example.com"%string :=
         {| RateLimit.failedAttempts := 4; RateLimit.lastFailure := 1762128000000;
            RateLimit.lockedUntil := None |} ]} in
  let '(result, store') :=
    Auth.authorize (fun _ => Some user) (fun _ _ => true) 1762128001000 1762128001001
      (Some {| Auth.email := Some "a@example.com"%string;
               Auth.password := Some "Str0ng!pass"%string |}) failed in
  RateLimit.attemptsRemaining
    (fst (RateLimit.recordFailedLogin 1762128002000 "a@example.com" store')) = Some 4.
Proof.
  intros user failed.
  pose proof (authorize_success_clears (fun _ => Some user) (fun _ _ => true)
                1762128001000 1762128001001 1762128002000 1762128002000
                "a@example.com" "Str0ng!pass" "$2a$12$hash" user failed
                eq_refl eq_refl) as H.
  destruct (Auth.authorize _ _ _ _ _ failed) as [result store'].
  destruct H as (_ & _ & Hnext); try reflexivity.
  now rewrite Hnext.
Defined.

(** ** The password policy *)

Section Password.
Import PasswordPolicy.

Lemma special_lowerChar (c : ascii) : special c = true -> lowerChar c = c.
Proof.
  destruct c as [[] [] [] [] [] [] [] []]; vm_compute; intros H;
    first [reflexivity | discriminate].
Qed.

Lemma testClass_special_toLowerCase (p : string) :
  testClass special p = true -> testClass special (toLowerCase p) = true.
Proof.
  induction p as [|c p IH]; simpl; [discriminate|].
  intros H. apply orb_prop in H as [H | H].
  - rewrite (special_lowerChar c H), H. reflexivity.
  - rewrite (IH H). apply orb_true_r.
Qed.

(** No common password contains a special character, so no password that
    contains one is on the list, in whatever case it is written. *)
Lemma special_not_weak (p : string) :
  testClass special p = true ->
  existsb (String.eqb (toLowerCase p)) WEAK_PASSWORDS = false.
Proof.
  intros H. apply testClass_special_toLowerCase in H.
  apply not_true_is_false. intros Hw.
  apply existsb_exists in Hw as (w & Hin & Heq).
  apply String.eqb_eq in Heq. rewrite Heq in H.
  unfold WEAK_PASSWORDS in Hin. simpl in Hin.
  repeat (destruct Hin as [<- | Hin]; [vm_compute in H; discriminate|]).
  exact Hin.
Qed.

(** The list of errors is empty exactly for the passwords that meet the
    five requirements on length and character classes. *)
Lemma validatePassword_errors_nil (p : string) :
  errors (validatePassword p) = [] <->
  (8 <= strlen p <= 100 /\
   testClass upper p = true /\ testClass lower p = true /\
   testClass digitClass p = true /\ testClass special p = true).
Proof.
  unfold validatePassword. cbn [errors].
  split.
  - destruct (Z.ltb_spec (strlen p) 8); [discriminate|].
    destruct (testClass upper p); [|discriminate].
    destruct (testClass lower p); [|discriminate].
    destruct (testClass digitClass p); [|discriminate].
    destruct (testClass special p); [|discriminate].
    destruct (existsb (String.eqb (toLowerCase p)) WEAK_PASSWORDS); [discriminate|].
    destruct (Z.gtb_spec (strlen p) 100); [discriminate|].
    intros _. repeat split; lia.
  - intros ([Hlo Hhi] & Hu & Hl & Hd & Hs).
    rewrite (special_not_weak p Hs), Hu, Hl, Hd, Hs.
    destruct (Z.ltb_spec (strlen p) 8); [lia|].
    destruct (Z.gtb_spec (strlen p) 100); [lia|].
    reflexivity.
Qed.

Lemma validatePassword_isValid (p : string) :
  isValid (validatePassword p) =
    match errors (validatePassword p) with [] => true | _ :: _ => false end.
Proof. reflexivity. Qed.

End Password.

(** X12. A password is valid exactly when it has 8 to 100 characters and
    contains an upper-case letter, a lower-case letter, a digit and a
    special character.  The list of common passwords never decides: none
    of its entries contains a special character. *)
Theorem validatePassword_valid_iff :
  forall (password : string),
    PasswordPolicy.isValid (PasswordPolicy.validatePassword password) = true <->
    (8 <= PasswordPolicy.strlen password <= 100 /\
     PasswordPolicy.testClass PasswordPolicy.upper password = true /\
     PasswordPolicy.testClass PasswordPolicy.lower password = true /\
     PasswordPolicy.testClass PasswordPolicy.digitClass password = true /\
     PasswordPolicy.testClass PasswordPolicy.special password = true).
Proof.
  intros password. rewrite <- validatePassword_errors_nil.
  rewrite validatePassword_isValid.
  destruct (PasswordPolicy.errors _); split; intros H;
    first [reflexivity | discriminate].
Qed.

(** X13. The strength grade follows validity and length alone: an invalid
    password is graded weak, a valid one strong when it has at least 12
    characters and medium otherwise; a valid password is never weak. *)
Theorem validatePassword_strength :
  forall (password : string),
    let result := PasswordPolicy.validatePassword password in
    PasswordPolicy.strength result =
      if PasswordPolicy.isValid result
      then if PasswordPolicy.strlen password >=? 12
           then PasswordPolicy.strong else PasswordPolicy.medium
      else PasswordPolicy.weak.
Proof.
  intros password result. subst result.
  rewrite validatePassword_isValid.
  pose proof (proj1 (validatePassword_errors_nil password)) as Hnil.
  change (PasswordPolicy.strength (PasswordPolicy.validatePassword password))
    with (match PasswordPolicy.errors (PasswordPolicy.validatePassword password) with
          | [] =>
              let hasVariousChars :=
                PasswordPolicy.testClass PasswordPolicy.upper password &&
                PasswordPolicy.testClass PasswordPolicy.lower password &&
                PasswordPolicy.testClass PasswordPolicy.digitClass password &&
                PasswordPolicy.testClass PasswordPolicy.special password in
              if (PasswordPolicy.strlen password >=? 12) && hasVariousChars
              then PasswordPolicy.strong
              else if (PasswordPolicy.strlen password >=? 8) && hasVariousChars
                   then PasswordPolicy.medium else PasswordPolicy.weak
          | _ :: _ => PasswordPolicy.weak
          end).
  destruct (PasswordPolicy.errors (PasswordPolicy.validatePassword password));
    [|reflexivity].
  destruct (Hnil eq_refl) as ([Hlo Hhi] & -> & -> & -> & ->). simpl.
  destruct (Z.geb_spec (PasswordPolicy.strlen password) 12); [reflexivity|].
  destruct (Z.geb_spec (PasswordPolicy.strlen password) 8); [reflexivity | lia].
Qed.

(** ** The Redis path of the limiter *)

Lemma append_inj_r (s a b : string) : s +:+ a = s +:+ b -> a = b.
Proof. induction s as [|c s IH]; simpl; intros H; [exact H|]. injection H as H. auto. Qed.

Lemma ceilDiv_pos (w : Z) : 0 < w -> 0 < ceilDiv w 1000.
Proof.
  intros Hw. unfold ceilDiv.
  assert (- w / 1000 < 0) by (apply Z.div_lt_upper_bound; lia). lia.
Qed.

Lemma filter_all {A} (f : A -> bool) (l : list A) :
  Forall (fun x => f x = true) l -> List.filter f l = l.
Proof.
  induction 1 as [|x l Hx _ IH]; simpl; [reflexivity|]. now rewrite Hx, IH.
Qed.

Section Burst.
Import RedisRateLimit.
Variables (serverNow now nowMem : Z) (identifier prefix : string).
Variable rule : RateLimitRule.
Hypothesis Hwindow : 0 < windowMs rule.

(** The members recorded for the random values [used], newest first. *)
Lemma checkRateLimit_up_fresh (rnd : string) (used : list string) (l : Limiter)
    (srv : gmap string RedisKey) :
  redis l = Some srv ->
  live serverNow (srv !! rateLimitKey prefix identifier) =
    map (fun r => (toString now +:+ "-" +:+ r, now)) used ->
  rnd ∉ used ->
  exists srv',
    checkRateLimit (Up serverNow) now nowMem rnd identifier rule prefix l =
      ({| success := Z.of_nat (length used) + 1 <=? maxRequests rule;
          totalCount := Z.of_nat (length used) + 1;
          remainingRequests :=
            Z.max 0 (maxRequests rule - (Z.of_nat (length used) + 1));
          resetTime := now + windowMs rule |},
       {| redis := Some srv'; fallbackStore := fallbackStore l |}) /\
    live serverNow (srv' !! rateLimitKey prefix identifier) =
      map (fun r => (toString now +:+ "-" +:+ r, now)) (rnd :: used).
Proof.
  intros Hredis Hlive Hfresh. unfold checkRateLimit, pipeline.
  rewrite Hredis, Hlive.
  assert (Hkept : zremrangebyscore 0 (now - windowMs rule)
                    (map (fun r => (toString now +:+ "-" +:+ r, now)) used) =
                  map (fun r => (toString now +:+ "-" +:+ r, now)) used).
  { apply filter_all, Forall_forall. intros [m sc] Hin.
    apply list_elem_of_In, in_map_iff in Hin as (r & Hr & _).
    injection Hr as _ <-. simpl.
    destruct (Z.leb_spec now (now - windowMs rule)); [lia|].
    now rewrite andb_false_r. }
  rewrite Hkept.
  assert (Hadd : zadd now (toString now +:+ "-" +:+ rnd)
                   (map (fun r => (toString now +:+ "-" +:+ r, now)) used) =
                 map (fun r => (toString now +:+ "-" +:+ r, now)) (rnd :: used)).
  { unfold zadd. simpl. f_equal. apply filter_all, Forall_forall.
    intros [m sc] Hin. apply list_elem_of_In, in_map_iff in Hin as (r & Hr & Hin).
    injection Hr as <- _. simpl.
    destruct (String.eqb_spec (toString now +:+ "-" +:+ r)
                              (toString now +:+ "-" +:+ rnd)) as [Heq|]; [|reflexivity].
    apply append_inj_r in Heq. apply (append_inj_r "-") in Heq.
    subst r. exfalso. apply Hfresh. now apply list_elem_of_In. }
  rewrite Hadd. unfold zcard. rewrite length_map. simpl length.
  eexists. split.
  - replace (Z.of_nat (S (length used))) with (Z.of_nat (length used) + 1) by lia.
    reflexivity.
  - rewrite lookup_insert_eq. cbn [live expiresAt members].
    pose proof (ceilDiv_pos (windowMs rule) Hwindow).
    rewrite (proj2 (Z.leb_gt _ _)) by lia. reflexivity.
Qed.

Lemma calls_checkRateLimit_up (rnds : list string) :
  forall (used : list string) (l : Limiter) (srv : gmap string RedisKey),
    redis l = Some srv ->
    live serverNow (srv !! rateLimitKey prefix identifier) =
      map (fun r => (toString now +:+ "-" +:+ r, now)) used ->
    NoDup (rnds ++ used) ->
    forall (i : nat) (r : RateLimitResult),
      fst (calls (fun rnd =>
                    checkRateLimit (Up serverNow) now nowMem rnd identifier rule prefix)
             rnds l) !! i = Some r ->
      let n := Z.of_nat (length used) + Z.of_nat i + 1 in
      totalCount r = n /\
      success r = (n <=? maxRequests rule) /\
      remainingRequests r = Z.max 0 (maxRequests rule - n) /\
      resetTime r = now + windowMs rule.
Proof.
  induction rnds as [|rnd rnds IH]; intros used l srv Hredis Hlive Hnodup i r Hi;
    [discriminate|].
  simpl in Hnodup. apply NoDup_cons in Hnodup as [Hfresh Hnodup].
  cbn [calls] in Hi.
  destruct (checkRateLimit_up_fresh rnd used l srv Hredis Hlive) as (srv' & Hcall & Hlive').
  { intros Hin. apply Hfresh. apply elem_of_app. now right. }
  rewrite Hcall in Hi.
  specialize (IH (rnd :: used) {| redis := Some srv'; fallbackStore := fallbackStore l |}
                 srv' eq_refl Hlive').
  destruct (calls _ rnds _) as [rs final].
  destruct i as [|i]; simpl in Hi.
  - injection Hi as <-. simpl. rewrite Z.add_0_r. now repeat split.
  - assert (Hnodup' : NoDup (rnds ++ rnd :: used)).
    { apply NoDup_app. apply NoDup_app in Hnodup as (H1 & H2 & H3).
      split; [exact H1|]. split.
      - intros x Hx Hin. apply elem_of_cons in Hin as [-> | Hin].
        + apply Hfresh. apply elem_of_app. now left.
        + now apply (H2 x).
      - apply NoDup_cons. split; [|exact H3].
        intros Hin. apply Hfresh. apply elem_of_app. now right. }
    specialize (IH Hnodup' i r Hi). simpl in IH.
    replace (Z.of_nat (length used) + Z.of_nat (S i) + 1)
      with (Z.pos (Pos.of_succ_nat (length used)) + Z.of_nat i + 1) by lia.
    exact IH.
Qed.

End Burst.

(** X14. On the Redis path a burst is counted one by one.  When several
    requests of a key reach a working store at the same clock reading, with
    different random values, on a key that is absent or expired, the
    [i]-th of them (from 0) is counted as number [i + 1], refused ones
    included, and it is allowed exactly when [i + 1] does not exceed
    [maxRequests]. *)
Theorem checkRateLimit_redis_burst :
  forall (serverNow now nowMem : Z) (identifier prefix : string)
         (rule : RedisRateLimit.RateLimitRule) (rnds : list string)
         (l : RedisRateLimit.Limiter) (srv : gmap string RedisRateLimit.RedisKey),
    0 < RedisRateLimit.windowMs rule ->
    RedisRateLimit.redis l = Some srv ->
    RedisRateLimit.live serverNow
      (srv !! RedisRateLimit.rateLimitKey prefix identifier) = [] ->
    NoDup rnds ->
    forall (i : nat) (r : RedisRateLimit.RateLimitResult),
      fst (calls (fun rnd =>
                    RedisRateLimit.checkRateLimit (RedisRateLimit.Up serverNow)
                      now nowMem rnd identifier rule prefix)
             rnds l) !! i = Some r ->
      RedisRateLimit.totalCount r = Z.of_nat i + 1 /\
      RedisRateLimit.success r =
        (Z.of_nat i + 1 <=? RedisRateLimit.maxRequests rule) /\
      RedisRateLimit.resetTime r = now + RedisRateLimit.windowMs rule.
Proof.
  intros serverNow now nowMem identifier prefix rule rnds l srv Hw Hredis Hlive
         Hnodup i r Hi.
  destruct (calls_checkRateLimit_up serverNow now nowMem identifier prefix rule Hw
              rnds [] l srv Hredis Hlive ltac:(now rewrite app_nil_r) i r Hi)
    as (Hcount & Hsuccess & _ & Hreset).
  simpl in *. now repeat split.
Qed.

Lemma checkRateLimit_redis_burst_witness :
  let l := RedisRateLimit.RedisRateLimiter (Some "redis://localhost:6379"%string) ∅ in
  let rule := RedisRateLimit.RATE_LIMIT_RULES RedisRateLimit.auth in
  exists r,
    fst (calls (fun rnd =>
                  RedisRateLimit.checkRateLimit (RedisRateLimit.Up 1762128000000)
                    1762128000000 1762128000000 rnd "1.2.3.4" rule "dos")
           ["0.1"; "0.2"; "0.3"; "0.4"; "0.5"; "0.6"]%string l) !! 5%nat = Some r /\
    RedisRateLimit.totalCount r = 6 /\ RedisRateLimit.success r = false.
Proof.
  intros l rule. eexists. split; [vm_compute; reflexivity|].
  destruct (checkRateLimit_redis_burst 1762128000000 1762128000000 1762128000000
              "1.2.3.4" "dos" rule ["0.1"; "0.2"; "0.3"; "0.4"; "0.5"; "0.6"]%string
              l ∅) with (i := 5%nat)
    (r := {| RedisRateLimit.success := false; RedisRateLimit.totalCount := 6;
             RedisRateLimit.remainingRequests := 0;
             RedisRateLimit.resetTime := 1762128900000 |})
    as (Hcount & Hsuccess & _).
  - simpl. lia.
  - reflexivity.
  - reflexivity.
  - apply (bool_decide_unpack _). vm_compute. exact I.
  - vm_compute. reflexivity.
  - split; [exact Hcount | exact Hsuccess].
Defined.

(** ** The clean-up sweep and the locks of src/lib/redisRateLimit.ts *)

(** X15. The sweep is invisible to the fallback limiter and to the lock
    check.  After [cleanup()] at a clock reading not later than theirs,
    [checkRateLimitMemory] returns the same result and stores the same
    record for the key, and [isAccountLocked] returns the same answer and
    sends the same commands, as if the sweep had not run. *)
Theorem cleanup_transparent :
  forall (t now : Z) (identifier : string) (rule : RedisRateLimit.RateLimitRule)
         (prefix : string) (redis : option RedisRateLimit.LockReplies)
         (clock : nat -> Z) (email : string)
         (stores : gmap string RedisRateLimit.FallbackRecord *
                   gmap string RedisRateLimit.LockData),
    t <= now ->
    t <= clock 2%nat ->
    let cleaned := RedisRateLimit.cleanup t stores in
    let key := RedisRateLimit.rateLimitKey prefix identifier in
    fst (RedisRateLimit.checkRateLimitMemory now identifier rule prefix (fst cleaned)) =
      fst (RedisRateLimit.checkRateLimitMemory now identifier rule prefix (fst stores)) /\
    snd (RedisRateLimit.checkRateLimitMemory now identifier rule prefix (fst cleaned))
      !! key =
      snd (RedisRateLimit.checkRateLimitMemory now identifier rule prefix (fst stores))
      !! key /\
    fst (RedisRateLimit.isAccountLocked redis clock email (snd cleaned)) =
      fst (RedisRateLimit.isAccountLocked redis clock email (snd stores)).
Proof.
  intros t now identifier rule prefix redis clock email [fs ls] Hnow Hclock.
  simpl. repeat split.
  - unfold RedisRateLimit.checkRateLimitMemory. rewrite map_lookup_filter.
    destruct (fs !! RedisRateLimit.rateLimitKey prefix identifier) as [r|] eqn:E;
      simpl; [|reflexivity].
    case_guard as G; simpl in *;
      [destruct (now >? RedisRateLimit.recordResetTime r); reflexivity|].
    destruct (Z.gtb_spec t (RedisRateLimit.recordResetTime r)); [|congruence].
    destruct (Z.gtb_spec now (RedisRateLimit.recordResetTime r)); [reflexivity | lia].
  - unfold RedisRateLimit.checkRateLimitMemory. rewrite map_lookup_filter.
    destruct (fs !! RedisRateLimit.rateLimitKey prefix identifier) as [r|] eqn:E;
      simpl; [|now rewrite !lookup_insert_eq].
    case_guard as G; simpl in *.
    + destruct (now >? RedisRateLimit.recordResetTime r); simpl;
        now rewrite !lookup_insert_eq.
    + destruct (Z.gtb_spec t (RedisRateLimit.recordResetTime r)); [|congruence].
      destruct (Z.gtb_spec now (RedisRateLimit.recordResetTime r)); [|lia].
      simpl. now rewrite !lookup_insert_eq.
  - unfold RedisRateLimit.isAccountLocked. cbv zeta. rewrite map_lookup_filter.
    destruct (ls !! email) as [d|] eqn:E; simpl;
      [|repeat case_match; reflexivity].
    case_guard as G; simpl in *; [repeat case_match; reflexivity|].
    destruct (Z.gtb_spec t (RedisRateLimit.lockTime d + RedisRateLimit.lockDuration));
      [|congruence].
    assert (Hf : (clock 2%nat <? RedisRateLimit.lockTime d + RedisRateLimit.lockDuration)
                 = false) by (apply Z.ltb_ge; lia).
    rewrite Hf. repeat case_match; reflexivity.
Qed.

Lemma cleanup_transparent_witness :
  let fs : gmap string RedisRateLimit.FallbackRecord :=
    {[ "dos:1.2.3.4"%string :=
         {| RedisRateLimit.count := 3; RedisRateLimit.recordResetTime := 1762128000000 |} ]} in
  let ls : gmap string RedisRateLimit.LockData :=
    {[ "a@b.c"%string :=
         {| RedisRateLimit.lockTime := 1762127000000; RedisRateLimit.failures := 5 |} ]} in
  let rule := RedisRateLimit.RATE_LIMIT_RULES RedisRateLimit.auth in
  fst (RedisRateLimit.cleanup 1762128000001 (fs, ls)) = ∅ /\
  fst (RedisRateLimit.checkRateLimitMemory 1762128000002 "1.2.3.4" rule "dos"
         (fst (RedisRateLimit.cleanup 1762128000001 (fs, ls)))) =
    fst (RedisRateLimit.checkRateLimitMemory 1762128000002 "1.2.3.4" rule "dos" fs).
Proof.
  intros fs ls rule. split; [vm_compute; reflexivity|].
  apply (cleanup_transparent 1762128000001 1762128000002 "1.2.3.4" rule "dos" None
           (fun _ => 1762128000002) "a@b.c" (fs, ls)); lia.
Defined.

Section FallbackLocks.
Import RedisRateLimit.

(** A call of [recordFailedLogin] that ends in the in-memory fallback:
    there is no connection, or the pipeline is rejected. *)
Lemma recordFailedLogin_fallback (redis : option LockReplies) (clock : nat -> Z)
    (email : string) (lockStore : gmap string LockData) :
  match redis with None => True | Some replies => exec replies = Rejects end ->
  let lockData := default {| lockTime := 0; failures := 0 |} (lockStore !! email) in
  fst (fst (recordFailedLogin redis clock email lockStore)) =
    {| locked := failures lockData + 1 >=? maxAttempts;
       remainingTime :=
         if failures lockData + 1 >=? maxAttempts then Some lockDuration else None |} /\
  snd (recordFailedLogin redis clock email lockStore) =
    <[email := {| lockTime := if failures lockData + 1 >=? maxAttempts
                              then clock 1%nat else lockTime lockData;
                  failures := failures lockData + 1 |}]> lockStore.
Proof.
  intros Hfb. unfold recordFailedLogin.
  destruct redis as [replies|]; [rewrite Hfb|];
    destruct (failures (default _ (lockStore !! email)) + 1 >=? maxAttempts);
    split; reflexivity.
Qed.

Lemma calls_recordFailedLogin_fallback (email : string)
    (inputs : list (option LockReplies * (nat -> Z))) :
  forall (lockStore : gmap string LockData),
    Forall (fun rc => match fst rc with
                      | None => True
                      | Some replies => exec replies = Rejects
                      end) inputs ->
    forall (i : nat) (r : LockResult * list Command),
      fst (calls (fun rc => recordFailedLogin (fst rc) (snd rc) email)
             inputs lockStore) !! i = Some r ->
      locked (fst r) =
        (failures (default {| lockTime := 0; failures := 0 |} (lockStore !! email))
         + Z.of_nat i + 1 >=? maxAttempts).
Proof.
  induction inputs as [|[redis clock] inputs IH]; intros lockStore Hall i r Hi;
    [discriminate|].
  apply Forall_cons in Hall as [Hfb Hall]. simpl in Hfb.
  destruct (recordFailedLogin_fallback redis clock email lockStore Hfb) as [Hr Hs].
  cbn [calls] in Hi. simpl fst in Hi. simpl snd in Hi.
  destruct (recordFailedLogin redis clock email lockStore) as [[res sent] store'] eqn:E.
  simpl in Hr, Hs. specialize (IH store' Hall).
  destruct (calls _ inputs store') as [rs final].
  destruct i as [|i]; simpl in Hi.
  - injection Hi as <-. simpl. rewrite Hr. simpl. now rewrite Z.add_0_r.
  - specialize (IH i r Hi). rewrite IH, Hs, lookup_insert_eq. simpl.
    f_equal. lia.
Qed.

End FallbackLocks.

(** X16. On the fallback the lock counts every failure, with no time
    window.  When each [recordFailedLogin] of an account without a record
    ends in memory (no connection, or the pipeline is rejected), the
    [i]-th call (from 0) reports locked exactly when [i + 1 >= 5], whatever
    the clock readings: the fifth failure locks however long after the
    first, and every later one reports locked again. *)
Theorem recordFailedLogin_fallback_threshold :
  forall (email : string)
         (inputs : list (option RedisRateLimit.LockReplies * (nat -> Z)))
         (lockStore : gmap string RedisRateLimit.LockData),
    lockStore !! email = None ->
    Forall (fun rc => match fst rc with
                      | None => True
                      | Some replies => RedisRateLimit.exec replies = RedisRateLimit.Rejects
                      end) inputs ->
    forall (i : nat) (r : RedisRateLimit.LockResult * list RedisRateLimit.Command),
      fst (calls (fun rc => RedisRateLimit.recordFailedLogin (fst rc) (snd rc) email)
             inputs lockStore) !! i = Some r ->
      RedisRateLimit.locked (fst r) = (Z.of_nat i + 1 >=? 5).
Proof.
  intros email inputs lockStore Hnone Hall i r Hi.
  rewrite (calls_recordFailedLogin_fallback email inputs lockStore Hall i r Hi).
  rewrite Hnone. reflexivity.
Qed.

Lemma recordFailedLogin_fallback_threshold_witness :
  let day := 24 * 60 * 60 * 1000 in
  let inputs : list (option RedisRateLimit.LockReplies * (nat -> Z)) :=
    map (fun k => (None, fun _ : nat => 1762128000000 + k * day)) [0; 1; 2; 3; 4] in
  exists r,
    fst (calls (fun rc => RedisRateLimit.recordFailedLogin (fst rc) (snd rc) "a@b.c")
           inputs ∅) !! 4%nat = Some r /\
    RedisRateLimit.locked (fst r) = true.
Proof.
  intros day inputs. eexists. split; [vm_compute; reflexivity|].
  apply (recordFailedLogin_fallback_threshold "a@b.c" inputs ∅ (lookup_empty _)
           ltac:(repeat constructor) 4%nat
           ({| RedisRateLimit.locked := true;
               RedisRateLimit.remainingTime := Some RedisRateLimit.lockDuration |}, [])).
  vm_compute. reflexivity.
Defined.

(** X17. On the fallback a lock check forgets the failures of an account
    that is not locked.  With no connection, and clock readings of at
    least the lock duration (as every real clock gives), a login flow that
    calls [isAccountLocked] before each [recordFailedLogin] never locks the
    account: each check deletes the record of failures, so every failure is
    counted as the first. *)
Theorem isAccountLocked_fallback_forgets :
  forall (email : string) (clocks : list (nat -> Z))
         (lockStore : gmap string RedisRateLimit.LockData),
    lockStore !! email = None ->
    Forall (fun clock => RedisRateLimit.lockDuration <= clock 2%nat) clocks ->
    forall (i : nat) (r : RedisRateLimit.LockResult * list RedisRateLimit.Command),
      fst (calls (fun clock store =>
                    RedisRateLimit.recordFailedLogin None clock email
                      (snd (RedisRateLimit.isAccountLocked None clock email store)))
             clocks lockStore) !! i = Some r ->
      RedisRateLimit.locked (fst r) = false.
Proof.
  intros email clocks lockStore Hnone Hall.
  assert (Hinv : lockStore !! email = None \/
                 exists d, lockStore !! email = Some d /\ RedisRateLimit.lockTime d = 0)
    by now left.
  clear Hnone. revert lockStore Hinv.
  induction clocks as [|clock clocks IH]; intros lockStore Hinv i r Hi; [discriminate|].
  apply Forall_cons in Hall as [Hclock Hall]. specialize (IH Hall).
  assert (Hstep : exists store0,
            RedisRateLimit.recordFailedLogin None clock email
              (snd (RedisRateLimit.isAccountLocked None clock email lockStore)) =
            ({| RedisRateLimit.locked := false; RedisRateLimit.remainingTime := None |},
             [],
             <[email := {| RedisRateLimit.lockTime := 0;
                           RedisRateLimit.failures := 1 |}]> store0)).
  { assert (Hcheck : snd (RedisRateLimit.isAccountLocked None clock email lockStore)
                       !! email = None).
    { unfold RedisRateLimit.isAccountLocked.
      destruct Hinv as [Hnone | (d & Hd & Ht)].
      - now rewrite Hnone.
      - rewrite Hd, Ht.
        destruct (Z.ltb_spec (clock 2%nat) (0 + RedisRateLimit.lockDuration)); [lia|].
        simpl. apply lookup_delete_eq. }
    exists (snd (RedisRateLimit.isAccountLocked None clock email lockStore)).
    unfold RedisRateLimit.recordFailedLogin. now rewrite Hcheck. }
  destruct Hstep as (store0 & Hstep).
  cbn [calls] in Hi. rewrite Hstep in Hi.
  specialize (IH (<[email := {| RedisRateLimit.lockTime := 0;
                                RedisRateLimit.failures := 1 |}]> store0)
                 ltac:(right; eexists; split; [apply lookup_insert_eq | reflexivity])).
  destruct (calls _ clocks _) as [rs final].
  destruct i as [|i]; simpl in Hi.
  - now injection Hi as <-.
  - exact (IH i r Hi).
Qed.

Lemma isAccountLocked_fallback_forgets_witness :
  let clocks : list (nat -> Z) :=
    map (fun k _ => 1762128000000 + k) [0; 1; 2; 3; 4; 5] in
  exists r,
    fst (calls (fun clock store =>
                  RedisRateLimit.recordFailedLogin None clock "a@b.c"
                    (snd (RedisRateLimit.isAccountLocked None clock "a@b.c" store)))
           clocks ∅) !! 5%nat = Some r /\
    RedisRateLimit.locked (fst r) = false.
Proof.
  intros clocks. eexists. split; [vm_compute; reflexivity|].
  apply (isAccountLocked_fallback_forgets "a@b.c" clocks ∅ (lookup_empty _)
           ltac:(repeat constructor; vm_compute; discriminate) 5%nat
           ({| RedisRateLimit.locked := false; RedisRateLimit.remainingTime := None |}, [])).
  vm_compute. reflexivity.
Defined.

(** X18. On the fallback the sweep forgets the failures of an account that
    was never locked.  Such a record has lock time 0, so [cleanup()] at
    any clock reading past the lock duration deletes it, however many
    failures it holds; the next failure that ends in memory is counted as
    the first and does not lock. *)
Theorem cleanup_forgets_failures :
  forall (t : Z) (redis : option RedisRateLimit.LockReplies) (clock : nat -> Z)
         (email : string) (d : RedisRateLimit.LockData)
         (stores : gmap string RedisRateLimit.FallbackRecord *
                   gmap string RedisRateLimit.LockData),
    snd stores !! email = Some d ->
    RedisRateLimit.lockTime d = 0 ->
    RedisRateLimit.lockDuration < t ->
    match redis with
    | None => True
    | Some replies => RedisRateLimit.exec replies = RedisRateLimit.Rejects
    end ->
    let swept := snd (RedisRateLimit.cleanup t stores) in
    swept !! email = None /\
    RedisRateLimit.locked
      (fst (fst (RedisRateLimit.recordFailedLogin redis clock email swept))) = false /\
    snd (RedisRateLimit.recordFailedLogin redis clock email swept) !! email =
      Some {| RedisRateLimit.lockTime := 0; RedisRateLimit.failures := 1 |}.
Proof.
  intros t redis clock email d [fs ls] Hd Ht Hlate Hfb. simpl in Hd |- *.
  assert (Hswept : filter (fun kv => (t >? RedisRateLimit.lockTime (snd kv) +
                                           RedisRateLimit.lockDuration) = false) ls
                     !! email = None).
  { apply map_lookup_filter_None_2. right. intros x Hx G.
    rewrite Hd in Hx. injection Hx as <-. simpl in G. rewrite Ht in G.
    destruct (Z.gtb_spec t (0 + RedisRateLimit.lockDuration)); [discriminate | lia]. }
  split; [exact Hswept|].
  destruct (recordFailedLogin_fallback redis clock email
              (filter (fun kv => (t >? RedisRateLimit.lockTime (snd kv) +
                                      RedisRateLimit.lockDuration) = false) ls) Hfb)
    as [Hr Hs].
  rewrite Hswept in Hr, Hs. simpl in Hr, Hs.
  rewrite Hr, Hs, lookup_insert_eq. split; reflexivity.
Qed.

Lemma cleanup_forgets_failures_witness :
  let ls : gmap string RedisRateLimit.LockData :=
    {[ "a@b.c"%string :=
         {| RedisRateLimit.lockTime := 0; RedisRateLimit.failures := 4 |} ]} in
  RedisRateLimit.locked
    (fst (fst (RedisRateLimit.recordFailedLogin None (fun _ => 1762128000000) "a@b.c" ls)))
    = true /\
  RedisRateLimit.locked
    (fst (fst (RedisRateLimit.recordFailedLogin None (fun _ => 1762128000000) "a@b.c"
                 (snd (RedisRateLimit.cleanup 1762127999999 (∅, ls)))))) = false.
Proof.
  intros ls. split; [vm_compute; reflexivity|].
  apply (cleanup_forgets_failures 1762127999999 None (fun _ => 1762128000000) "a@b.c"
           {| RedisRateLimit.lockTime := 0; RedisRateLimit.failures := 4 |} (∅, ls)).
  - apply lookup_singleton_eq.
  - reflexivity.
  - reflexivity.
  - exact I.
Defined.

(** ** One request through the DoS gate *)

Section Protect.
Import DosProtection.
Variables (env : Env) (request : NextRequest) (s : Service).

Lemma protect_blocked :
  enabled (config s) = true ->
  getClientIP request ∈ suspiciousIPs s ->
  protect env request s = (Returned (Some (plain "Request blocked" 429 [])), s).
Proof.
  intros Hon Hin. unfold protect, guarded, bind, get, tryCatch, ret.
  rewrite Hon. simpl. now rewrite (bool_decide_eq_true_2 _ Hin).
Qed.

End Protect.

Section Guarded.
Import DosProtection.
Variables (env : Env) (request : NextRequest).
Variables (c : DoSProtectionConfig) (a : gmap string RequestMetrics)
          (su : gset string).

(** The size check always returns and leaves the service as it is. *)
Lemma checkRequestSize_returns (s : Service) :
  exists r, checkRequestSize env request s = (Returned r, s).
Proof.
  unfold checkRequestSize, tryCatch, bind, step, get, ret, raise.
  destruct (faults env SizeCheck); [eexists; reflexivity|].
  destruct (truthyS _); eexists; reflexivity.
Qed.

Lemma checkRateLimit_outcome (ip0 : string) (rc : gmap string Z)
    (t : list (Z * TimerAction)) (l : RedisRateLimit.Limiter) :
  exists o l',
    checkRateLimit env request ip0 (Build_Service c a su rc t l) =
      (o, Build_Service c a su rc t l') /\
    (forall e, o = Raised e -> faults env RateLimitCheck = true).
Proof.
  unfold checkRateLimit, bind, step, get, ret, raise, modify.
  destruct (faults env RateLimitCheck); [do 2 eexists; split; [reflexivity | auto]|].
  simpl.
  destruct (RedisRateLimit.checkRateLimit _ _ _ _ _ _ _ l) as [result l'].
  do 2 eexists. split; [reflexivity | discriminate].
Qed.

Lemma detectSuspiciousPatterns_outcome (ip0 userAgent0 : string)
    (rc : gmap string Z) (t : list (Z * TimerAction)) (l : RedisRateLimit.Limiter) :
  exists o rc' t',
    detectSuspiciousPatterns env request ip0 userAgent0 (Build_Service c a su rc t l) =
      (o, Build_Service c a su rc' t' l) /\
    match o with
    | Raised _ => faults env PatternCheck = true
    | Returned r =>
        suspicious r = false ->
        existsb (fun agent => includes (toLowerCase userAgent0) agent)
                suspiciousAgents = false /\
        default 0 (rc !! ip0) <= 20 /\
        includes (pathname request) "../" = false
    end.
Proof.
  unfold detectSuspiciousPatterns, bind, step, get, ret, raise, modify, setTimeout.
  destruct (faults env PatternCheck);
    [do 3 eexists; split; [reflexivity | reflexivity]|].
  cbv beta iota.
  destruct (existsb (fun agent => includes (toLowerCase userAgent0) agent)
              suspiciousAgents) eqn:Hagent;
    [do 3 eexists; split; [reflexivity | discriminate]|].
  cbn [requestCounts config activeRequests suspiciousIPs timers limiter].
  destruct (Z.gtb_spec (default 0 (rc !! ip0)) 20);
    [do 3 eexists; split; [reflexivity | discriminate]|].
  destruct (truthyS _ && includes _ "../../");
    [do 3 eexists; split; [reflexivity | discriminate]|].
  destruct (includes (pathname request) "../") eqn:Hpath; cbn [orb].
  - do 3 eexists; split; [reflexivity | discriminate].
  - destruct (includes (pathname request) "..\");
      do 3 eexists; (split; [reflexivity|]); [discriminate|].
    intros _. repeat split; assumption.
Qed.

(** What the [try] block of [protect] can do, case by case. *)
Lemma guarded_outcome (ip0 userAgent0 path0 requestId : string)
    (rc : gmap string Z) (t : list (Z * TimerAction)) (l : RedisRateLimit.Limiter) :
  exists o a' su' rc' t' l',
    guarded env request ip0 userAgent0 path0 requestId (Build_Service c a su rc t l) =
      (o, Build_Service c a' su' rc' t' l') /\
    match o with
    | Returned (Some response) =>
        (status response = 429 \/ status response = 413) /\ a' = a
    | Returned None =>
        (ip0 ∉ su) /\ su' = su /\
        Z.of_nat (length (List.filter (fun req => bool_decide (ip req = ip0))
                            (snd <$> map_to_list a))) < maxConcurrentRequests c /\
        (exists size0,
           a' = <[requestId := {| startTime := clock env 4; size := size0;
                                  ip := ip0; userAgent := userAgent0;
                                  path := path0 |}]> a) /\
        (exists t0, t' = t0 ++ [(requestTimeout c, DeleteActiveRequest requestId)]) /\
        (suspiciousPatternDetection c = true ->
         existsb (fun agent => includes (toLowerCase userAgent0) agent)
                 suspiciousAgents = false /\
         default 0 (rc !! ip0) <= 20 /\
         includes (pathname request) "../" = false)
    | Raised _ => a' = a /\ exists p, faults env p = true
    end.
Proof.
  unfold guarded. unfold bind at 1. unfold get at 1.
  cbn [suspiciousIPs config].
  destruct (bool_decide_reflect (ip0 ∈ su)) as [Hin|Hnin];
    [do 6 eexists; split; [reflexivity | simpl; auto]|].
  unfold bind at 1.
  destruct (checkRequestSize_returns (Build_Service c a su rc t l)) as [sz ->].
  destruct (allowed sz); cbn [negb];
    [|do 6 eexists; split; [reflexivity | simpl; auto]].
  unfold bind at 1.
  unfold checkConcurrentRequests at 1, bind at 1, step at 1.
  destruct (faults env ConcurrencyCheck) eqn:Hf2;
    [do 6 eexists; split; [reflexivity | split; [reflexivity | eauto]]|].
  unfold ret at 1, bind at 1, get at 1, ret at 1.
  cbn [activeRequests config].
  destruct (Z.ltb_spec
              (Z.of_nat (length (List.filter (fun req => bool_decide (ip req = ip0))
                                   (snd <$> map_to_list a))))
              (maxConcurrentRequests c)) as [Hcap|Hcap]; cbn [negb];
    [|do 6 eexists; split; [reflexivity | simpl; auto]].
  unfold bind at 1.
  destruct (checkRateLimit_outcome ip0 rc t l) as (o4 & l4 & -> & Ho4).
  destruct o4 as [rl|e4];
    [|do 6 eexists; split; [reflexivity | split; [reflexivity | eauto]]].
  destruct (rlAllowed rl); cbn [negb];
    [|do 6 eexists; split; [reflexivity | simpl; auto]].
  assert (Htrack : forall rc' t',
    exists o a' t'',
      (step env Tracking ;;;
       let* s := get in
       modify (fun s =>
         {| config := config s;
            activeRequests :=
              <[requestId := {| startTime := clock env 4; size := checkedSize sz;
                                ip := ip0; userAgent := userAgent0;
                                path := path0 |}]> (activeRequests s);
            suspiciousIPs := suspiciousIPs s; requestCounts := requestCounts s;
            timers := timers s; limiter := limiter s |}) ;;;
       setTimeout (DeleteActiveRequest requestId) (requestTimeout (config s)) ;;;
       ret (None : option NextResponse)) (Build_Service c a su rc' t' l4) =
      (o, Build_Service c a' su rc' t'' l4) /\
      match o with
      | Returned (Some _) => False
      | Returned None =>
          a' = <[requestId := {| startTime := clock env 4; size := checkedSize sz;
                                 ip := ip0; userAgent := userAgent0;
                                 path := path0 |}]> a /\
          t'' = t' ++ [(requestTimeout c, DeleteActiveRequest requestId)]
      | Raised _ => a' = a /\ faults env Tracking = true
      end).
  { intros rc' t'. unfold bind, step, get, modify, setTimeout, ret, raise.
    destruct (faults env Tracking); do 3 eexists; (split; [reflexivity|]); simpl; auto. }
  destruct (suspiciousPatternDetection c) eqn:Hspd.
  - unfold bind at 1.
    destruct (detectSuspiciousPatterns_outcome ip0 userAgent0 rc t l4)
      as (o5 & rc5 & t5 & -> & Ho5).
    destruct o5 as [pc|e5];
      [|do 6 eexists; split; [reflexivity | split; [reflexivity | eauto]]].
    destruct (suspicious pc) eqn:Hpc.
    + do 6 eexists. split; [reflexivity|]. simpl. auto.
    + destruct (Htrack rc5 t5) as (o & a' & t'' & -> & Ho).
      do 6 eexists. split; [reflexivity|].
      destruct o as [[r|]|e].
      * contradiction.
      * destruct Ho as [-> ->]. destruct Ho5 as (H1 & H2 & H3); [reflexivity|].
        repeat split; eauto.
      * destruct Ho as [-> Hf]. eauto.
  - destruct (Htrack rc t) as (o & a' & t'' & -> & Ho).
    do 6 eexists. split; [reflexivity|].
    destruct o as [[r|]|e].
    * contradiction.
    * destruct Ho as [-> ->]. repeat split; eauto; congruence.
    * destruct Ho as [-> Hf]. eauto.
Qed.

End Guarded.

(** What one call of [protect] on an enabled service can do. *)
Lemma protect_outcome (env : DosProtection.Env) (request : NextRequest)
    (c : DosProtection.DoSProtectionConfig)
    (a : gmap string DosProtection.RequestMetrics) (su : gset string)
    (rc : gmap string Z) (t : list (Z * DosProtection.TimerAction))
    (l : RedisRateLimit.Limiter) :
  DosProtection.enabled c = true ->
  let ip0 := DosProtection.getClientIP request in
  let userAgent0 := orElse (headers_get request "user-agent") "unknown" in
  let requestId := ip0 +:+ "-" +:+ toString (DosProtection.clock env 0) +:+ "-" +:+
                   DosProtection.random env 0 in
  exists o a' su' rc' t' l',
    DosProtection.guarded env request ip0 userAgent0 (pathname request) requestId
      (DosProtection.Build_Service c a su rc t l) =
      (o, DosProtection.Build_Service c a' su' rc' t' l') /\
    DosProtection.protect env request (DosProtection.Build_Service c a su rc t l) =
      (match o with
       | DosProtection.Returned r => DosProtection.Returned r
       | DosProtection.Raised _ => DosProtection.Returned None
       end, DosProtection.Build_Service c a' su' rc' t' l').
Proof.
  intros Hon ip0 userAgent0 requestId.
  destruct (guarded_outcome env request c a su ip0 userAgent0 (pathname request)
              requestId rc t l) as (o & a' & su' & rc' & t' & l' & Hg & _).
  exists o, a', su', rc', t', l'. split; [exact Hg|].
  unfold DosProtection.protect, DosProtection.bind, DosProtection.get,
    DosProtection.tryCatch.
  cbn [DosProtection.config]. rewrite Hon. cbn [negb].
  fold ip0 userAgent0 requestId. rewrite Hg. now destruct o.
Qed.

(** X19. A block-listed client is rejected before anything else.  On an
    enabled service a request whose client address is in the set of
    suspicious addresses gets 429 "Request blocked", whatever its headers,
    the state of the store and the internal errors of the call, and the
    service is left exactly as it was: no counter, limiter record, timer
    or tracked request changes. *)
Theorem protect_blocked_ip :
  forall (env : DosProtection.Env) (request : NextRequest) (s : DosProtection.Service),
    DosProtection.enabled (DosProtection.config s) = true ->
    DosProtection.getClientIP request ∈ DosProtection.suspiciousIPs s ->
    DosProtection.protect env request s =
      (DosProtection.Returned
         (Some {| status := 429; responseHeaders := []; body := Text "Request blocked" |}),
       s).
Proof. intros env request s Hon Hin. now apply protect_blocked. Qed.

Lemma protect_blocked_ip_witness :
  let env := {| DosProtection.clock := fun _ => 1762128000000;
                DosProtection.random := fun _ => "0.5"%string;
                DosProtection.infra := RedisRateLimit.Failing;
                DosProtection.faults := fun _ => true |} in
  let request := {| method := "POST"; pathname := "/api/plants";
                    headers := {[ "x-real-ip"%string := "6.6.6.6"%string;
                                  "content-length"%string := "abc"%string ]} |} in
  let s0 := DosProtection.DoSProtectionService (Some "production"%string)
              (RedisRateLimit.RedisRateLimiter None ∅) in
  let s := {| DosProtection.config := DosProtection.config s0;
              DosProtection.activeRequests := ∅;
              DosProtection.suspiciousIPs := {[ "6.6.6.6"%string ]};
              DosProtection.requestCounts := ∅;
              DosProtection.timers := [];
              DosProtection.limiter := DosProtection.limiter s0 |} in
  snd (DosProtection.protect env request s) = s.
Proof.
  intros env request s0 s.
  rewrite (protect_blocked_ip env request s); [reflexivity | reflexivity |].
  assert (E : DosProtection.getClientIP request = "6.6.6.6"%string)
    by (vm_compute; reflexivity).
  rewrite E. subst s. cbn [DosProtection.suspiciousIPs].
  apply elem_of_singleton. reflexivity.
Defined.

(** X20. A rejection is a 429 or a 413 and never tracks the request.
    Whenever [protect] answers with a response, its status is 429 or 413
    and the set of active requests is the one before the call: a refused
    request takes no concurrency slot. *)
Theorem protect_rejection :
  forall (env : DosProtection.Env) (request : NextRequest) (s : DosProtection.Service)
         (response : NextResponse),
    fst (DosProtection.protect env request s) = DosProtection.Returned (Some response) ->
    (status response = 429 \/ status response = 413) /\
    DosProtection.activeRequests (snd (DosProtection.protect env request s)) =
      DosProtection.activeRequests s.
Proof.
  intros env request [c a su rc t l] response.
  destruct (DosProtection.enabled c) eqn:Hon.
  - destruct (guarded_outcome env request c a su (DosProtection.getClientIP request)
                (orElse (headers_get request "user-agent") "unknown")
                (pathname request)
                (DosProtection.getClientIP request +:+ "-" +:+
                 toString (DosProtection.clock env 0) +:+ "-" +:+
                 DosProtection.random env 0) rc t l)
      as (o & a' & su' & rc' & t' & l' & Hg & Ho).
    destruct (protect_outcome env request c a su rc t l Hon)
      as (o2 & a2 & su2 & rc2 & t2 & l2 & Hg2 & ->).
    cbv zeta in Hg2. rewrite Hg in Hg2. injection Hg2 as <- <- <- <- <- <-.
    simpl. intros H. destruct o as [[r|]|e]; try discriminate.
    injection H as ->. exact Ho.
  - unfold DosProtection.protect, DosProtection.bind, DosProtection.get,
      DosProtection.ret.
    cbn [DosProtection.config]. rewrite Hon. discriminate.
Qed.

Lemma protect_rejection_witness :
  let env := {| DosProtection.clock := fun _ => 1762128000000;
                DosProtection.random := fun _ => "0.5"%string;
                DosProtection.infra := RedisRateLimit.Failing;
                DosProtection.faults := fun _ => false |} in
  let request := {| method := "GET"; pathname := "/api/plants";
                    headers := {[ "x-real-ip"%string := "1.2.3.4"%string;
                                  "user-agent"%string := "curl/8.5.0"%string ]} |} in
  let s := DosProtection.DoSProtectionService (Some "production"%string)
             (RedisRateLimit.RedisRateLimiter None ∅) in
  DosProtection.activeRequests (snd (DosProtection.protect env request s)) = ∅ /\
  DosProtection.suspiciousIPs (snd (DosProtection.protect env request s)) =
    {[ "1.2.3.4"%string ]} ∪ ∅.
Proof.
  intros env request s. split; [|vm_compute; reflexivity].
  apply (protect_rejection env request s
           {| status := 429; responseHeaders := []; body := Text "Request blocked" |}).
  vm_compute. reflexivity.
Defined.

(** X21. What an admitted request has passed.  On an enabled service and
    a call without internal errors, [protect] lets a request proceed only
    if its client address is not block-listed, the address has fewer
    active requests than the cap and, with pattern detection on, the user
    agent has none of the listed words, at most 20 requests of the address
    were counted before and the path has no "../".  The request is then
    tracked under its id, a timer is scheduled to remove it after the
    request timeout, and the block list is unchanged. *)
Theorem protect_admission :
  forall (env : DosProtection.Env) (request : NextRequest) (s : DosProtection.Service),
    DosProtection.enabled (DosProtection.config s) = true ->
    (forall p, DosProtection.faults env p = false) ->
    fst (DosProtection.protect env request s) = DosProtection.Returned None ->
    let ip0 := DosProtection.getClientIP request in
    let userAgent0 := orElse (headers_get request "user-agent") "unknown" in
    let requestId := ip0 +:+ "-" +:+ toString (DosProtection.clock env 0) +:+ "-" +:+
                     DosProtection.random env 0 in
    let s' := snd (DosProtection.protect env request s) in
    (ip0 ∉ DosProtection.suspiciousIPs s) /\
    Z.of_nat (length (List.filter
                        (fun req => bool_decide (DosProtection.ip req = ip0))
                        (snd <$> map_to_list (DosProtection.activeRequests s)))) <
      DosProtection.maxConcurrentRequests (DosProtection.config s) /\
    (DosProtection.suspiciousPatternDetection (DosProtection.config s) = true ->
     existsb (fun agent => includes (toLowerCase userAgent0) agent)
             DosProtection.suspiciousAgents = false /\
     default 0 (DosProtection.requestCounts s !! ip0) <= 20 /\
     includes (pathname request) "../" = false) /\
    (exists size0,
       DosProtection.activeRequests s' =
         <[requestId := {| DosProtection.startTime := DosProtection.clock env 4;
                           DosProtection.size := size0;
                           DosProtection.ip := ip0;
                           DosProtection.userAgent := userAgent0;
                           DosProtection.path := pathname request |}]>
           (DosProtection.activeRequests s)) /\
    (exists t0,
       DosProtection.timers s' =
         t0 ++ [(DosProtection.requestTimeout (DosProtection.config s),
                 DosProtection.DeleteActiveRequest requestId)]) /\
    DosProtection.suspiciousIPs s' = DosProtection.suspiciousIPs s.
Proof.
  intros env request [c a su rc t l] Hon Hnofault Hnone ip0 userAgent0 requestId s'.
  cbn [DosProtection.config] in Hon.
  destruct (guarded_outcome env request c a su ip0 userAgent0 (pathname request)
              requestId rc t l) as (o & a' & su' & rc' & t' & l' & Hg & Ho).
  destruct (protect_outcome env request c a su rc t l Hon)
    as (o2 & a2 & su2 & rc2 & t2 & l2 & Hg2 & Hp).
  cbv zeta in Hg2. fold ip0 userAgent0 requestId in Hg2.
  rewrite Hg in Hg2. injection Hg2 as <- <- <- <- <- <-.
  subst s'. rewrite Hp in Hnone |- *. simpl in Hnone |- *.
  destruct o as [[r|]|e]; [discriminate | |].
  - destruct Ho as (H1 & -> & H3 & H4 & H5 & H6).
    exact (conj H1 (conj H3 (conj H6 (conj H4 (conj H5 eq_refl))))).
  - destruct Ho as (_ & p & Hp'). rewrite Hnofault in Hp'. discriminate.
Qed.

Lemma protect_admission_witness :
  let env := {| DosProtection.clock := fun _ => 1762128000000;
                DosProtection.random := fun _ => "0.5"%string;
                DosProtection.infra := RedisRateLimit.Failing;
                DosProtection.faults := fun _ => false |} in
  let request := {| method := "GET"; pathname := "/api/plants";
                    headers := {[ "x-real-ip"%string := "1.2.3.4"%string;
                                  "user-agent"%string := "Mozilla/5.0"%string ]} |} in
  let s := DosProtection.DoSProtectionService (Some "production"%string)
             (RedisRateLimit.RedisRateLimiter None ∅) in
  fst (DosProtection.protect env request s) = DosProtection.Returned None /\
  DosProtection.suspiciousIPs (snd (DosProtection.protect env request s)) = ∅.
Proof.
  intros env request s.
  assert (Hnone : fst (DosProtection.protect env request s) = DosProtection.Returned None)
    by (vm_compute; reflexivity).
  split; [exact Hnone|].
  apply (protect_admission env request s eq_refl (fun _ => eq_refl) Hnone).
Defined.

(** ** The wrapper of route handlers *)

(** X22. [withDoSProtection] always answers with a response: it never
    raises, whatever the handler, the store and the internal errors of the
    gate do.  A request the gate rejects gets the gate's response and never
    reaches the handler; otherwise the answer is the handler's, or a 500
    when the handler raises.  The service is left as [protect] left it:
    the end of the handler changes nothing in it. *)
Theorem withDoSProtection_outcome :
  forall (H : Type) (env : DosProtection.Env) (request : NextRequest)
         (handler : NextRequest -> H -> DosProtection.Outcome NextResponse * H)
         (s : DosProtection.Service) (h : H),
    exists response,
      DosProtection.withDoSProtection env request handler s h =
        (DosProtection.Returned response, snd (DosProtection.protect env request s),
         match fst (DosProtection.protect env request s) with
         | DosProtection.Returned (Some _) => h
         | _ => snd (handler request h)
         end) /\
      match fst (DosProtection.protect env request s) with
      | DosProtection.Returned (Some rejection) => response = rejection
      | DosProtection.Returned None =>
          response = match fst (handler request h) with
                     | DosProtection.Returned r => r
                     | DosProtection.Raised _ =>
                         {| status := 500; responseHeaders := [];
                            body := Text "Internal server error" |}
                     end
      | DosProtection.Raised _ => False
      end.
Proof.
  intros H env request handler [c a su rc t l] h.
  unfold DosProtection.withDoSProtection.
  destruct (DosProtection.enabled c) eqn:Hon.
  - destruct (protect_outcome env request c a su rc t l Hon)
      as (o & a' & su' & rc' & t' & l' & _ & ->).
    destruct o as [[r|]|e]; simpl.
    + eexists; split; reflexivity.
    + destruct (handler request h) as [[r|e] h']; eexists; split; reflexivity.
    + destruct (handler request h) as [[r|e'] h']; eexists; split; reflexivity.
  - unfold DosProtection.protect, DosProtection.bind, DosProtection.get,
      DosProtection.ret.
    cbn [DosProtection.config]. rewrite Hon. simpl.
    destruct (handler request h) as [[r|e] h']; eexists; split; reflexivity.
Qed.

(** ** The life of a concurrency slot *)

(** X23. A slot is held until the timer or the sweep, not until the
    handler ends.  When the gate admits a request (enabled service, no
    internal error) whose id is not yet tracked, the request is still
    tracked after [withDoSProtection] has run its handler; firing the
    timer the call scheduled restores the set of active requests; and a
    sweep by [cleanupStaleRequests] keeps the request up to the request
    timeout after its start and removes it afterwards. *)
Theorem slot_lifetime :
  forall (H : Type) (env : DosProtection.Env) (request : NextRequest)
         (handler : NextRequest -> H -> DosProtection.Outcome NextResponse * H)
         (s : DosProtection.Service) (h : H) (now : Z),
    DosProtection.enabled (DosProtection.config s) = true ->
    (forall p, DosProtection.faults env p = false) ->
    fst (DosProtection.protect env request s) = DosProtection.Returned None ->
    let requestId := DosProtection.getClientIP request +:+ "-" +:+
                     toString (DosProtection.clock env 0) +:+ "-" +:+
                     DosProtection.random env 0 in
    DosProtection.activeRequests s !! requestId = None ->
    let served := snd (fst (DosProtection.withDoSProtection env request handler s h)) in
    (exists m, DosProtection.activeRequests served !! requestId = Some m /\
               DosProtection.ip m = DosProtection.getClientIP request /\
               DosProtection.startTime m = DosProtection.clock env 4) /\
    DosProtection.activeRequests
      (snd (DosProtection.fire (DosProtection.DeleteActiveRequest requestId) served)) =
      DosProtection.activeRequests s /\
    (now - DosProtection.clock env 4 <=
       DosProtection.requestTimeout (DosProtection.config s) ->
     DosProtection.activeRequests
       (snd (DosProtection.cleanupStaleRequests now served)) !! requestId =
       DosProtection.activeRequests served !! requestId) /\
    (DosProtection.requestTimeout (DosProtection.config s) <
       now - DosProtection.clock env 4 ->
     DosProtection.activeRequests
       (snd (DosProtection.cleanupStaleRequests now served)) !! requestId = None).
Proof.
  intros H env request handler [c a su rc t l] h now Hon Hnofault Hnone requestId
         Hfresh served.
  cbn [DosProtection.config DosProtection.activeRequests] in Hon, Hfresh |- *.
  destruct (guarded_outcome env request c a su (DosProtection.getClientIP request)
              (orElse (headers_get request "user-agent") "unknown")
              (pathname request) requestId rc t l)
    as (o & a' & su' & rc' & t' & l' & Hg & Ho).
  destruct (protect_outcome env request c a su rc t l Hon)
    as (o2 & a2 & su2 & rc2 & t2 & l2 & Hg2 & Hp).
  cbv zeta in Hg2. fold requestId in Hg2.
  rewrite Hg in Hg2. injection Hg2 as <- <- <- <- <- <-.
  assert (Hserved : served = DosProtection.Build_Service c a' su' rc' t' l').
  { subst served. unfold DosProtection.withDoSProtection. rewrite Hp.
    rewrite Hp in Hnone. simpl in Hnone.
    destruct o as [[r|]|e]; try discriminate;
      destruct (handler request h) as [[r|e'] h']; reflexivity. }
  rewrite Hp in Hnone. simpl in Hnone.
  destruct o as [[r|]|e]; [discriminate | |].
  2: { destruct Ho as (_ & p & Hp'). rewrite Hnofault in Hp'. discriminate. }
  destruct Ho as (_ & -> & _ & (size0 & ->) & _ & _).
  rewrite Hserved. clear Hserved served.
  unfold DosProtection.fire, DosProtection.cleanupStaleRequests, DosProtection.modify.
  cbn [snd DosProtection.activeRequests DosProtection.config].
  repeat split.
  - eexists. split; [apply lookup_insert_eq|]. split; reflexivity.
  - rewrite delete_insert_eq. now apply delete_id.
  - intros Hyoung. rewrite map_lookup_filter, lookup_insert_eq. simpl.
    case_guard as G; simpl in *; [reflexivity|].
    destruct (Z.gtb_spec (now - DosProtection.clock env 4)
                (DosProtection.requestTimeout c)); [lia | congruence].
  - intros Hold. apply map_lookup_filter_None_2. right. intros x Hx G.
    rewrite lookup_insert_eq in Hx. injection Hx as <-. simpl in G.
    destruct (Z.gtb_spec (now - DosProtection.clock env 4)
                (DosProtection.requestTimeout c)); [discriminate | lia].
Qed.

Lemma slot_lifetime_witness :
  let env := {| DosProtection.clock := fun _ => 1762128000000;
                DosProtection.random := fun _ => "0.5"%string;
                DosProtection.infra := RedisRateLimit.Failing;
                DosProtection.faults := fun _ => false |} in
  let request := {| method := "GET"; pathname := "/api/plants";
                    headers := {[ "x-real-ip"%string := "1.2.3.4"%string;
                                  "user-agent"%string := "Mozilla/5.0"%string ]} |} in
  let s := DosProtection.DoSProtectionService (Some "production"%string)
             (RedisRateLimit.RedisRateLimiter None ∅) in
  let handler := fun (_ : NextRequest) (n : nat) =>
    (DosProtection.Returned {| status := 200; responseHeaders := []; body := Text "ok" |},
     S n) in
  let served := snd (fst (DosProtection.withDoSProtection env request handler s 0%nat)) in
  DosProtection.activeRequests
    (snd (DosProtection.cleanupStaleRequests 1762128030001 served))
    !! "1.2.3.4-1762128000000-0.5"%string = None.
Proof.
  intros env request s handler served.
  assert (Hnone : fst (DosProtection.protect env request s) = DosProtection.Returned None)
    by (vm_compute; reflexivity).
  assert (Hid : DosProtection.getClientIP request +:+ "-" +:+
                toString (DosProtection.clock env 0) +:+ "-" +:+
                DosProtection.random env 0 = "1.2.3.4-1762128000000-0.5"%string)
    by (vm_compute; reflexivity).
  rewrite <- Hid.
  apply (slot_lifetime nat env request handler s 0%nat 1762128030001 eq_refl
           (fun _ => eq_refl) Hnone (lookup_empty _)).
  simpl. lia.
Defined.

(** ** The request frequency check *)

Section Frequency.
Import DosProtection.
Variables (request : NextRequest) (ip0 userAgent0 : string).
Hypothesis Hagent :
  existsb (fun agent => includes (toLowerCase userAgent0) agent) suspiciousAgents = false.
Hypothesis Hcontent :
  truthyS (headers_get request "content-type") &&
  includes (default "" (headers_get request "content-type")) "../../" = false.
Hypothesis Hpath :
  includes (pathname request) "../" || includes (pathname request) "..\" = false.

Lemma detectSuspiciousPatterns_clean (env : Env) (s : Service) :
  faults env PatternCheck = false ->
  exists r s',
    detectSuspiciousPatterns env request ip0 userAgent0 s = (Returned r, s') /\
    suspicious r = (default 0 (requestCounts s !! ip0) >? 20) /\
    requestCounts s' !! ip0 = Some (default 0 (requestCounts s !! ip0) + 1) /\
    timers s' = timers s ++ [(60000, DecrementRequestCount ip0)].
Proof.
  intros Hf.
  unfold detectSuspiciousPatterns, bind, step, get, ret, raise, modify, setTimeout.
  rewrite Hf, Hagent. cbv beta iota.
  cbn [requestCounts config activeRequests suspiciousIPs timers limiter].
  rewrite Hcontent, Hpath.
  destruct (default 0 (requestCounts s !! ip0) >? 20);
    do 2 eexists; (split; [reflexivity|]); cbn [suspicious requestCounts timers];
    rewrite lookup_insert_eq; auto.
Qed.

Lemma calls_detectSuspiciousPatterns (envs : list Env) :
  forall (s : Service),
    Forall (fun env => faults env PatternCheck = false) envs ->
    forall (i : nat) (o : Outcome PatternCheckResult),
      fst (calls (fun env => detectSuspiciousPatterns env request ip0 userAgent0)
             envs s) !! i = Some o ->
      exists r, o = Returned r /\
                suspicious r = (default 0 (requestCounts s !! ip0) + Z.of_nat i >? 20).
Proof.
  induction envs as [|env envs IH]; intros s Hall i o Hi; [discriminate|].
  apply Forall_cons in Hall as [Hf Hall].
  destruct (detectSuspiciousPatterns_clean env s Hf) as (r & s' & Hcall & Hr & Hc & _).
  cbn [calls] in Hi. rewrite Hcall in Hi. specialize (IH s' Hall).
  destruct (calls _ envs s') as [rs final].
  destruct i as [|i]; simpl in Hi.
  - injection Hi as <-. exists r. split; [reflexivity|]. now rewrite Z.add_0_r.
  - destruct (IH i o Hi) as (r' & -> & Hr'). exists r'. split; [reflexivity|].
    rewrite Hr', Hc. simpl. f_equal. lia.
Qed.

End Frequency.

(** X24. The frequency check flags the 22nd request.  For requests of one
    address with an unlisted user agent, a content type and a path without
    traversal marks, checked one after the other with no counter timer
    firing in between and starting from no count, the [i]-th check (from 0)
    reports suspicious exactly when [i > 20]: the first 21 requests pass,
    the 22nd and every later one are flagged. *)
Theorem detectSuspiciousPatterns_frequency :
  forall (request : NextRequest) (ip0 userAgent0 : string)
         (envs : list DosProtection.Env) (s : DosProtection.Service),
    existsb (fun agent => includes (toLowerCase userAgent0) agent)
            DosProtection.suspiciousAgents = false ->
    truthyS (headers_get request "content-type") &&
    includes (default "" (headers_get request "content-type")) "../../" = false ->
    includes (pathname request) "../" || includes (pathname request) "..\" = false ->
    DosProtection.requestCounts s !! ip0 = None ->
    Forall (fun env => DosProtection.faults env DosProtection.PatternCheck = false) envs ->
    forall (i : nat) (o : DosProtection.Outcome DosProtection.PatternCheckResult),
      fst (calls (fun env =>
                    DosProtection.detectSuspiciousPatterns env request ip0 userAgent0)
             envs s) !! i = Some o ->
      exists r, o = DosProtection.Returned r /\
                DosProtection.suspicious r = (Z.of_nat i >? 20).
Proof.
  intros request ip0 userAgent0 envs s Hagent Hcontent Hpath Hcount Hall i o Hi.
  destruct (calls_detectSuspiciousPatterns request ip0 userAgent0 Hagent Hcontent Hpath
              envs s Hall i o Hi) as (r & -> & Hr).
  exists r. split; [reflexivity|]. now rewrite Hr, Hcount.
Qed.

Lemma detectSuspiciousPatterns_frequency_witness :
  let env := {| DosProtection.clock := fun _ => 1762128000000;
                DosProtection.random := fun _ => "0.5"%string;
                DosProtection.infra := RedisRateLimit.Failing;
                DosProtection.faults := fun _ => false |} in
  let request := {| method := "GET"; pathname := "/api/plants"; headers := ∅ |} in
  let s := DosProtection.DoSProtectionService (Some "production"%string)
             (RedisRateLimit.RedisRateLimiter None ∅) in
  exists o r,
    fst (calls (fun env =>
                  DosProtection.detectSuspiciousPatterns env request "1.2.3.4"
                    "Mozilla/5.0")
           (repeat env 22) s) !! 21%nat = Some o /\
    o = DosProtection.Returned r /\ DosProtection.suspicious r = true.
Proof.
  intros env request s. eexists.
  assert (Hi : fst (calls (fun env =>
                             DosProtection.detectSuspiciousPatterns env request "1.2.3.4"
                               "Mozilla/5.0")
                      (repeat env 22) s) !! 21%nat =
               Some (DosProtection.Returned
                       {| DosProtection.suspicious := true;
                          DosProtection.reason := Some "High request frequency"%string |}))
    by (vm_compute; reflexivity).
  destruct (detectSuspiciousPatterns_frequency request "1.2.3.4" "Mozilla/5.0"
              (repeat env 22) s eq_refl eq_refl eq_refl (lookup_empty _)
              ltac:(repeat constructor) 21%nat _ Hi) as (r & Hr & Hs).
  exists r. split; [exact Hi|]. split; [exact Hr | exact Hs].
Defined.

(** ** Failing open *)

Section FailOpen.
Import DosProtection.
Variables (env : Env) (request : NextRequest) (s : Service).



Hypothesis Henabled : enabled (config s) = true.
Hypothesis Hlisted : getClientIP request ∉ suspiciousIPs s.
Variable sizeCheck : SizeCheckResult.
Hypothesis Hsize : fst (checkRequestSize env request s) = Returned sizeCheck.
Hypothesis Hallowed : allowed sizeCheck = true.




Hypothesis Hconcurrent :
  fst (checkConcurrentRequests env (getClientIP request) s) = Returned true.




End FailOpen.




(** ** What the CSRF validator looks at *)

Lemma upperChar_idempotent (c : ascii) : upperChar (upperChar c) = upperChar c.
Proof. destruct c as [[] [] [] [] [] [] [] []]; reflexivity. Qed.

Lemma toUpperCase_idempotent (s : string) : toUpperCase (toUpperCase s) = toUpperCase s.
Proof.
  induction s as [|c s IH]; [reflexivity|].
  simpl. now rewrite upperChar_idempotent, IH.
Qed.

(** X26. What [csrfProtection] looks at.  The method is compared in upper
    case, so [patch] is checked like [PATCH]; an empty Origin header counts
    as absent, so the Referer decides; a non-empty Origin decides alone,
    whatever the Referer; and a rejection is always a 403 on a POST, PUT,
    DELETE or PATCH. *)
Theorem csrfProtection_inputs :
  forall (newURL : string -> option Csrf.URL) (ALLOWED_ORIGINS : option string)
         (request : NextRequest),
    Csrf.csrfProtection newURL ALLOWED_ORIGINS request =
      Csrf.csrfProtection newURL ALLOWED_ORIGINS
        {| method := toUpperCase (method request); pathname := pathname request;
           headers := headers request |} /\
    (headers_get request "origin" = Some ""%string ->
     Csrf.csrfProtection newURL ALLOWED_ORIGINS request =
       Csrf.csrfProtection newURL ALLOWED_ORIGINS
         {| method := method request; pathname := pathname request;
            headers := delete "origin"%string (headers request) |}) /\
    (forall (origin referer : string),
       headers_get request "origin" = Some origin -> nonEmpty origin = true ->
       Csrf.csrfProtection newURL ALLOWED_ORIGINS request =
         Csrf.csrfProtection newURL ALLOWED_ORIGINS
           {| method := method request; pathname := pathname request;
              headers := <["referer"%string := referer]> (headers request) |}) /\
    (forall (response : NextResponse),
       Csrf.csrfProtection newURL ALLOWED_ORIGINS request = Some response ->
       status response = 403 /\
       Csrf.member (toUpperCase (method request))
         ["POST"; "PUT"; "DELETE"; "PATCH"]%string = true).
Proof.
  intros newURL ALLOWED_ORIGINS request. repeat split.
  - unfold Csrf.csrfProtection, Csrf.validateCSRF, headers_get. cbn [method headers].
    now rewrite toUpperCase_idempotent.
  - intros Hempty. unfold Csrf.csrfProtection, Csrf.validateCSRF, headers_get in *.
    cbn [method headers]. rewrite Hempty, lookup_delete_eq.
    now rewrite lookup_delete_ne by discriminate.
  - intros origin referer Horigin Hnonempty.
    unfold Csrf.csrfProtection, Csrf.validateCSRF, headers_get in *.
    cbn [method headers]. rewrite lookup_insert_ne by discriminate.
    rewrite Horigin. cbn [truthyS]. now rewrite Hnonempty.
  - unfold Csrf.csrfProtection in H.
    destruct (Csrf.member _ _); [|discriminate].
    destruct (Csrf.validateCSRF _ _ _); [discriminate|].
    cbn [negb] in H. now injection H as <-.
  - unfold Csrf.csrfProtection in H.
    now destruct (Csrf.member _ _).
Qed.

Lemma csrfProtection_inputs_witness :
  let newURL := fun s : string =>
    if String.eqb s "http://localhost:3000/page"
    then Some {| Csrf.protocol := "http:"; Csrf.host := "localhost:3000" |}
    else None in
  let request := {| method := "POST"; pathname := "/api/plants";
                    headers := {[ "origin"%string := ""%string;
                                  "referer"%string := "http://localhost:3000/page"%string ]} |} in
  Csrf.csrfProtection newURL None request = None /\
  Csrf.csrfProtection newURL None request =
    Csrf.csrfProtection newURL None
      {| method := "POST"; pathname := "/api/plants";
         headers := delete "origin"%string (headers request) |}.
Proof.
  intros newURL request. split; [vm_compute; reflexivity|].
  destruct (csrfProtection_inputs newURL None request) as (_ & Hempty & _).
  apply Hempty. vm_compute. reflexivity.
Defined.
